(** * llm-eval: the prompt classifier, the rubric evaluator and the model
    dispatcher of [evaluatePrompt], embedded in Rocq.

    The TypeScript module is translated function by function.  JavaScript
    strings are sequences of UTF-16 code units, numbers are IEEE-754 binary64
    values (the Standard Library's executable [SpecFloat] with precision 53
    and maximal exponent 1024), regular expressions are syntax trees run by a
    backtracking matcher, and the asynchronous functions are computations in
    a state-and-exception monad over the outside world (the chat-completion
    service and the clock).  Of the dashboard component the data of the radar
    chart are embedded. *)

From Stdlib Require Import String Ascii ZArith NArith Bool Lia List.
From Stdlib Require Import Floats.SpecFloat.
From Stdlib Require Import Sorting.Permutation.
Import ListNotations.

(** * The program *)

(** ** Strings *)

(** A code unit of a JavaScript string. *)
Definition char := N.

(** A JavaScript string. *)
Definition str := list char.

(** The code unit of an ASCII character, for writing literals. *)
Definition ch (a : ascii) : char := N_of_ascii a.

Arguments ch a%_char.

(** A string literal of the source. *)
Fixpoint lit (s : string) : str :=
  match s with
  | EmptyString => []
  | String a s' => ch a :: lit s'
  end.

Arguments lit s%_string.

Definition str_eqb (a b : str) : bool :=
  if list_eq_dec N.eq_dec a b then true else false.

Section CharClasses.
Local Open Scope N_scope.

(** [\d] *)
Definition is_digit (c : char) : bool := (48 <=? c) && (c <=? 57).

Definition is_lower (c : char) : bool := (97 <=? c) && (c <=? 122).

Definition is_upper (c : char) : bool := (65 <=? c) && (c <=? 90).

(** [[a-zA-Z]] *)
Definition is_alpha (c : char) : bool := is_lower c || is_upper c.

(** [\w]: letters, digits and the underscore. *)
Definition is_word (c : char) : bool := is_alpha c || is_digit c || (c =? 95).

(** [\s], and what [trim] strips: the WhiteSpace and LineTerminator code
    points of ECMAScript. *)
Definition is_space (c : char) : bool :=
  ((9 <=? c) && (c <=? 13)) || (c =? 32) || (c =? 160) || (c =? 5760)
  || ((8192 <=? c) && (c <=? 8202)) || (c =? 8232) || (c =? 8233)
  || (c =? 8239) || (c =? 8287) || (c =? 12288) || (c =? 65279).

(** The class of the two quote characters, written ['DQ] below: DQ stands
    for the double quote (code unit 34), ' is code unit 39. *)
Definition is_quote (c : char) : bool := (c =? 39) || (c =? 34).

(** [[\+\-\*\/]] *)
Definition is_operator (c : char) : bool :=
  (c =? 43) || (c =? 45) || (c =? 42) || (c =? 47).

(** [[\s\S]] *)
Definition any_char (c : char) : bool := is_space c || negb (is_space c).

(** Case conversion of one code unit.  Only the ASCII letters are moved: the
    program lower-cases nothing but captures of [[a-zA-Z]] and [\w+], and
    under the [i] flag a code unit from 128 on never canonicalizes to an
    ASCII one, so it matches no character of the patterns below either
    way. *)
Definition to_upper (c : char) : char := if is_lower c then c - 32 else c.

Definition to_lower (c : char) : char := if is_upper c then c + 32 else c.

End CharClasses.

(** [String.prototype.toLowerCase] *)
Definition toLowerCase (s : str) : str := map to_lower s.

(** ** Regular expressions *)

(** The syntax the patterns of the source need.  Quantifiers stand on
    character classes only, as in the source; [Group i] is the [i]-th pair of
    capturing parentheses; a class is a set with its [^] flag. *)
Inductive regex : Type :=
| Empty
| Char (c : char)
| Class (invert : bool) (A : char -> bool)
| Seq (r1 r2 : regex)
| Alt (r1 r2 : regex)
| Opt (r : regex)
| Star (invert : bool) (A : char -> bool)
| Plus (invert : bool) (A : char -> bool)
| Group (i : nat) (r : regex).

(** A literal run of characters, and the concatenation of a list of parts. *)
Definition Lit (s : string) : regex :=
  fold_right (fun c r => Seq (Char c) r) Empty (lit s).

Arguments Lit s%_string.

Definition Concat (rs : list regex) : regex := fold_right Seq Empty rs.

(** Number of capturing groups. *)
Fixpoint ngroups (r : regex) : nat :=
  match r with
  | Seq r1 r2 | Alt r1 r2 => Nat.max (ngroups r1) (ngroups r2)
  | Opt r1 => ngroups r1
  | Group i r1 => Nat.max i (ngroups r1)
  | _ => 0
  end.

(** The captures of a match in progress: entry [i - 1] is group [i].  Every
    group of the patterns below lies on the mandatory path of its pattern, so
    a successful match has set all of them. *)
Definition captures := list str.

Fixpoint set_capture (i : nat) (w : str) (caps : captures) : captures :=
  match caps with
  | [] => []
  | c :: rest =>
      match i with
      | O => caps
      | S O => w :: rest
      | S j => c :: set_capture j w rest
      end
  end.

(** What was consumed between the input [s] and its suffix [s']. *)
Definition consumed (s s' : str) : str := firstn (length s - length s') s.

Section Matcher.

(** The [i] flag. *)
Variable ignoreCase : bool.

Definition char_matches (c x : char) : bool :=
  if ignoreCase then N.eqb (to_upper x) (to_upper c) else N.eqb x c.

Definition class_matches (invert : bool) (A : char -> bool) (x : char) : bool :=
  xorb invert (if ignoreCase then A (to_upper x) || A (to_lower x) else A x).

Variable R : Type.

(** Greedy repetition of a class: take every character that fits, then give
    them back one by one until the continuation succeeds. *)
Fixpoint star (cm : char -> bool) (s : str) (k : str -> option R) : option R :=
  match s with
  | x :: s' =>
      if cm x then
        match star cm s' k with
        | Some res => Some res
        | None => k s
        end
      else k s
  | [] => k s
  end.

(** The backtracking matcher, in continuation-passing style: [k] is the rest
    of the pattern, and the first alternative that lets [k] succeed wins. *)
Fixpoint run (r : regex) (s : str) (caps : captures)
  (k : str -> captures -> option R) : option R :=
  match r with
  | Empty => k s caps
  | Char c =>
      match s with
      | x :: s' => if char_matches c x then k s' caps else None
      | [] => None
      end
  | Class invert A =>
      match s with
      | x :: s' => if class_matches invert A x then k s' caps else None
      | [] => None
      end
  | Seq r1 r2 => run r1 s caps (fun s1 caps1 => run r2 s1 caps1 k)
  | Alt r1 r2 =>
      match run r1 s caps k with
      | Some res => Some res
      | None => run r2 s caps k
      end
  | Opt r1 =>
      match run r1 s caps k with
      | Some res => Some res
      | None => k s caps
      end
  | Star invert A => star (class_matches invert A) s (fun s' => k s' caps)
  | Plus invert A =>
      match s with
      | x :: s' =>
          if class_matches invert A x
          then star (class_matches invert A) s' (fun s'' => k s'' caps)
          else None
      | [] => None
      end
  | Group i r1 =>
      run r1 s caps (fun s' caps' => k s' (set_capture i (consumed s s') caps'))
  end.

End Matcher.

Arguments star {R} cm s k.
Arguments run ignoreCase {R} r s caps k.

(** A regular expression object: the pattern and its flags. *)
Record RegExp := { source : regex; flag_i : bool }.

(** One attempt at the start of [s]: the matched text followed by the
    captures, as in the array [exec] returns. *)
Definition match_here (re : RegExp) (s : str) : option (list str) :=
  run (flag_i re) (source re) s (repeat [] (ngroups (source re)))
    (fun s' caps => Some (consumed s s' :: caps)).

(** [String.prototype.match] with a pattern that has no [g] flag: the
    leftmost match, [None] for [null]. *)
Fixpoint String_match (re : RegExp) (s : str) : option (list str) :=
  match match_here re s with
  | Some res => Some res
  | None =>
      match s with
      | [] => None
      | _ :: s' => String_match re s'
      end
  end.

(** [String.prototype.match] with a [g] pattern: all the matches from left
    to right, each search resuming where the last match ended (one further
    on after an empty match); the empty list stands for [null].  [skip]
    counts the characters of the last match still to be passed. *)
Fixpoint match_all (re : RegExp) (s : str) (skip : nat) : list str :=
  match skip with
  | S n =>
      match s with
      | [] => []
      | _ :: s' => match_all re s' n
      end
  | O =>
      match match_here re s with
      | Some (w :: _) =>
          w :: match s with
               | [] => []
               | _ :: s' => match_all re s' (Nat.pred (length w))
               end
      | _ =>
          match s with
          | [] => []
          | _ :: s' => match_all re s' 0
          end
      end
  end.

Definition String_match_g (re : RegExp) (s : str) : list str := match_all re s 0.

(** [new RegExp(pattern, 'g')] for a pattern made of letters only, which is
    what [analyzePrompt] passes: each letter stands for itself. *)
Definition new_RegExp (pattern : str) : RegExp :=
  {| source := fold_right (fun c r => Seq (Char c) r) Empty pattern; flag_i := false |}.

(** [String.prototype.trim] *)
Fixpoint trimStart (s : str) : str :=
  match s with
  | c :: s' => if is_space c then trimStart s' else s
  | [] => []
  end.

Definition trim (s : str) : str := rev (trimStart (rev (trimStart s))).

(** [String.prototype.split] with a pattern separator without groups.  The
    scan keeps the piece since the last separator in [piece] (reversed); an
    empty match right at the start of a piece splits nothing. *)
Fixpoint split_from (re : RegExp) (s : str) (piece : str) (skip : nat) : list str :=
  match s with
  | [] => [rev piece]
  | c :: s' =>
      match skip with
      | S n => split_from re s' piece n
      | O =>
          match match_here re s with
          | Some (w :: _) =>
              match length w, piece with
              | S n, _ => rev piece :: split_from re s' [] n
              | O, [] => split_from re s' [c] 0
              | O, _ :: _ => rev piece :: split_from re s' [c] 0
              end
          | _ => split_from re s' (c :: piece) 0
          end
      end
  end.

Definition split (re : RegExp) (s : str) : list str :=
  match s with
  | [] => match match_here re [] with Some _ => [] | None => [[]] end
  | _ => split_from re s [] 0
  end.

(** ** The patterns of [analyzePrompt] *)

Definition quote : regex := Class false is_quote.

(** [/how many (?:of the )?(?:letter|character)s? ['DQ]?([a-zA-Z])['DQ]? (?:is|are) (?:there )?in (?:the word )?['DQ]?(\w+)['DQ]?/i] *)
Definition letterCountRegex : RegExp :=
  {| source := Concat
       [ Lit "how many "; Opt (Lit "of the "); Alt (Lit "letter") (Lit "character");
         Opt (Char (ch "s")); Char (ch " ");
         Opt quote; Group 1 (Class false is_alpha); Opt quote; Char (ch " ");
         Alt (Lit "is") (Lit "are"); Char (ch " "); Opt (Lit "there "); Lit "in ";
         Opt (Lit "the word "); Opt quote; Group 2 (Plus false is_word); Opt quote ];
     flag_i := true |}.

(** [/how many words (?:is|are) (?:there )?in ['DQ]?([^'DQ]+)['DQ]?/i] *)
Definition wordCountRegex : RegExp :=
  {| source := Concat
       [ Lit "how many words "; Alt (Lit "is") (Lit "are"); Char (ch " ");
         Opt (Lit "there "); Lit "in "; Opt quote; Group 1 (Plus true is_quote);
         Opt quote ];
     flag_i := true |}.

(** [/what is (\d+)\s*([\+\-\*\/])\s*(\d+)/i] *)
Definition mathRegex : RegExp :=
  {| source := Concat
       [ Lit "what is "; Group 1 (Plus false is_digit); Star false is_space;
         Group 2 (Class false is_operator); Star false is_space;
         Group 3 (Plus false is_digit) ];
     flag_i := true |}.

(** [/\d+/] *)
Definition digitsRegex : RegExp :=
  {| source := Plus false is_digit; flag_i := false |}.

(** [/-?\d+\.?\d*/] *)
Definition numberRegex : RegExp :=
  {| source := Concat
       [ Opt (Char (ch "-")); Plus false is_digit; Opt (Char (ch "."));
         Star false is_digit ];
     flag_i := false |}.

(** [/\s+/] *)
Definition spacesRegex : RegExp :=
  {| source := Plus false is_space; flag_i := false |}.

(** [/\{[\s\S]*\}/] *)
Definition jsonRegex : RegExp :=
  {| source := Concat [ Char (ch "{"); Star false any_char; Char (ch "}") ];
     flag_i := false |}.

(** ** Numbers *)

(** A JavaScript number: an IEEE-754 binary64 value. *)
Definition number := spec_float.

Definition NaN : number := S754_nan.

Definition Infinity : number := S754_infinity false.

(** The number nearest to an integer (ties to even). *)
Definition number_of_Z (z : Z) : number := binary_normalize 53 1024 z 0 false.

Definition number_of_nat (n : nat) : number := number_of_Z (Z.of_nat n).

(** The arithmetic operators [+], [-], [*], [/] and [Math.abs]. *)
Definition number_add (x y : number) : number := SFadd 53 1024 x y.

Definition number_sub (x y : number) : number := SFsub 53 1024 x y.

Definition number_mul (x y : number) : number := SFmul 53 1024 x y.

Definition number_div (x y : number) : number := SFdiv 53 1024 x y.

Definition Math_abs (x : number) : number := SFabs x.

(** [x < y], [x <= y] and [x === y] on numbers. *)
Definition number_lt (x y : number) : bool := SFltb x y.

Definition number_le (x y : number) : bool := SFleb x y.

Definition number_strict_eq (x y : number) : bool := SFeqb x y.

(** A number in a condition: [0], [-0] and [NaN] are falsy. *)
Definition number_truthy (x : number) : bool :=
  match x with
  | S754_zero _ | S754_nan => false
  | _ => true
  end.

(** Same representation (used where the source does not compare). *)
Definition number_same (x y : number) : bool :=
  match x, y with
  | S754_zero a, S754_zero b => Bool.eqb a b
  | S754_infinity a, S754_infinity b => Bool.eqb a b
  | S754_nan, S754_nan => true
  | S754_finite a m e, S754_finite b m' e' => Bool.eqb a b && Pos.eqb m m' && Z.eqb e e'
  | _, _ => false
  end.

Section Decimal.
Local Open Scope Z_scope.

(** The number nearest to [(-1)^neg * d * 10^e10], for a natural [d]: an
    integer is rounded directly, a proper fraction by the correctly rounded
    quotient of the two exact integers. *)
Definition decimal_value (neg : bool) (d : Z) (e10 : Z) : number :=
  match d with
  | Zpos p =>
      if 0 <=? e10
      then binary_normalize 53 1024 ((if neg then Z.opp d else d) * 10 ^ e10) 0 false
      else SFdiv 53 1024 (S754_finite neg p 0)
                         (S754_finite false (Z.to_pos (10 ^ (- e10))) 0)
  | _ => S754_zero neg
  end.

(** Value of one digit in a radix up to 36, if it is one. *)
Definition digit_in (radix : Z) (c : char) : option Z :=
  let v := if is_digit c then Z.of_N c - 48
           else if is_lower c then Z.of_N c - 87
           else if is_upper c then Z.of_N c - 55
           else 99 in
  if v <? radix then Some v else None.

(** The longest run of digits at the front of [s]: its value continuing
    [acc], how many digits it has, and what follows. *)
Fixpoint take_digits (radix : Z) (acc : Z) (n : Z) (s : str) : Z * Z * str :=
  match s with
  | c :: s' =>
      match digit_in radix c with
      | Some v => take_digits radix (acc * radix + v) (n + 1) s'
      | None => (acc, n, s)
      end
  | [] => (acc, n, s)
  end.

(** The value of a string of decimal digits. *)
Definition digits_value (s : str) : Z := fst (fst (take_digits 10 0 0 s)).

Definition is_sign (c : char) : bool := N.eqb c 43 || N.eqb c 45.

(** An ExponentPart at the front of [s], if there is one: [e] or [E], a sign
    or none, at least one digit. *)
Definition take_exponent (s : str) : Z * str :=
  match s with
  | c :: s1 =>
      if N.eqb c 101 || N.eqb c 69 then
        let '(neg, s2) :=
          match s1 with
          | c2 :: s2 => if is_sign c2 then (N.eqb c2 45, s2) else (false, s1)
          | [] => (false, s1)
          end in
        let '(v, n, s3) := take_digits 10 0 0 s2 in
        if n =? 0 then (0, s) else (if neg then - v else v, s3)
      else (0, s)
  | [] => (0, s)
  end.

(** An unsigned decimal literal at the front of [s]: digits, a fraction and
    an exponent, where [1.], [.5] and [1e3] are literals and a lone dot is
    not.  Returns the digits as an integer, the power of ten and the rest. *)
Definition take_decimal (s : str) : option (Z * Z * str) :=
  let '(i, ni, s1) := take_digits 10 0 0 s in
  let '(d, nf, s2) :=
    match s1 with
    | c :: s1' => if N.eqb c 46 then take_digits 10 i 0 s1' else (i, -1, s1)
    | [] => (i, -1, s1)
    end in
  if (ni =? 0) && (nf <=? 0) then None
  else
    let '(e, s3) := take_exponent s2 in
    Some (d, e - Z.max nf 0, s3).

Definition starts_with (p s : str) : bool := str_eqb (firstn (length p) s) p.

(** An optional sign at the front of [s]. *)
Definition take_sign (s : str) : bool * str :=
  match s with
  | c :: s' => if is_sign c then (N.eqb c 45, s') else (false, s)
  | [] => (false, s)
  end.

(** [parseFloat]: the longest decimal literal at the front of the string
    once leading white space is dropped, [NaN] when there is none. *)
Definition parseFloat (s : str) : number :=
  let '(neg, s1) := take_sign (trimStart s) in
  if starts_with (lit "Infinity") s1 then S754_infinity neg
  else
    match take_decimal s1 with
    | Some (d, e10, _) => decimal_value neg d e10
    | None => NaN
    end.

(** [parseInt] with no radix: decimal digits, or hexadecimal ones after
    [0x]; [NaN] when there is no digit. *)
Definition parseInt (s : str) : number :=
  let '(neg, s1) := take_sign (trimStart s) in
  let '(radix, s2) :=
    if starts_with (lit "0x") s1 || starts_with (lit "0X") s1
    then (16, skipn 2 s1) else (10, s1) in
  let '(v, n, _) := take_digits radix 0 0 s2 in
  if n =? 0 then NaN else decimal_value neg v 0.

(** A numeric literal of the source. *)
Definition literal (s : string) : number := parseFloat (lit s).

End Decimal.

Arguments literal s%_string.

Section ToString.
Local Open Scope Z_scope.

(** The decimal digits of a natural number. *)
Fixpoint digits_of (fuel : nat) (z : Z) (acc : str) : str :=
  match fuel with
  | O => acc
  | S f =>
      let acc' := Z.to_N (48 + z mod 10) :: acc in
      if z <? 10 then acc' else digits_of f (z / 10) acc'
  end.

Definition Z_digits (z : Z) : str := digits_of (S (Z.to_nat (Z.log2 z))) z [].

(** [m * 2^e < 10^n], on integers. *)
Definition lt_pow10 (m : positive) (e n : Z) : bool :=
  Zpos m * 2 ^ Z.max e 0 * 10 ^ Z.max (- n) 0 <? 10 ^ Z.max n 0 * 2 ^ Z.max (- e) 0.

(** The least [n] from [n0] on with [m * 2^e < 10^n]. *)
Fixpoint magnitude10 (fuel : nat) (m : positive) (e n0 : Z) : Z :=
  match fuel with
  | O => n0
  | S f => if lt_pow10 m e n0 then n0 else magnitude10 f m e (n0 + 1)
  end.

(** The digits [s] and the exponent [n] of [Number::toString] for the
    positive finite value [x = m * 2^e]: with [k] from 1 on, the [k]-digit
    decimal next below or next above [x] that reads back as [x], the nearer
    of the two (the even one on a tie) when both do. *)
Fixpoint shortest (fuel : nat) (m : positive) (e n k : Z) : Z * Z :=
  match fuel with
  | O => (0, n)
  | S f =>
      let num := Zpos m * 2 ^ Z.max e 0 * 10 ^ Z.max (k - n) 0 in
      let den := 2 ^ Z.max (- e) 0 * 10 ^ Z.max (n - k) 0 in
      let lo := num / den in
      let r := num mod den in
      let hi := lo + 1 in
      let x := S754_finite false m e in
      let ok_lo := number_same (decimal_value false lo (n - k)) x in
      let ok_hi := number_same (decimal_value false hi (n - k)) x in
      let pick (s : Z) := if s =? 10 ^ k then (1, n + 1) else (s, n) in
      if ok_lo && ok_hi then
        match 2 * r ?= den with
        | Lt => pick lo
        | Gt => pick hi
        | Eq => if Z.even lo then pick lo else pick hi
        end
      else if ok_lo then pick lo
      else if ok_hi then pick hi
      else shortest f m e n (k + 1)
  end.

Definition zeros (n : Z) : str := repeat 48%N (Z.to_nat n).

(** [Number.prototype.toString] in radix 10. *)
Definition Number_toString (x : number) : str :=
  match x with
  | S754_nan => lit "NaN"
  | S754_zero _ => lit "0"
  | S754_infinity neg => (if neg then lit "-" else []) ++ lit "Infinity"
  | S754_finite neg m e =>
      let n0 := magnitude10 640 m e (-324) in
      let '(s, n) := shortest 17 m e n0 1 in
      let ds := Z_digits s in
      let k := Z.of_nat (length ds) in
      (if neg then lit "-" else []) ++
      (if (k <=? n) && (n <=? 21) then ds ++ zeros (n - k)
       else if (0 <? n) && (n <=? 21)
         then firstn (Z.to_nat n) ds ++ lit "." ++ skipn (Z.to_nat n) ds
       else if (-6 <? n) && (n <=? 0) then lit "0." ++ zeros (- n) ++ ds
       else
         let ex := (if n - 1 <? 0 then lit "e-" else lit "e+") ++ Z_digits (Z.abs (n - 1)) in
         match ds with
         | [d] => [d] ++ ex
         | d :: rest => [d] ++ lit "." ++ rest ++ ex
         | [] => ex
         end)
  end.

End ToString.

(** ** JSON *)

Set Warnings "-register-all".

(** What [JSON.parse] returns.  An object keeps its members in source order;
    a lookup takes the last member with the key. *)
Inductive JSON : Type :=
| JNull
| JBool (b : bool)
| JNumber (n : number)
| JString (s : str)
| JArray (elements : list JSON)
| JObject (members : list (str * JSON)).

(** What a [throw] carries: an [Error] object with its message, or any
    other value. *)
Inductive thrown : Type :=
| ErrorObject (message : str)
| OtherValue.

Section JSONParse.
Local Open Scope N_scope.

(** JSON white space: tab, line feed, carriage return, space. *)
Definition is_json_ws (c : char) : bool :=
  (c =? 9) || (c =? 10) || (c =? 13) || (c =? 32).

Fixpoint skip_ws (s : str) : str :=
  match s with
  | c :: s' => if is_json_ws c then skip_ws s' else s
  | [] => []
  end.

(** Four hexadecimal digits of a [\u] escape. *)
Definition take_hex4 (s : str) : option (char * str) :=
  match s with
  | a :: b :: c :: d :: rest =>
      match digit_in 16 a, digit_in 16 b, digit_in 16 c, digit_in 16 d with
      | Some x, Some y, Some z, Some w =>
          Some (Z.to_N (((x * 16 + y) * 16 + z) * 16 + w)%Z, rest)
      | _, _, _, _ => None
      end
  | _ => None
  end.

(** The characters of a string literal after its opening quote, up to the
    closing one. *)
Fixpoint parse_string_body (fuel : nat) (s : str) : option (str * str) :=
  match fuel with
  | O => None
  | S f =>
      match s with
      | [] => None
      | 34 :: rest => Some ([], rest)
      | 92 :: e :: rest =>
          let continue (c : char) (r : str) :=
            match parse_string_body f r with
            | Some (body, r') => Some (c :: body, r')
            | None => None
            end in
          if e =? 34 then continue 34 rest
          else if e =? 92 then continue 92 rest
          else if e =? 47 then continue 47 rest
          else if e =? 98 then continue 8 rest
          else if e =? 102 then continue 12 rest
          else if e =? 110 then continue 10 rest
          else if e =? 114 then continue 13 rest
          else if e =? 116 then continue 9 rest
          else if e =? 117 then
            match take_hex4 rest with
            | Some (c, r) => continue c r
            | None => None
            end
          else None
      | c :: rest =>
          if (c <? 32) || (c =? 92) then None
          else
            match parse_string_body f rest with
            | Some (body, r') => Some (c :: body, r')
            | None => None
            end
      end
  end.

(** A JSON number at the front of [s]: a minus sign or none, [0] or digits
    not starting with [0], a fraction with digits, an exponent with
    digits. *)
Definition parse_number (s : str) : option (number * str) :=
  let '(neg, s1) :=
    match s with
    | 45 :: r => (true, r)
    | _ => (false, s)
    end in
  let '(i, ni, s2) :=
    match s1 with
    | 48 :: r => (0%Z, 1%Z, r)
    | _ => take_digits 10 0 0 s1
    end in
  if (ni =? 0)%Z then None
  else
    let '(d, nf, s3) :=
      match s2 with
      | 46 :: r =>
          let '(d, nf, r') := take_digits 10 i 0 r in
          if (nf =? 0)%Z then (i, 0%Z, s2) else (d, nf, r')
      | _ => (i, 0%Z, s2)
      end in
    let '(e, s4) := take_exponent s3 in
    Some (decimal_value neg d (e - nf), s4).

(** A JSON value at the front of [s] and what follows it.  [fuel] bounds
    the depth of the calls; the length of the text is enough. *)
Fixpoint parse_value (fuel : nat) (s : str) : option (JSON * str) :=
  match fuel with
  | O => None
  | S f =>
      match skip_ws s with
      | 110 :: 117 :: 108 :: 108 :: r => Some (JNull, r)
      | 116 :: 114 :: 117 :: 101 :: r => Some (JBool true, r)
      | 102 :: 97 :: 108 :: 115 :: 101 :: r => Some (JBool false, r)
      | 34 :: r =>
          match parse_string_body (S (length r)) r with
          | Some (body, r') => Some (JString body, r')
          | None => None
          end
      | 91 :: r =>
          match skip_ws r with
          | 93 :: r' => Some (JArray [], r')
          | _ =>
              match parse_elements f r with
              | Some (vs, r') => Some (JArray vs, r')
              | None => None
              end
          end
      | 123 :: r =>
          match skip_ws r with
          | 125 :: r' => Some (JObject [], r')
          | _ =>
              match parse_members f r with
              | Some (ms, r') => Some (JObject ms, r')
              | None => None
              end
          end
      | s1 =>
          match parse_number s1 with
          | Some (n, r) => Some (JNumber n, r)
          | None => None
          end
      end
  end
with parse_elements (fuel : nat) (s : str) : option (list JSON * str) :=
  match fuel with
  | O => None
  | S f =>
      match parse_value f s with
      | Some (v, r) =>
          match skip_ws r with
          | 44 :: r' =>
              match parse_elements f r' with
              | Some (vs, r'') => Some (v :: vs, r'')
              | None => None
              end
          | 93 :: r' => Some ([v], r')
          | _ => None
          end
      | None => None
      end
  end
with parse_members (fuel : nat) (s : str) : option (list (str * JSON) * str) :=
  match fuel with
  | O => None
  | S f =>
      match skip_ws s with
      | 34 :: r =>
          match parse_string_body (S (length r)) r with
          | Some (key, r1) =>
              match skip_ws r1 with
              | 58 :: r2 =>
                  match parse_value f r2 with
                  | Some (v, r3) =>
                      match skip_ws r3 with
                      | 44 :: r4 =>
                          match parse_members f r4 with
                          | Some (ms, r5) => Some ((key, v) :: ms, r5)
                          | None => None
                          end
                      | 125 :: r4 => Some ([(key, v)], r4)
                      | _ => None
                      end
                  | None => None
                  end
              | _ => None
              end
          | None => None
          end
      | _ => None
      end
  end.

(** [JSON.parse]: one value with nothing but white space around it, a
    [SyntaxError] otherwise (its message is the engine's own). *)
Definition JSON_parse (text : str) : thrown + JSON :=
  match parse_value (S (length text)) text with
  | Some (v, r) =>
      match skip_ws r with
      | [] => inr v
      | _ => inl (ErrorObject (lit "Unexpected token in JSON"))
      end
  | None => inl (ErrorObject (lit "Unexpected token in JSON"))
  end.

End JSONParse.

(** The value of the last member named [key]; [None] is [undefined]. *)
Fixpoint lookup (key : str) (members : list (str * JSON)) : option JSON :=
  match members with
  | [] => None
  | (k, v) :: rest =>
      match lookup key rest with
      | Some v' => Some v'
      | None => if str_eqb k key then Some v else None
      end
  end.

(** [value.key] for a key that no prototype defines: a member of an
    object, [undefined] on the other values, a [TypeError] on [null]. *)
Definition get_property (value : JSON) (key : str) : thrown + option JSON :=
  match value with
  | JNull => inl (ErrorObject (lit "Cannot read properties of null"))
  | JObject members => inr (lookup key members)
  | _ => inr None
  end.

Section Conversions.
Local Open Scope Z_scope.

(** A whole string as the digits of a prefixed integer literal. *)
Definition radix_literal (radix : Z) (digits : str) : number :=
  let '(v, n, rest) := take_digits radix 0 0 digits in
  match rest with
  | [] => if n =? 0 then NaN else decimal_value false v 0
  | _ => NaN
  end.

(** [ToNumber] of a string: empty or blank is [0]; otherwise the whole
    trimmed string must be a numeric literal. *)
Definition StringToNumber (s : str) : number :=
  let t := trim s in
  match t with
  | [] => S754_zero false
  | _ =>
      if starts_with (lit "0x") t || starts_with (lit "0X") t then radix_literal 16 (skipn 2 t)
      else if starts_with (lit "0o") t || starts_with (lit "0O") t then radix_literal 8 (skipn 2 t)
      else if starts_with (lit "0b") t || starts_with (lit "0B") t then radix_literal 2 (skipn 2 t)
      else
        let '(neg, t1) := take_sign t in
        if str_eqb t1 (lit "Infinity") then S754_infinity neg
        else
          match take_decimal t1 with
          | Some (d, e10, []) => decimal_value neg d e10
          | _ => NaN
          end
  end.

Definition join (sep : str) (parts : list str) : str :=
  match parts with
  | [] => []
  | p :: rest => p ++ flat_map (fun q => sep ++ q) rest
  end.

(** The results of steps taken one after the other: those of all of them
    when they all return, what the first one to throw has thrown
    otherwise. *)
Fixpoint all_returned {A : Type} (results : list (thrown + A)) : thrown + list A :=
  match results with
  | [] => inr []
  | inl e :: _ => inl e
  | inr a :: rest =>
      match all_returned rest with
      | inr others => inr (a :: others)
      | inl e => inl e
      end
  end.

(** The [TypeError] of [OrdinaryToPrimitive] on an object that neither
    [toString] nor [valueOf] turns into a primitive value. *)
Definition not_primitive : thrown :=
  ErrorObject (lit "Cannot convert object to primitive value").

(** [ToString] of a parsed value.  An array is joined with commas, its
    elements converted from left to right, [null] printing as the empty
    string.  An object goes through [OrdinaryToPrimitive], where [valueOf]
    is of no help: a member of that name is not callable, and the inherited
    method returns the object itself.  So the string is the one of the
    inherited [toString], unless the object has a member of its own named
    toString: that member hides the method and is not callable, and the
    conversion throws a [TypeError]. *)
Fixpoint ToString (v : JSON) : thrown + str :=
  match v with
  | JNull => inr (lit "null")
  | JBool b => inr (if b then lit "true" else lit "false")
  | JNumber n => inr (Number_toString n)
  | JString s => inr s
  | JArray elements =>
      match all_returned
              (map (fun e => match e with JNull => inr [] | _ => ToString e end) elements) with
      | inr parts => inr (join (lit ",") parts)
      | inl e => inl e
      end
  | JObject members =>
      match lookup (lit "toString") members with
      | Some _ => inl not_primitive
      | None => inr (lit "[object Object]")
      end
  end.

(** [ToNumber], as the operand of [/]; [None] is [undefined].  An array or
    an object is first turned into a primitive value, which is its string,
    and the conversion throws when that one does. *)
Definition ToNumber (v : option JSON) : thrown + number :=
  match v with
  | None => inr NaN
  | Some JNull => inr (S754_zero false)
  | Some (JBool b) => inr (if b then number_of_Z 1 else S754_zero false)
  | Some (JNumber n) => inr n
  | Some (JString s) => inr (StringToNumber s)
  | Some (JArray elements) =>
      match ToString (JArray elements) with
      | inr s => inr (StringToNumber s)
      | inl e => inl e
      end
  | Some (JObject members) =>
      match ToString (JObject members) with
      | inr s => inr (StringToNumber s)
      | inl e => inl e
      end
  end.

End Conversions.

(** ** The data of the module *)

Record EvaluationMetrics := {
  accuracy : number;
  relevancy : number;
  responseTime : number;
  cost : number;
  tokenCount : number
}.

(** [error] is [None] when the field is absent. *)
Record LLMResponse := {
  model : str;
  response : str;
  metrics : EvaluationMetrics;
  error : option str
}.

Inductive PromptType := objective | subjective.

Record PromptAnalysis := {
  type : PromptType;
  expectedAnswer : option str;
  evaluationFunction : option (str -> number)
}.

(** The [details] of a rubric result: [null], the objective record or the
    parsed scores of the judge. *)
Inductive Details : Type :=
| details_null
| details_objective (expected : option str) (receivedAnswer : str)
| details_subjective (scores : JSON).

Record RubricResult := {
  rubric_accuracy : number;
  rubric_relevancy : number;
  rubric_details : Details
}.

(** Numeric literals of the source. *)
Definition zero : number := Eval vm_compute in literal "0".
Definition one : number := Eval vm_compute in literal "1".
Definition tolerance : number := Eval vm_compute in literal "0.01".
Definition hundred : number := Eval vm_compute in literal "100".
Definition thousand : number := Eval vm_compute in literal "1000".
Definition half : number := Eval vm_compute in literal "0.5".

(** ** analyzePrompt *)

(** The scoring closure of the two counting templates. *)
Definition count_evaluation (correctCount : number) (response : str) : number :=
  match String_match digitsRegex response with
  | None => zero
  | Some numbers =>
      let answeredNumber := parseInt (nth 0 numbers []) in
      if number_strict_eq answeredNumber correctCount then one else zero
  end.

(** The scoring closure of the arithmetic template. *)
Definition math_evaluation (correctAnswer : number) (response : str) : number :=
  match String_match numberRegex response with
  | None => zero
  | Some numbers =>
      let answeredNumber := parseFloat (nth 0 numbers []) in
      if number_lt (Math_abs (number_sub answeredNumber correctAnswer)) tolerance
      then one else zero
  end.

Definition analyzePrompt (prompt : str) : PromptAnalysis :=
  match String_match letterCountRegex prompt with
  | Some letterMatch =>
      let letter := nth 1 letterMatch [] in
      let word := nth 2 letterMatch [] in
      let correctCount :=
        number_of_nat
          (length (String_match_g (new_RegExp (toLowerCase letter)) (toLowerCase word))) in
      {| type := objective;
         expectedAnswer := Some (Number_toString correctCount);
         evaluationFunction := Some (count_evaluation correctCount) |}
  | None =>
  match String_match wordCountRegex prompt with
  | Some wordMatch =>
      let phrase := nth 1 wordMatch [] in
      let correctCount := number_of_nat (length (split spacesRegex (trim phrase))) in
      {| type := objective;
         expectedAnswer := Some (Number_toString correctCount);
         evaluationFunction := Some (count_evaluation correctCount) |}
  | None =>
  match String_match mathRegex prompt with
  | Some mathMatch =>
      let num1 := nth 1 mathMatch [] in
      let operator := nth 2 mathMatch [] in
      let num2 := nth 3 mathMatch [] in
      let correctAnswer :=
        if str_eqb operator (lit "+") then number_add (parseInt num1) (parseInt num2)
        else if str_eqb operator (lit "-") then number_sub (parseInt num1) (parseInt num2)
        else if str_eqb operator (lit "*") then number_mul (parseInt num1) (parseInt num2)
        else if str_eqb operator (lit "/") then number_div (parseInt num1) (parseInt num2)
        else zero in
      {| type := objective;
         expectedAnswer := Some (Number_toString correctAnswer);
         evaluationFunction := Some (math_evaluation correctAnswer) |}
  | None =>
      {| type := subjective; expectedAnswer := None; evaluationFunction := None |}
  end end end.

(** ** The chat-completion service *)

Record ChatMessage := { role : str; content : str }.

Record ChatRequest := {
  request_model : str;
  messages : list ChatMessage;
  temperature : number;
  max_tokens : option number
}.

(** A completion as the program reads it: [choices[0]?.message?.content]
    and [usage?.total_tokens], every link of which may be missing. *)
Record ChoiceMessage := { message_content : option str }.

Record Choice := { message : option ChoiceMessage }.

Record Usage := { total_tokens : option number }.

Record ChatCompletion := { choices : list Choice; usage : option Usage }.

(** [completion.choices[0]?.message?.content] *)
Definition first_content (completion : ChatCompletion) : option str :=
  match choices completion with
  | [] => None
  | c :: _ =>
      match message c with
      | None => None
      | Some m => message_content m
      end
  end.

Definition dq : str := [34%N].

Definition nl : str := [10%N].

(** The template literal [evaluationPrompt]. *)
Definition evaluationPrompt (prompt response : str) : str :=
  nl ++ lit "Evaluate this AI response based on specific criteria. Consider:" ++ nl
  ++ nl
  ++ lit "Original Prompt: " ++ dq ++ prompt ++ dq ++ nl
  ++ lit "AI Response: " ++ dq ++ response ++ dq ++ nl
  ++ nl
  ++ lit "Score these aspects:" ++ nl
  ++ lit "1. Accuracy (0-100): How factually correct and precise is the information?" ++ nl
  ++ lit "2. Relevancy (0-100): How well does it address the specific question asked?" ++ nl
  ++ nl
  ++ lit "Return ONLY a JSON object like this:" ++ nl
  ++ lit "{" ++ nl
  ++ lit "  " ++ dq ++ lit "accuracy" ++ dq ++ lit ": 85," ++ nl
  ++ lit "  " ++ dq ++ lit "relevancy" ++ dq ++ lit ": 90," ++ nl
  ++ lit "  " ++ dq ++ lit "reasoning" ++ dq ++ lit ": " ++ dq
  ++ lit "Brief explanation of scoring" ++ dq ++ nl
  ++ lit "}".

(** The models of [evaluatePrompt], in the order of the source. *)
Definition models : list str :=
  [ lit "mixtral-8x7b-32768"; lit "gemma2-9b-it";
    lit "llama-3.3-70b-versatile"; lit "llama-3.1-8b-instant" ].

(** The [switch] of [getGroqResponse] on the model: the price of 1000
    tokens. *)
Definition costPer1kTokens (model : str) : number :=
  if str_eqb model (lit "mixtral-8x7b-32768") then literal "0.027"
  else if str_eqb model (lit "llama-3.3-70b-versatile") then literal "0.0007"
  else if str_eqb model (lit "gemma2-9b-it") then literal "0.0001"
  else if str_eqb model (lit "llama-3.1-8b-instant") then literal "0.0001"
  else literal "0.0001".

(** The request of [getGroqResponse]. *)
Definition completion_request (prompt model : str) : ChatRequest :=
  {| request_model := model;
     messages := [ {| role := lit "user"; content := prompt |} ];
     temperature := literal "0.7";
     max_tokens := Some (literal "4096") |}.

(** The request of [evaluateWithRubric] to the judge. *)
Definition judge_request (prompt response : str) : ChatRequest :=
  {| request_model := lit "mixtral-8x7b-32768";
     messages :=
       [ {| role := lit "system";
            content := lit "You are an expert evaluator. Be extremely critical and precise in your scoring." |};
         {| role := lit "user"; content := evaluationPrompt prompt response |} ];
     temperature := literal "0.1";
     max_tokens := None |}.

(** [completion.choices[0]?.message?.content || ''] *)
Definition response_text (completion : ChatCompletion) : str :=
  match first_content completion with
  | Some text => text
  | None => []
  end.

(** [evaluation.choices[0]?.message?.content?.trim() || ''] *)
Definition trimmed_content (evaluation : ChatCompletion) : str :=
  match first_content evaluation with
  | Some text => trim text
  | None => []
  end.

(** [completion.usage?.total_tokens || 0] *)
Definition token_count (completion : ChatCompletion) : number :=
  match usage completion with
  | Some u =>
      match total_tokens u with
      | Some n => if number_truthy n then n else zero
      | None => zero
      end
  | None => zero
  end.

(** The last statement of [evaluateWithRubric]. *)
Definition neutral : RubricResult :=
  {| rubric_accuracy := half; rubric_relevancy := half; rubric_details := details_null |}.

(** The [error] string of the [catch] block of [getGroqResponse]. *)
Definition error_message (error : thrown) : str :=
  match error with
  | ErrorObject message => message
  | OtherValue => lit "Unknown error"
  end.

(** ** The asynchronous functions *)

Section World.

(** The outside world: its state, the chat-completion call (which returns a
    completion or throws, and moves the world on) and the clock in
    milliseconds.  The program's logging changes nothing it returns and is
    left out. *)
Variable World : Type.
Variable groq_chat_completions_create :
  ChatRequest -> World -> (thrown + ChatCompletion) * World.
Variable Date_now : World -> Z * World.

(** A computation that reads and moves the world and returns or throws. *)
Definition M (A : Type) : Type := World -> (thrown + A) * World.

Definition ret {A : Type} (a : A) : M A := fun w => (inr a, w).

Definition throw {A : Type} (e : thrown) : M A := fun w => (inl e, w).

Definition bind {A B : Type} (c : M A) (f : A -> M B) : M B :=
  fun w =>
    match c w with
    | (inr a, w') => f a w'
    | (inl e, w') => (inl e, w')
    end.

(** [try { c } catch (e) { handler e }] *)
Definition try_catch {A : Type} (c : M A) (handler : thrown -> M A) : M A :=
  fun w =>
    match c w with
    | (inr a, w') => (inr a, w')
    | (inl e, w') => handler e w'
    end.

(** A pure step that may throw. *)
Definition lift {A : Type} (r : thrown + A) : M A := fun w => (r, w).

Definition now : M number := fun w => let '(t, w') := Date_now w in (inr (number_of_Z t), w').

Local Notation "x <- c ;; k" := (bind c (fun x => k))
  (at level 61, c at next level, right associativity).

(** The inner [try] block of [evaluateWithRubric] on the judge's text:
    [Some] when it returns, [None] when control leaves it without a
    [return].  Each step may throw: the parse, the reading of a property,
    and the conversion of its value to a number for the division. *)
Definition parse_scores (content : str) : M (option RubricResult) :=
  match String_match jsonRegex content with
  | Some jsonMatch =>
      scores <- lift (JSON_parse (nth 0 jsonMatch [])) ;;
      a <- lift (get_property scores (lit "accuracy")) ;;
      accuracy <- lift (ToNumber a) ;;
      r <- lift (get_property scores (lit "relevancy")) ;;
      relevancy <- lift (ToNumber r) ;;
      ret (Some {| rubric_accuracy := number_div accuracy hundred;
                   rubric_relevancy := number_div relevancy hundred;
                   rubric_details := details_subjective scores |})
  | None => ret None
  end.

(** The judge path of [evaluateWithRubric]: the two nested [try] blocks. *)
Definition judge (response prompt : str) : M (option RubricResult) :=
  try_catch
    (evaluation <- groq_chat_completions_create (judge_request prompt response) ;;
     let content := trimmed_content evaluation in
     try_catch (parse_scores content) (fun parseError => ret None))
    (fun error => ret None).

Definition evaluateWithRubric (response prompt : str) : M RubricResult :=
  let promptAnalysis := analyzePrompt prompt in
  match type promptAnalysis, evaluationFunction promptAnalysis with
  | objective, Some evaluate =>
      let accuracy := evaluate response in
      let relevancy :=
        match String_match digitsRegex response with
        | Some _ => one
        | None => zero
        end in
      ret {| rubric_accuracy := accuracy;
             rubric_relevancy := relevancy;
             rubric_details :=
               details_objective (expectedAnswer promptAnalysis) response |}
  | _, _ =>
      returned <- judge response prompt ;;
      match returned with
      | Some result => ret result
      | None => ret neutral
      end
  end.

Definition getGroqResponse (prompt model : str) : M LLMResponse :=
  startTime <- now ;;
  try_catch
    (completion <- groq_chat_completions_create (completion_request prompt model) ;;
     t <- now ;;
     let responseTime := number_div (number_sub t startTime) thousand in
     let response := response_text completion in
     let tokenCount := token_count completion in
     let cost := number_mul (number_div tokenCount thousand) (costPer1kTokens model) in
     evaluation <- evaluateWithRubric response prompt ;;
     ret {| model := model;
            response := response;
            metrics := {| accuracy := rubric_accuracy evaluation;
                          relevancy := rubric_relevancy evaluation;
                          responseTime := responseTime;
                          cost := cost;
                          tokenCount := tokenCount |};
            error := None |})
    (fun error =>
       t <- now ;;
       let responseTime := number_div (number_sub t startTime) thousand in
       ret {| model := model;
              response := [];
              metrics := {| accuracy := zero;
                            relevancy := zero;
                            responseTime := responseTime;
                            cost := zero;
                            tokenCount := zero |};
              error := Some (error_message error) |}).

(** [Promise.all(xs.map(f))]: the results in the order of [xs]; the first
    rejection, if any, rejects the whole.  In the source the calls overlap:
    each runs up to its first [await] before any goes on, and they go on in
    the order in which the service answers.  Here each call is run to its
    end before the next one starts.  Against a world that may answer each
    call as it likes this gives every list of results that the source can
    give, and the requests that each call makes; it does not give the order
    in which the requests of different calls reach the service. *)
Fixpoint Promise_all_map {A B : Type} (f : A -> M B) (xs : list A) : M (list B) :=
  match xs with
  | [] => ret []
  | x :: rest =>
      y <- f x ;;
      ys <- Promise_all_map f rest ;;
      ret (y :: ys)
  end.

Definition evaluatePrompt (prompt : str) : M (list LLMResponse) :=
  try_catch
    (responses <- Promise_all_map (fun model => getGroqResponse prompt model) models ;;
     ret responses)
    (fun error => throw error).

End World.

Arguments ret {World A} a.
Arguments throw {World A} e.
Arguments bind {World A B} c f.
Arguments try_catch {World A} c handler.
Arguments lift {World A} r.
Arguments now {World} Date_now.
Arguments judge {World} groq_chat_completions_create response prompt.
Arguments evaluateWithRubric {World} groq_chat_completions_create response prompt.
Arguments getGroqResponse {World} groq_chat_completions_create Date_now prompt model.
Arguments Promise_all_map {World A B} f xs.
Arguments evaluatePrompt {World} groq_chat_completions_create Date_now prompt.

(** ** The radar chart of the dashboard *)

(** [Math.max] of two numbers: [NaN] when one of them is, and [+0] above
    [-0]. *)
Definition Math_max (x y : number) : number :=
  match x, y with
  | S754_nan, _ | _, S754_nan => NaN
  | S754_zero sx, S754_zero sy => S754_zero (sx && sy)
  | _, _ => if number_lt x y then y else x
  end.

(** An entry of the data of the chart. *)
Record RadarDatum := { subject : str; value : number; fullMark : number }.

(** [getRadarData] of the [Dashboard] component: the four axes of the chart
    of one response. *)
Definition getRadarData (response : LLMResponse) : list RadarDatum :=
  [ {| subject := lit "Accuracy";
       value := number_mul (accuracy (metrics response)) (literal "100");
       fullMark := literal "100" |};
    {| subject := lit "Relevancy";
       value := number_mul (relevancy (metrics response)) (literal "100");
       fullMark := literal "100" |};
    {| subject := lit "Speed";
       value := Math_max (literal "0")
                  (number_sub (literal "100")
                     (number_mul (responseTime (metrics response)) (literal "20")));
       fullMark := literal "100" |};
    {| subject := lit "Efficiency";
       value := Math_max (literal "0")
                  (number_sub (literal "100")
                     (number_mul (cost (metrics response)) (literal "1000")));
       fullMark := literal "100" |} ].

(** * Notions for the statements *)

(** ** Results of the judge and of the dispatcher *)

(** What the inner [try] block of [evaluateWithRubric] makes of the judge's
    text, as a pure function: a result when the pattern matches, the match
    parses, both properties can be read and both values can be converted to
    numbers. *)
Definition scores_of (content : str) : option RubricResult :=
  match String_match jsonRegex content with
  | Some jsonMatch =>
      match JSON_parse (nth 0 jsonMatch []) with
      | inr scores =>
          match get_property scores (lit "accuracy"), get_property scores (lit "relevancy") with
          | inr a, inr r =>
              match ToNumber a, ToNumber r with
              | inr accuracy, inr relevancy =>
                  Some {| rubric_accuracy := number_div accuracy hundred;
                          rubric_relevancy := number_div relevancy hundred;
                          rubric_details := details_subjective scores |}
              | _, _ => None
              end
          | _, _ => None
          end
      | inl _ => None
      end
  | None => None
  end.

(** The result of the judge path for an outcome of the judge call. *)
Definition rubric_of_outcome (outcome : thrown + ChatCompletion) : RubricResult :=
  match outcome with
  | inl _ => neutral
  | inr evaluation =>
      match scores_of (trimmed_content evaluation) with
      | Some result => result
      | None => neutral
      end
  end.

(** The record of the [catch] block of [getGroqResponse]. *)
Definition failure_record (model : str) (responseTime : number) (e : thrown) : LLMResponse :=
  {| model := model;
     response := [];
     metrics := {| accuracy := zero; relevancy := zero; responseTime := responseTime;
                   cost := zero; tokenCount := zero |};
     error := Some (error_message e) |}.

(** What [getGroqResponse] reports of the outcome of its completion call:
    no [error] and the text of the completion as the response when the call
    returned, the message of the thrown value and an empty response when it
    threw. *)
Definition reports (outcome : thrown + ChatCompletion) (r : LLMResponse) : Prop :=
  match outcome with
  | inr completion => error r = None /\ response r = response_text completion
  | inl e => error r = Some (error_message e) /\ response r = []
  end.

(** Whether the numbers of a parsed value are numbers of the binary64
    format. *)
Fixpoint numbers_valid (v : JSON) : bool :=
  match v with
  | JNumber n => valid_binary 53 1024 n
  | JArray elements => forallb numbers_valid elements
  | JObject members => forallb (fun m => numbers_valid (snd m)) members
  | _ => true
  end.

(** The member [key] of a parsed value, [None] when there is none. *)
Definition member (scores : JSON) (key : str) : option JSON :=
  match get_property scores key with
  | inr v => v
  | inl _ => None
  end.

(** ** Matches *)

(** [matches r caps w caps']: the pattern [r] can consume exactly [w],
    turning the captures [caps] into [caps']. *)
Fixpoint matches (ignoreCase : bool) (r : regex) (caps : captures) (w : str) (caps' : captures) : Prop :=
  match r with
  | Empty => w = [] /\ caps' = caps
  | Char c => exists x, w = [x] /\ char_matches ignoreCase c x = true /\ caps' = caps
  | Class invert A =>
      exists x, w = [x] /\ class_matches ignoreCase invert A x = true /\ caps' = caps
  | Seq r1 r2 =>
      exists w1 w2 caps1,
        w = w1 ++ w2 /\ matches ignoreCase r1 caps w1 caps1 /\ matches ignoreCase r2 caps1 w2 caps'
  | Alt r1 r2 => matches ignoreCase r1 caps w caps' \/ matches ignoreCase r2 caps w caps'
  | Opt r1 => matches ignoreCase r1 caps w caps' \/ (w = [] /\ caps' = caps)
  | Star invert A =>
      Forall (fun x => class_matches ignoreCase invert A x = true) w /\ caps' = caps
  | Plus invert A =>
      w <> [] /\ Forall (fun x => class_matches ignoreCase invert A x = true) w /\ caps' = caps
  | Group i r1 => exists caps1, matches ignoreCase r1 caps w caps1 /\ caps' = set_capture i w caps1
  end.

(** A pattern without capturing parentheses. *)
Fixpoint no_groups (r : regex) : bool :=
  match r with
  | Seq r1 r2 | Alt r1 r2 => no_groups r1 && no_groups r2
  | Opt r1 => no_groups r1
  | Group _ _ => false
  | _ => true
  end.

(** ** Integers and counts *)

Section Integers.
Local Open Scope Z_scope.

(** The 53-bit mantissa of a positive integer below 2^53. *)
Definition mantissa_of (c : positive) : positive :=
  Z.to_pos (Zpos c * 2 ^ (53 - Zpos (digits2_pos c))).

Definition exponent_of (c : positive) : Z := Zpos (digits2_pos c) - 53.

(** The binary64 number that is the integer [(-1)^s * c]. *)
Definition integer_number (s : bool) (c : positive) : number :=
  S754_finite s (mantissa_of c) (exponent_of c).

(** The integer a number is, when it is one. *)
Definition integer_value (x : number) : option Z :=
  match x with
  | S754_zero _ => Some 0
  | S754_finite s m e =>
      if 0 <=? e then Some (cond_Zopp s (Zpos m * 2 ^ e))
      else if Zpos m mod 2 ^ (- e) =? 0 then Some (cond_Zopp s (Zpos m / 2 ^ (- e)))
      else None
  | _ => None
  end.

(** The exact result of an operator of the template on two integers; a
    quotient only when the division leaves no remainder. *)
Definition exact_result (a : Z) (operator : str) (b : Z) : option Z :=
  if str_eqb operator (lit "+") then Some (a + b)
  else if str_eqb operator (lit "-") then Some (a - b)
  else if str_eqb operator (lit "*") then Some (a * b)
  else if str_eqb operator (lit "/")
    then (if (b =? 0) || negb (a mod b =? 0) then None else Some (a / b))
  else None.

(** An integer written in decimal. *)
Definition Z_string (z : Z) : str :=
  (if z <? 0 then lit "-" else []) ++ Z_digits (Z.abs z).

End Integers.

(** The occurrences of a letter in a word, whatever the case. *)
Definition count_letter (letter : char) (word : str) : nat :=
  length (filter (fun x => N.eqb (to_lower x) (to_lower letter)) word).

(** The whitespace-separated words of a phrase: its runs of characters
    that are not white space.  [in_word] tells whether the character before
    belongs to a word. *)
Fixpoint count_words_from (in_word : bool) (s : str) : nat :=
  match s with
  | [] => 0
  | c :: rest =>
      if is_space c then count_words_from false rest
      else (if in_word then 0 else 1) + count_words_from true rest
  end.

Definition count_words (phrase : str) : nat := count_words_from false phrase.

(** Whether a string ends in white space; [b] answers for the empty
    string. *)
Fixpoint ends_in_space (b : bool) (s : str) : bool :=
  match s with
  | [] => b
  | c :: rest => ends_in_space (is_space c) rest
  end.

(** ** The claims in the words of the specification *)

(** [x] lies in the closed interval from 0 to 1. *)
Definition in_unit (x : number) : bool := number_le zero x && number_le x one.

(** The price table of the specification. *)
Definition flat_rate (name : str) : number :=
  if str_eqb name (lit "mixtral-8x7b-32768") then literal "0.027"
  else if str_eqb name (lit "llama-3.3-70b-versatile") then literal "0.0007"
  else literal "0.0001".

(** The member [key] of the parsed scores converts to a number from 0 to
    100. *)
Definition percent (scores : JSON) (key : str) : Prop :=
  exists x : number,
    ToNumber (member scores key) = inr x /\
    number_le zero x = true /\ number_le x hundred = true.

(** The first JSON object found in a text: the object that parses at the
    first opening brace where one does. *)
Fixpoint first_JSON_object (text : str) : option JSON :=
  match text with
  | [] => None
  | c :: rest =>
      match (if N.eqb c (ch "{") then parse_value (S (length text)) text else None) with
      | Some (JObject members, _) => Some (JObject members)
      | _ => first_JSON_object rest
      end
  end.

(** The batch returns one result per model, each with a response or an
    error string that is not empty. *)
Definition one_useful_result_per_model (World : Type)
  (create : ChatRequest -> World -> (thrown + ChatCompletion) * World)
  (Date_now : World -> Z * World) (prompt : str) (w : World) : Prop :=
  exists rs w',
    evaluatePrompt create Date_now prompt w = (inr rs, w') /\
    length rs = 4 /\
    Forall (fun r => response r <> [] \/ exists e, error r = Some e /\ e <> []) rs.

(** The scores of an unmatched prompt lie between 0 and 1 whatever the
    judge says. *)
Definition judged_scores_bounded (World : Type)
  (create : ChatRequest -> World -> (thrown + ChatCompletion) * World)
  (response prompt : str) (w : World) : Prop :=
  exists result w',
    evaluateWithRubric create response prompt w = (inr result, w') /\
    in_unit (rubric_accuracy result) = true /\
    in_unit (rubric_relevancy result) = true.

(** The judge path returns the scores of the first JSON object of the
    judge's text, divided by 100. *)
Definition scores_of_first_object (World : Type)
  (create : ChatRequest -> World -> (thrown + ChatCompletion) * World)
  (response prompt : str) (w : World) : Prop :=
  forall evaluation w1 scores a r,
    create (judge_request prompt response) w = (inr evaluation, w1) ->
    first_JSON_object (response_text evaluation) = Some scores ->
    ToNumber (member scores (lit "accuracy")) = inr a ->
    ToNumber (member scores (lit "relevancy")) = inr r ->
    exists result w',
      evaluateWithRubric create response prompt w = (inr result, w') /\
      rubric_accuracy result = number_div a hundred /\
      rubric_relevancy result = number_div r hundred.

(** The expected answer of a prompt that matches the arithmetic pattern
    is the exact result, where there is one. *)
Definition expected_answer_exact (prompt : str) : Prop :=
  forall mathMatch result,
    String_match mathRegex prompt = Some mathMatch ->
    exact_result (digits_value (nth 1 mathMatch [])) (nth 2 mathMatch [])
      (digits_value (nth 3 mathMatch [])) = Some result ->
    expectedAnswer (analyzePrompt prompt) = Some (Z_string result).

(** The expected answers of the counting templates as the specification
    has them: the occurrences of the letter for every prompt that matches
    the letter-count pattern, the words of the phrase for every prompt that
    matches the word-count pattern. *)
Definition expected_counts_as_claimed (prompt : str) : Prop :=
  (forall letterMatch,
     String_match letterCountRegex prompt = Some letterMatch ->
     expectedAnswer (analyzePrompt prompt) =
       Some (Number_toString
               (number_of_nat (count_letter (nth 0 (nth 1 letterMatch []) 0%N)
                                 (nth 2 letterMatch []))))) /\
  (forall wordMatch,
     String_match wordCountRegex prompt = Some wordMatch ->
     expectedAnswer (analyzePrompt prompt) =
       Some (Number_toString (number_of_nat (count_words (nth 1 wordMatch []))))).

(** The expected answer of a division by 0 as the specification has it,
    for every prompt that matches the arithmetic pattern. *)
Definition zero_divisor_as_claimed (prompt : str) : Prop :=
  forall mathMatch,
    String_match mathRegex prompt = Some mathMatch ->
    nth 2 mathMatch [] = lit "/" ->
    digits_value (nth 3 mathMatch []) = 0%Z ->
    type (analyzePrompt prompt) = objective /\
    expectedAnswer (analyzePrompt prompt) =
      Some (if (digits_value (nth 1 mathMatch []) =? 0)%Z then lit "NaN" else lit "Infinity").

(** ** Worlds to run the program in *)

(** A completion that carries one message and a token count. *)
Definition text_completion (text : str) (tokens : Z) : ChatCompletion :=
  {| choices := [ {| message := Some {| message_content := Some text |} |} ];
     usage := Some {| total_tokens := Some (number_of_Z tokens) |} |}.

(** A completion without choices and without usage. *)
Definition empty_completion : ChatCompletion := {| choices := []; usage := None |}.

(** A world that is the time in milliseconds: the service answers each
    request by [answer] and takes 1200 ms; the clock reads the time. *)
Definition service (answer : ChatRequest -> thrown + ChatCompletion)
  (request : ChatRequest) (t : Z) : (thrown + ChatCompletion) * Z :=
  (answer request, (t + 1200)%Z).

Definition clock (t : Z) : Z * Z := (t, t).

(** The judge's request is the only one with a system message. *)
Definition is_judge_request (request : ChatRequest) : bool :=
  match messages request with
  | m :: _ => str_eqb (role m) (lit "system")
  | [] => false
  end.

(** A service whose models answer [text] and whose judge answers
    [verdict]. *)
Definition answering (text verdict : str) (request : ChatRequest) : thrown + ChatCompletion :=
  if is_judge_request request then inr (text_completion verdict 40)
  else inr (text_completion text 120).

(** A model that throws an error object. *)
Definition failing (request : ChatRequest) : thrown + ChatCompletion :=
  inl (ErrorObject (lit "429 rate limit reached")).

(** A service whose completions are all empty. *)
Definition silent (request : ChatRequest) : thrown + ChatCompletion :=
  inr empty_completion.

(** Verdicts of a judge. *)
Definition verdict_85_90 : str :=
  lit "{" ++ dq ++ lit "accuracy" ++ dq ++ lit ": 85, " ++ dq ++ lit "relevancy" ++ dq
  ++ lit ": 90, " ++ dq ++ lit "reasoning" ++ dq ++ lit ": " ++ dq ++ lit "Mostly right" ++ dq
  ++ lit "}".

Definition verdict_150_90 : str :=
  lit "{" ++ dq ++ lit "accuracy" ++ dq ++ lit ": 150, " ++ dq ++ lit "relevancy" ++ dq
  ++ lit ": 90}".

Definition verdict_with_note : str :=
  lit "{" ++ dq ++ lit "accuracy" ++ dq ++ lit ": 80, " ++ dq ++ lit "relevancy" ++ dq
  ++ lit ": 90} on the scale {0..100}".

Definition verdict_fraction_and_string : str :=
  lit "{" ++ dq ++ lit "accuracy" ++ dq ++ lit ": 85.5, " ++ dq ++ lit "relevancy" ++ dq
  ++ lit ": " ++ dq ++ lit "90" ++ dq ++ lit "}".

Definition verdict_unconvertible : str :=
  lit "{" ++ dq ++ lit "accuracy" ++ dq ++ lit ": {" ++ dq ++ lit "toString" ++ dq
  ++ lit ": 0}, " ++ dq ++ lit "relevancy" ++ dq ++ lit ": 90}".

(** ** Notions for the further properties *)

(** Whether a string holds a decimal digit. *)
Definition has_digit (s : str) : bool := existsb is_digit s.

(** Scores of the objective path: 0 or 1 each, and no accuracy without
    relevancy. *)
Definition binary_scores (a r : number) : Prop :=
  (a = one \/ a = zero) /\ (r = one \/ r = zero) /\ (a = one -> r = one).

(** The service observed: the world with the requests it has received so
    far, in the order of their arrival. *)
Definition recording {World : Type}
  (create : ChatRequest -> World -> (thrown + ChatCompletion) * World)
  (request : ChatRequest) (w : World * list ChatRequest)
  : (thrown + ChatCompletion) * (World * list ChatRequest) :=
  let '(outcome, w') := create request (fst w) in (outcome, (w', snd w ++ [request])).

(** The clock beside the record of the requests. *)
Definition beside {World : Type} (Date_now : World -> Z * World)
  (w : World * list ChatRequest) : Z * (World * list ChatRequest) :=
  let '(t, w') := Date_now (fst w) in (t, (w', snd w)).

(** The judge request that follows a completion call of [getGroqResponse]:
    one when the call returned and the prompt is subjective. *)
Definition judged (prompt : str) (outcome : thrown + ChatCompletion) : list ChatRequest :=
  match outcome, type (analyzePrompt prompt) with
  | inr completion, subjective => [judge_request prompt (response_text completion)]
  | _, _ => []
  end.

(** The judge request that a result of [getGroqResponse] stands for: one
    when the result has no error and the prompt is subjective. *)
Definition judged_result (prompt : str) (r : LLMResponse) : list ChatRequest :=
  match error r, type (analyzePrompt prompt) with
  | None, subjective => [judge_request prompt (response r)]
  | _, _ => []
  end.

(** A completion without a usable token count: no [usage], no
    [total_tokens], or a falsy one. *)
Definition no_token_count (completion : ChatCompletion) : Prop :=
  match usage completion with
  | Some u =>
      match total_tokens u with
      | Some n => number_truthy n = false
      | None => True
      end
  | None => True
  end.

(** [s] holds the words [phrase], in whatever case of its ASCII letters. *)
Definition mentions (phrase : string) (s : str) : Prop :=
  exists before w after, s = before ++ w ++ after /\ map to_lower w = lit phrase.

(** The same result of a match up to the case of the letters. *)
Definition same_result (a b : option (list str)) : Prop :=
  option_map (map toLowerCase) a = option_map (map toLowerCase) b.

(** The number of decimal digits of a positive integer. *)
Definition decimal_length (c : positive) : Z := Z.of_nat (length (Z_digits (Zpos c))).

(** Whether a text starts with a decimal digit. *)
Definition starts_with_digit (s : str) : bool :=
  match s with
  | x :: _ => is_digit x
  | [] => false
  end.

(** Whether a text ends in a minus sign. *)
Fixpoint ends_with_minus (s : str) : bool :=
  match s with
  | [] => false
  | [x] => N.eqb x (ch "-")
  | _ :: rest => ends_with_minus rest
  end.

(** Whether the text after a run of digits goes on with the number: a
    further digit, or a dot and a digit. *)
Definition continues_number (s : str) : bool :=
  match s with
  | x :: rest => is_digit x || (N.eqb x (ch ".") && starts_with_digit rest)
  | [] => false
  end.

(** The dot that [/-?\d+\.?\d*/] takes after the digits. *)
Definition dot_of (after : str) : str :=
  match after with
  | x :: _ => if N.eqb x (ch ".") then [x] else []
  | [] => []
  end.

(** The count that a counting prompt expects: written as a decimal numeral,
    and compared with the first run of digits of a response, read as a
    decimal numeral. *)
Definition expects_count (prompt : str) (n : nat) : Prop :=
  expectedAnswer (analyzePrompt prompt) = Some (Z_digits (Z.of_nat n)) /\
  exists evaluate,
    evaluationFunction (analyzePrompt prompt) = Some evaluate /\
    forall (before : str) (a : Z) (after : str),
      (0 <= a)%Z -> has_digit before = false -> starts_with_digit after = false ->
      evaluate (before ++ Z_digits a ++ after) = one <-> a = Z.of_nat n.

(** The integer that an arithmetic prompt expects: written as a decimal
    numeral, and compared with the first numeral of a response, which a
    minus sign straight before the digits makes negative. *)
Definition expects_integer (prompt : str) (result : Z) : Prop :=
  expectedAnswer (analyzePrompt prompt) = Some (Z_string result) /\
  exists evaluate,
    evaluationFunction (analyzePrompt prompt) = Some evaluate /\
    forall (before : str) (a : Z) (after : str),
      (Z.abs a < 2 ^ 53)%Z -> has_digit before = false ->
      ((0 <= a)%Z -> ends_with_minus before = false) ->
      continues_number after = false ->
      evaluate (before ++ Z_string a ++ after) = one <-> a = result.

Definition is_NaN (x : number) : bool :=
  match x with
  | S754_nan => true
  | _ => false
  end.

(** A verdict of a judge that leaves the accuracy out. *)
Definition verdict_relevancy_90 : str :=
  lit "{" ++ dq ++ lit "relevancy" ++ dq ++ lit ": 90}".

(** * Lemmas *)

(** ** What a match tells about the text *)

Section Denotation.

Variable ignoreCase : bool.

Lemma consumed_app (w s' : str) : consumed (w ++ s') s' = w.
Proof.
  unfold consumed. rewrite length_app.
  replace (length w + length s' - length s') with (length w) by lia.
  rewrite firstn_app, firstn_all, Nat.sub_diag. simpl. apply app_nil_r.
Qed.

Lemma star_sound (R : Type) (cm : char -> bool) (k : str -> option R) (res : R) :
  forall s, star cm s k = Some res ->
  exists w s', s = w ++ s' /\ Forall (fun x => cm x = true) w /\ k s' = Some res.
Proof.
  induction s as [|x s IH]; simpl; intros H.
  - exists [], []. auto.
  - destruct (cm x) eqn:Hx.
    + destruct (star cm s k) as [res'|] eqn:Hstar.
      * injection H as <-. destruct (IH eq_refl) as (w & s' & -> & Hw & Hk).
        exists (x :: w), s'. auto.
      * exists [], (x :: s). auto.
    + exists [], (x :: s). auto.
Qed.

(** Whatever the matcher finds is a match. *)
Lemma run_sound (R : Type) (r : regex) :
  forall (s : str) (caps : captures) (k : str -> captures -> option R) (res : R),
  run ignoreCase r s caps k = Some res ->
  exists w s' caps', s = w ++ s' /\ matches ignoreCase r caps w caps' /\ k s' caps' = Some res.
Proof.
  induction r as [|c|invert A|r1 IH1 r2 IH2|r1 IH1 r2 IH2|r1 IH1|invert A|invert A|i r1 IH1];
    simpl; intros s caps k res H.
  - exists [], s, caps. auto.
  - destruct s as [|x s]; [discriminate|].
    destruct (char_matches ignoreCase c x) eqn:Hx; [|discriminate].
    exists [x], s, caps. split; [reflexivity|]. split; [|exact H]. exists x. auto.
  - destruct s as [|x s]; [discriminate|].
    destruct (class_matches ignoreCase invert A x) eqn:Hx; [|discriminate].
    exists [x], s, caps. split; [reflexivity|]. split; [|exact H]. exists x. auto.
  - destruct (IH1 _ _ _ _ H) as (w1 & s1 & caps1 & -> & H1 & Hk1).
    destruct (IH2 _ _ _ _ Hk1) as (w2 & s2 & caps2 & -> & H2 & Hk2).
    exists (w1 ++ w2), s2, caps2. split; [apply app_assoc|]. split; [|exact Hk2].
    exists w1, w2, caps1. auto.
  - destruct (run ignoreCase r1 s caps k) as [res'|] eqn:Hrun.
    + injection H as <-. destruct (IH1 _ _ _ _ Hrun) as (w & s' & caps' & -> & Hm & Hk).
      exists w, s', caps'. auto.
    + destruct (IH2 _ _ _ _ H) as (w & s' & caps' & -> & Hm & Hk).
      exists w, s', caps'. auto.
  - destruct (run ignoreCase r1 s caps k) as [res'|] eqn:Hrun.
    + injection H as <-. destruct (IH1 _ _ _ _ Hrun) as (w & s' & caps' & -> & Hm & Hk).
      exists w, s', caps'. auto.
    + exists [], s, caps. auto.
  - destruct (star_sound _ _ _ _ _ H) as (w & s' & -> & Hw & Hk).
    exists w, s', caps. auto.
  - destruct s as [|x s]; [discriminate|].
    destruct (class_matches ignoreCase invert A x) eqn:Hx; [|discriminate].
    destruct (star_sound _ _ _ _ _ H) as (w & s' & -> & Hw & Hk).
    exists (x :: w), s', caps. split; [reflexivity|]. split; [|exact Hk].
    split; [discriminate|]. auto.
  - destruct (IH1 _ _ _ _ H) as (w & s' & caps1 & -> & Hm & Hk).
    rewrite consumed_app in Hk.
    exists w, s', (set_capture i w caps1). split; [reflexivity|]. split; [|exact Hk].
    exists caps1. auto.
Qed.

End Denotation.

Lemma match_here_sound (re : RegExp) (s : str) (res : list str) :
  match_here re s = Some res ->
  exists w s' caps,
    s = w ++ s' /\
    matches (flag_i re) (source re) (repeat [] (ngroups (source re))) w caps /\
    res = w :: caps.
Proof.
  unfold match_here. intros H.
  destruct (run_sound _ _ _ _ _ _ _ H) as (w & s' & caps & -> & Hm & Hk).
  rewrite consumed_app in Hk. injection Hk as <-.
  exists w, s', caps. auto.
Qed.

(** A match of [String.prototype.match] is a piece of the text that the
    pattern consumes, with the captures it set. *)
Lemma String_match_sound (re : RegExp) (res : list str) :
  forall s, String_match re s = Some res ->
  exists before w after caps,
    s = before ++ w ++ after /\
    matches (flag_i re) (source re) (repeat [] (ngroups (source re))) w caps /\
    res = w :: caps.
Proof.
  induction s as [|x s IH]; simpl; intros H.
  - destruct (match_here re []) as [res'|] eqn:Hhere; [|discriminate].
    injection H as <-. destruct (match_here_sound _ _ _ Hhere) as (w & s' & caps & Hs & Hm & Hres).
    exists [], w, s', caps. auto.
  - destruct (match_here re (x :: s)) as [res'|] eqn:Hhere.
    + injection H as <-. destruct (match_here_sound _ _ _ Hhere) as (w & s' & caps & Hs & Hm & Hres).
      exists [], w, s', caps. auto.
    + destruct (IH H) as (before & w & after & caps & -> & Hm & Hres).
      exists (x :: before), w, after, caps. auto.
Qed.

(** Boolean tests on code units, as arithmetic. *)
Ltac chars_to_arith :=
  unfold is_word, is_alpha, is_digit, is_lower, is_upper, is_quote, is_operator in *;
  repeat rewrite ?orb_true_iff, ?orb_false_iff, ?andb_true_iff, ?andb_false_iff,
    ?negb_true_iff, ?negb_false_iff, ?N.leb_le, ?N.leb_gt, ?N.eqb_eq, ?N.eqb_neq in *.

Ltac case_of_letter x :=
  unfold class_matches, to_upper, to_lower; simpl xorb;
  destruct (is_lower x) eqn:?Hlower; destruct (is_upper x) eqn:?Hupper;
  intros; chars_to_arith; lia.

(** Under the [i] flag the classes of the patterns accept what they accept
    without it. *)
Lemma digit_class_i (x : char) :
  class_matches true false is_digit x = true -> is_digit x = true.
Proof. case_of_letter x. Qed.

Lemma operator_class_i (x : char) :
  class_matches true false is_operator x = true -> is_operator x = true.
Proof. case_of_letter x. Qed.

Lemma alpha_class_i (x : char) :
  class_matches true false is_alpha x = true -> is_alpha x = true.
Proof. case_of_letter x. Qed.

Lemma word_class_i (x : char) :
  class_matches true false is_word x = true -> is_word x = true.
Proof. case_of_letter x. Qed.

Lemma not_quote_class_i (x : char) :
  class_matches true true is_quote x = true -> is_quote x = false.
Proof.
  unfold class_matches.
  destruct (is_quote (to_upper x) || is_quote (to_lower x)) eqn:Hfound; [discriminate|].
  intros _. revert Hfound. unfold to_upper, to_lower.
  destruct (is_lower x) eqn:Hlower; destruct (is_upper x) eqn:Hupper;
    intros; chars_to_arith; lia.
Qed.

Section Parts.

Variable ignoreCase : bool.

Lemma matches_no_groups (r : regex) :
  no_groups r = true ->
  forall caps w caps', matches ignoreCase r caps w caps' -> caps' = caps.
Proof.
  induction r as [|c|invert A|r1 IH1 r2 IH2|r1 IH1 r2 IH2|r1 IH1|invert A|invert A|i r1 IH1];
    simpl; intros Hno caps w caps' Hm.
  - apply Hm.
  - destruct Hm as (x & _ & _ & ->). reflexivity.
  - destruct Hm as (x & _ & _ & ->). reflexivity.
  - apply andb_true_iff in Hno. destruct Hno as [Hno1 Hno2].
    destruct Hm as (w1 & w2 & caps1 & _ & Hm1 & Hm2).
    rewrite (IH2 Hno2 _ _ _ Hm2). exact (IH1 Hno1 _ _ _ Hm1).
  - apply andb_true_iff in Hno. destruct Hno as [Hno1 Hno2].
    destruct Hm as [Hm|Hm]; [exact (IH1 Hno1 _ _ _ Hm)|exact (IH2 Hno2 _ _ _ Hm)].
  - destruct Hm as [Hm|[_ ->]]; [exact (IH1 Hno _ _ _ Hm)|reflexivity].
  - apply Hm.
  - apply Hm.
  - discriminate Hno.
Qed.

(** A part without parentheses leaves the captures to the rest. *)
Lemma matches_skip (r1 r2 : regex) (caps caps' : captures) (w : str) :
  matches ignoreCase (Seq r1 r2) caps w caps' ->
  no_groups r1 = true ->
  exists w2, matches ignoreCase r2 caps w2 caps'.
Proof.
  simpl. intros (w1 & w2 & caps1 & _ & Hm1 & Hm2) Hno.
  rewrite (matches_no_groups _ Hno _ _ _ Hm1) in Hm2. exists w2. exact Hm2.
Qed.

(** A parenthesized class captures the one character it consumes. *)
Lemma matches_group_class (i : nat) (invert : bool) (A : char -> bool) (r2 : regex)
  (caps caps' : captures) (w : str) :
  matches ignoreCase (Seq (Group i (Class invert A)) r2) caps w caps' ->
  exists x w2,
    class_matches ignoreCase invert A x = true /\
    matches ignoreCase r2 (set_capture i [x] caps) w2 caps'.
Proof.
  simpl. intros (w1 & w2 & caps1 & _ & (caps0 & (x & -> & Hx & ->) & ->) & Hm2).
  exists x, w2. auto.
Qed.

(** A parenthesized repetition captures the run it consumes. *)
Lemma matches_group_plus (i : nat) (invert : bool) (A : char -> bool) (r2 : regex)
  (caps caps' : captures) (w : str) :
  matches ignoreCase (Seq (Group i (Plus invert A)) r2) caps w caps' ->
  exists w1 w2,
    w1 <> [] /\
    Forall (fun x => class_matches ignoreCase invert A x = true) w1 /\
    matches ignoreCase r2 (set_capture i w1 caps) w2 caps'.
Proof.
  simpl. intros (w1 & w2 & caps1 & _ & (caps0 & (Hne & Hall & ->) & ->) & Hm2).
  exists w1, w2. auto.
Qed.

End Parts.

(** Walk along the parts of a concrete pattern. *)
Ltac skip_part H :=
  apply matches_skip in H; [|vm_compute; reflexivity]; destruct H as (? & H).

Ltac group_class H x Hx :=
  apply matches_group_class in H; destruct H as (x & ? & Hx & H).

Ltac group_plus H w Hne Hall :=
  apply matches_group_plus in H; destruct H as (w & ? & Hne & Hall & H).

Lemma Forall_impl_bool (P Q : char -> bool) (w : str) :
  (forall x, P x = true -> Q x = true) ->
  Forall (fun x => P x = true) w -> Forall (fun x => Q x = true) w.
Proof. intros HPQ. apply Forall_impl. exact HPQ. Qed.

(** The captures of the arithmetic pattern: digits, one operator, digits. *)
Lemma mathRegex_captures (prompt : str) (mathMatch : list str) :
  String_match mathRegex prompt = Some mathMatch ->
  exists whole num1 op num2,
    mathMatch = [whole; num1; [op]; num2] /\
    num1 <> [] /\ Forall (fun x => is_digit x = true) num1 /\
    is_operator op = true /\
    num2 <> [] /\ Forall (fun x => is_digit x = true) num2.
Proof.
  intros H. apply String_match_sound in H.
  destruct H as (before & w & after & caps & _ & Hm & ->).
  unfold mathRegex, Concat in Hm. cbn [source flag_i fold_right] in Hm.
  skip_part Hm. group_plus Hm num1 Hne1 Hall1. skip_part Hm.
  group_class Hm op Hop. skip_part Hm. group_plus Hm num2 Hne2 Hall2.
  destruct Hm as [_ ->].
  exists w, num1, op, num2. split; [reflexivity|].
  repeat split; try assumption.
  - eapply Forall_impl_bool; [exact digit_class_i|eassumption].
  - apply operator_class_i. assumption.
  - eapply Forall_impl_bool; [exact digit_class_i|eassumption].
Qed.

(** The captures of the letter-count pattern: one letter and a word. *)
Lemma letterCountRegex_captures (prompt : str) (letterMatch : list str) :
  String_match letterCountRegex prompt = Some letterMatch ->
  exists whole letter word,
    letterMatch = [whole; [letter]; word] /\
    is_alpha letter = true /\
    word <> [] /\ Forall (fun x => is_word x = true) word.
Proof.
  intros H. apply String_match_sound in H.
  destruct H as (before & w & after & caps & _ & Hm & ->).
  unfold letterCountRegex, Concat in Hm. cbn [source flag_i fold_right] in Hm.
  do 6 skip_part Hm. group_class Hm letter Hletter.
  do 8 skip_part Hm. group_plus Hm word Hne Hall. skip_part Hm.
  destruct Hm as [_ ->].
  exists w, letter, word. split; [reflexivity|].
  repeat split; try assumption.
  - apply alpha_class_i. assumption.
  - eapply Forall_impl_bool; [exact word_class_i|eassumption].
Qed.

(** The capture of the word-count pattern: a phrase without quotes. *)
Lemma wordCountRegex_captures (prompt : str) (wordMatch : list str) :
  String_match wordCountRegex prompt = Some wordMatch ->
  exists whole phrase,
    wordMatch = [whole; phrase] /\
    phrase <> [] /\ Forall (fun x => is_quote x = false) phrase.
Proof.
  intros H. apply String_match_sound in H.
  destruct H as (before & w & after & caps & _ & Hm & ->).
  unfold wordCountRegex, Concat in Hm. cbn [source flag_i fold_right] in Hm.
  do 6 skip_part Hm. group_plus Hm phrase Hne Hall. skip_part Hm.
  destruct Hm as [_ ->].
  exists w, phrase. split; [reflexivity|]. split; [assumption|].
  eapply Forall_impl; [intros c Hc; apply not_quote_class_i; exact Hc|eassumption].
Qed.

(** ** Integers as numbers *)

Section SafeIntegers.
Local Open Scope Z_scope.

Lemma digits2_pos_log2 (p : positive) : Zpos (digits2_pos p) = Z.log2 (Zpos p) + 1.
Proof.
  induction p as [p IH|p IH|]; simpl; try reflexivity.
  - rewrite Pos2Z.inj_succ.
    assert (H : Zpos (Pos.size p) = Zpos (digits2_pos p)).
    { clear IH. induction p; simpl; try reflexivity; rewrite ?Pos2Z.inj_succ; congruence. }
    lia.
  - rewrite Pos2Z.inj_succ.
    assert (H : Zpos (Pos.size p) = Zpos (digits2_pos p)).
    { clear IH. induction p; simpl; try reflexivity; rewrite ?Pos2Z.inj_succ; congruence. }
    lia.
Qed.

Lemma digits2_pos_bounds (p : positive) :
  2 ^ (Zpos (digits2_pos p) - 1) <= Zpos p < 2 ^ Zpos (digits2_pos p).
Proof.
  rewrite digits2_pos_log2.
  replace (Z.log2 (Zpos p) + 1 - 1) with (Z.log2 (Zpos p)) by lia.
  replace (Z.log2 (Zpos p) + 1) with (Z.succ (Z.log2 (Zpos p))) by lia.
  apply Z.log2_spec. lia.
Qed.

Lemma digits2_pos_unique (p : positive) (d : Z) :
  2 ^ (d - 1) <= Zpos p < 2 ^ d -> Zpos (digits2_pos p) = d.
Proof.
  intros H. rewrite digits2_pos_log2.
  assert (0 < d).
  { destruct (Z.leb_spec d 0); [|lia].
    assert (2 ^ d <= 2 ^ 0) by (apply Z.pow_le_mono_r; lia). simpl in *. lia. }
  rewrite (Z.log2_unique (Zpos p) (d - 1)); try lia.
  replace (Z.succ (d - 1)) with d by lia. exact H.
Qed.

Lemma iter_pos_nat (A : Type) (f : A -> A) (n : positive) :
  forall x, iter_pos f n x = Nat.iter (Pos.to_nat n) f x.
Proof.
  induction n as [n IH|n IH|]; intros x; cbn [iter_pos].
  - rewrite !IH, Pos2Nat.inj_xI, <- Nat.iter_add, <- Nat.iter_succ_r.
    f_equal. lia.
  - rewrite !IH, Pos2Nat.inj_xO, <- Nat.iter_add. f_equal. lia.
  - reflexivity.
Qed.

Lemma shr_1_m (r : shr_record) : 0 <= shr_m r -> shr_m (shr_1 r) = shr_m r / 2.
Proof.
  destruct r as [m r s]. simpl. intros Hm.
  destruct m as [|[p|p|]|p]; simpl; try reflexivity; try lia.
  - rewrite Pos2Z.inj_xI. apply (Z.div_unique _ _ _ 1); lia.
  - rewrite Pos2Z.inj_xO. apply (Z.div_unique _ _ _ 0); lia.
Qed.

Lemma shr_m_iter (n : nat) :
  forall r, 0 <= shr_m r -> shr_m (Nat.iter n shr_1 r) = shr_m r / 2 ^ Z.of_nat n.
Proof.
  induction n as [|n IH]; intros r Hr.
  - simpl. rewrite Z.div_1_r. reflexivity.
  - rewrite Nat.iter_succ_r. rewrite IH.
    + rewrite shr_1_m by exact Hr. rewrite Nat2Z.inj_succ, Z.pow_succ_r by lia.
      rewrite Z.div_div by lia. reflexivity.
    + rewrite shr_1_m by exact Hr. apply Z.div_pos; lia.
Qed.

Lemma shr_exact_iter (n : nat) :
  forall m, 0 <= m ->
  Nat.iter n shr_1 (Build_shr_record (m * 2 ^ Z.of_nat n) false false)
    = Build_shr_record m false false.
Proof.
  induction n as [|n IH]; intros m Hm.
  - simpl. f_equal. lia.
  - rewrite Nat.iter_succ_r.
    replace (shr_1 (Build_shr_record (m * 2 ^ Z.of_nat (S n)) false false))
      with (Build_shr_record (m * 2 ^ Z.of_nat n) false false).
    + apply IH. exact Hm.
    + rewrite Nat2Z.inj_succ, Z.pow_succ_r by lia.
      assert (Hpos : 0 <= m * 2 ^ Z.of_nat n) by (apply Z.mul_nonneg_nonneg; lia).
      destruct (m * 2 ^ Z.of_nat n) as [|q|q] eqn:Hq; try lia.
      * replace (m * (2 * 2 ^ Z.of_nat n)) with 0 by lia. reflexivity.
      * replace (m * (2 * 2 ^ Z.of_nat n)) with (Zpos (xO q)) by lia. reflexivity.
Qed.

Lemma fexp_binary64 (e : Z) : fexp 53 1024 e = Z.max (e - 53) (-1074).
Proof. reflexivity. Qed.

Lemma Zdigits2_mul_pow2 (m : positive) (k : Z) :
  0 <= k -> Zdigits2 (Zpos m * 2 ^ k) = Zpos (digits2_pos m) + k.
Proof.
  intros Hk.
  assert (Hpow : 0 < 2 ^ k) by (apply Z.pow_pos_nonneg; lia).
  destruct (Zpos m * 2 ^ k) as [|q|q] eqn:Hq; try lia.
  cbn [Zdigits2]. apply digits2_pos_unique. rewrite <- Hq.
  pose proof (digits2_pos_bounds m) as [Hlo Hhi].
  replace (Zpos (digits2_pos m) + k - 1) with (Zpos (digits2_pos m) - 1 + k) by lia.
  assert (0 < Zpos (digits2_pos m)) by lia.
  rewrite !Z.pow_add_r by lia. split.
  - apply Z.mul_le_mono_nonneg_r; lia.
  - apply Z.mul_lt_mono_pos_r; lia.
Qed.

Lemma shr_exact (m : positive) (k e : Z) :
  0 <= k ->
  shr (Build_shr_record (Zpos m * 2 ^ k) false false) e k
    = (Build_shr_record (Zpos m) false false, e + k).
Proof.
  intros Hk. destruct k as [|p|p]; try lia.
  - unfold shr. rewrite Z.pow_0_r, Z.mul_1_r, Z.add_0_r. reflexivity.
  - unfold shr. rewrite iter_pos_nat.
    rewrite <- (positive_nat_Z p) at 1. rewrite shr_exact_iter by lia. reflexivity.
Qed.

(** Rounding a value that already fits: nothing is lost. *)
Lemma binary_round_aux_exact (s : bool) (m : positive) (k e : Z) :
  Zpos (digits2_pos m) = 53 -> 0 <= k -> -1074 <= e + k <= 971 ->
  binary_round_aux 53 1024 s (Zpos m * 2 ^ k) e loc_Exact = S754_finite s m (e + k).
Proof.
  intros Hd Hk He. unfold binary_round_aux, shr_fexp.
  rewrite Zdigits2_mul_pow2 by exact Hk. rewrite Hd, fexp_binary64.
  replace (Z.max (53 + k + e - 53) (-1074) - e) with k by lia.
  cbn [shr_record_of_loc]. rewrite shr_exact by exact Hk.
  cbn [shr_m loc_of_shr_record round_nearest_even Zdigits2].
  rewrite Hd, fexp_binary64.
  replace (Z.max (53 + (e + k) - 53) (-1074) - (e + k)) with 0 by lia.
  cbn [shr shr_m].
  replace (e + k <=? 1024 - 53) with true by (symmetry; apply Z.leb_le; lia).
  reflexivity.
Qed.

Lemma digits_small (c : positive) : Zpos c < 2 ^ 53 -> Zpos (digits2_pos c) <= 53.
Proof.
  intros Hc. pose proof (digits2_pos_bounds c) as [Hlo _].
  destruct (Z.leb_spec (Zpos (digits2_pos c)) 53) as [|Hgt]; [assumption|].
  assert (2 ^ 53 <= 2 ^ (Zpos (digits2_pos c) - 1)) by (apply Z.pow_le_mono_r; lia).
  lia.
Qed.

Lemma mantissa_of_value (c : positive) :
  Zpos c < 2 ^ 53 ->
  Zpos (mantissa_of c) = Zpos c * 2 ^ (53 - Zpos (digits2_pos c)).
Proof.
  intros Hc. pose proof (digits_small c Hc). unfold mantissa_of.
  rewrite Z2Pos.id; [reflexivity|].
  apply Z.mul_pos_pos; [lia|]. apply Z.pow_pos_nonneg; lia.
Qed.

Lemma mantissa_of_digits (c : positive) :
  Zpos c < 2 ^ 53 -> Zpos (digits2_pos (mantissa_of c)) = 53.
Proof.
  intros Hc. pose proof (digits_small c Hc).
  change (Zpos (digits2_pos (mantissa_of c))) with (Zdigits2 (Zpos (mantissa_of c))).
  rewrite mantissa_of_value by exact Hc.
  rewrite Zdigits2_mul_pow2 by lia. lia.
Qed.

Lemma Pos_iter_xO (m d : positive) : Zpos (Pos.iter xO m d) = Zpos m * 2 ^ Zpos d.
Proof.
  rewrite (Pos.iter_swap_gen _ _ Zpos xO (Z.mul 2)) by reflexivity.
  change (Pos.iter (Z.mul 2) (Zpos m) d) with (Z.shiftl (Zpos m) (Zpos d)).
  apply Z.shiftl_mul_pow2. lia.
Qed.

(** Rounding [M * 2^E] when it is the integer [c] below 2^53. *)
Lemma binary_round_integer (s : bool) (M c : positive) (E : Z) :
  Zpos c < 2 ^ 53 -> E <= 0 -> Zpos M = Zpos c * 2 ^ (- E) ->
  binary_round 53 1024 s M E = integer_number s c.
Proof.
  intros Hc HE HM. pose proof (digits_small c Hc) as Hd.
  assert (Hdpos : 0 < Zpos (digits2_pos c)) by lia.
  unfold binary_round.
  change (Zpos (digits2_pos M)) with (Zdigits2 (Zpos M)).
  rewrite HM, Zdigits2_mul_pow2 by lia. rewrite fexp_binary64.
  replace (Z.max (Zpos (digits2_pos c) + - E + E - 53) (-1074)) with (exponent_of c)
    by (unfold exponent_of; lia).
  unfold shl_align, integer_number.
  destruct (exponent_of c - E) as [|k|k] eqn:Hk.
  - replace (Zpos M) with (Zpos (mantissa_of c) * 2 ^ 0).
    + rewrite binary_round_aux_exact.
      * f_equal. lia.
      * apply mantissa_of_digits. exact Hc.
      * lia.
      * unfold exponent_of in *. lia.
    + rewrite mantissa_of_value, HM by exact Hc. rewrite Z.pow_0_r, Z.mul_1_r.
      f_equal. f_equal. unfold exponent_of in Hk. lia.
  - replace (Zpos M) with (Zpos (mantissa_of c) * 2 ^ Zpos k).
    + rewrite binary_round_aux_exact.
      * f_equal. lia.
      * apply mantissa_of_digits. exact Hc.
      * lia.
      * unfold exponent_of in *. lia.
    + rewrite mantissa_of_value, HM by exact Hc. rewrite <- Z.mul_assoc, <- Z.pow_add_r.
      * f_equal. f_equal. unfold exponent_of in Hk. lia.
      * lia.
      * lia.
  - replace (Zpos (Pos.iter xO M k)) with (Zpos (mantissa_of c) * 2 ^ 0).
    + rewrite binary_round_aux_exact.
      * f_equal. lia.
      * apply mantissa_of_digits. exact Hc.
      * lia.
      * unfold exponent_of in *. lia.
    + rewrite Pos_iter_xO, mantissa_of_value, HM by exact Hc.
      rewrite Z.pow_0_r, Z.mul_1_r, <- Z.mul_assoc, <- Z.pow_add_r.
      * f_equal. f_equal. unfold exponent_of in Hk. lia.
      * lia.
      * lia.
Qed.

Lemma number_of_Z_pos (c : positive) :
  Zpos c < 2 ^ 53 -> number_of_Z (Zpos c) = integer_number false c.
Proof.
  intros Hc. unfold number_of_Z, binary_normalize.
  apply binary_round_integer; [exact Hc|lia|]. simpl. lia.
Qed.

Lemma number_of_Z_neg (c : positive) :
  Zpos c < 2 ^ 53 -> number_of_Z (Zneg c) = integer_number true c.
Proof.
  intros Hc. unfold number_of_Z, binary_normalize.
  apply binary_round_integer; [exact Hc|lia|]. simpl. lia.
Qed.

Lemma binary_normalize_integer (z E : Z) :
  Z.abs z < 2 ^ 53 -> E <= 0 ->
  binary_normalize 53 1024 (z * 2 ^ (- E)) E false = number_of_Z z.
Proof.
  intros Hz HE.
  assert (Hpow : 0 < 2 ^ (- E)) by (apply Z.pow_pos_nonneg; lia).
  destruct z as [|c|c].
  - reflexivity.
  - destruct (Zpos c * 2 ^ (- E)) as [|M|M] eqn:HM; try lia.
    rewrite number_of_Z_pos by lia. unfold binary_normalize.
    apply binary_round_integer; [lia|exact HE|]. symmetry. exact HM.
  - destruct (Zneg c * 2 ^ (- E)) as [|M|M] eqn:HM; try lia.
    rewrite number_of_Z_neg by lia. unfold binary_normalize.
    apply binary_round_integer; [lia|exact HE|].
    change (Zneg c) with (- Zpos c) in HM. rewrite Z.mul_opp_l in HM. lia.
Qed.

Lemma shl_align_fst (mx : positive) (ex ez : Z) :
  ez <= ex -> Zpos (fst (shl_align mx ex ez)) = Zpos mx * 2 ^ (ex - ez).
Proof.
  intros Hle. unfold shl_align.
  destruct (ez - ex) as [|d|d] eqn:Hd; try lia.
  - replace (ex - ez) with 0 by lia. cbn [fst]. lia.
  - cbn [fst]. rewrite Pos_iter_xO. f_equal. f_equal. lia.
Qed.

Lemma exponent_of_nonpos (c : positive) : Zpos c < 2 ^ 53 -> exponent_of c <= 0.
Proof. intros Hc. pose proof (digits_small c Hc). unfold exponent_of. lia. Qed.

(** An aligned mantissa is the integer scaled to the common exponent. *)
Lemma aligned_integer (c : positive) (ez : Z) :
  Zpos c < 2 ^ 53 -> ez <= exponent_of c ->
  Zpos (fst (shl_align (mantissa_of c) (exponent_of c) ez)) = Zpos c * 2 ^ (- ez).
Proof.
  intros Hc Hez. pose proof (exponent_of_nonpos c Hc) as He.
  rewrite shl_align_fst by exact Hez. rewrite mantissa_of_value by exact Hc.
  rewrite <- Z.mul_assoc, <- Z.pow_add_r.
  - f_equal. f_equal. unfold exponent_of. lia.
  - unfold exponent_of in *. lia.
  - lia.
Qed.

Lemma cond_Zopp_mul (s : bool) (x y : Z) : cond_Zopp s (x * y) = cond_Zopp s x * y.
Proof. destruct s; simpl; lia. Qed.

Lemma SFadd_integers (sa sb : bool) (a b : positive) :
  Zpos a < 2 ^ 53 -> Zpos b < 2 ^ 53 ->
  Z.abs (cond_Zopp sa (Zpos a) + cond_Zopp sb (Zpos b)) < 2 ^ 53 ->
  SFadd 53 1024 (integer_number sa a) (integer_number sb b)
    = number_of_Z (cond_Zopp sa (Zpos a) + cond_Zopp sb (Zpos b)).
Proof.
  intros Ha Hb Hsum. unfold SFadd, integer_number.
  pose proof (exponent_of_nonpos a Ha). pose proof (exponent_of_nonpos b Hb).
  rewrite !aligned_integer by (assumption || lia).
  rewrite !cond_Zopp_mul, <- Z.mul_add_distr_r.
  apply binary_normalize_integer; [exact Hsum|lia].
Qed.

Lemma SFsub_integers (sa sb : bool) (a b : positive) :
  Zpos a < 2 ^ 53 -> Zpos b < 2 ^ 53 ->
  Z.abs (cond_Zopp sa (Zpos a) - cond_Zopp sb (Zpos b)) < 2 ^ 53 ->
  SFsub 53 1024 (integer_number sa a) (integer_number sb b)
    = number_of_Z (cond_Zopp sa (Zpos a) - cond_Zopp sb (Zpos b)).
Proof.
  intros Ha Hb Hsum. unfold SFsub, integer_number.
  pose proof (exponent_of_nonpos a Ha). pose proof (exponent_of_nonpos b Hb).
  rewrite !aligned_integer by (assumption || lia).
  rewrite !cond_Zopp_mul, <- Z.mul_sub_distr_r.
  apply binary_normalize_integer; [exact Hsum|lia].
Qed.

Lemma digits_mul_lower (a b : positive) :
  Zpos (digits2_pos a) + Zpos (digits2_pos b) - 1 <= Zpos (digits2_pos (a * b)).
Proof.
  pose proof (digits2_pos_bounds a) as [Ha _].
  pose proof (digits2_pos_bounds b) as [Hb _].
  pose proof (digits2_pos_bounds (a * b)) as [_ Hc].
  assert (Hlow : 2 ^ (Zpos (digits2_pos a) - 1 + (Zpos (digits2_pos b) - 1)) <= Zpos (a * b)).
  { rewrite Z.pow_add_r by lia. rewrite Pos2Z.inj_mul.
    apply Z.mul_le_mono_nonneg; try assumption; apply Z.pow_nonneg; lia. }
  assert (Hlt : 2 ^ (Zpos (digits2_pos a) - 1 + (Zpos (digits2_pos b) - 1))
                < 2 ^ Zpos (digits2_pos (a * b))) by lia.
  apply Z.pow_lt_mono_r_iff in Hlt; lia.
Qed.

Lemma SFmul_integers (sa sb : bool) (a b : positive) :
  Zpos (a * b) < 2 ^ 53 ->
  SFmul 53 1024 (integer_number sa a) (integer_number sb b)
    = integer_number (xorb sa sb) (a * b).
Proof.
  intros Hab.
  assert (Ha : Zpos a < 2 ^ 53) by (rewrite Pos2Z.inj_mul in Hab; nia).
  assert (Hb : Zpos b < 2 ^ 53) by (rewrite Pos2Z.inj_mul in Hab; nia).
  pose proof (digits_small a Ha). pose proof (digits_small b Hb).
  pose proof (digits_small (a * b) Hab). pose proof (digits_mul_lower a b).
  unfold SFmul, integer_number.
  replace (Zpos (mantissa_of a * mantissa_of b))
    with (Zpos (mantissa_of (a * b))
          * 2 ^ (exponent_of (a * b) - (exponent_of a + exponent_of b))).
  - rewrite binary_round_aux_exact.
    + f_equal. lia.
    + apply mantissa_of_digits. exact Hab.
    + unfold exponent_of. lia.
    + unfold exponent_of. lia.
  - rewrite Pos2Z.inj_mul, !mantissa_of_value by assumption.
    rewrite <- Z.mul_assoc, <- Z.pow_add_r by (unfold exponent_of; lia).
    rewrite Pos2Z.inj_mul.
    replace (Zpos a * 2 ^ (53 - Zpos (digits2_pos a)) * (Zpos b * 2 ^ (53 - Zpos (digits2_pos b))))
      with (Zpos a * Zpos b * (2 ^ (53 - Zpos (digits2_pos a)) * 2 ^ (53 - Zpos (digits2_pos b))))
      by ring.
    rewrite <- Z.pow_add_r by lia. f_equal. f_equal. unfold exponent_of. lia.
Qed.

Lemma shr_m_of_loc (m : Z) (l : location) : shr_m (shr_record_of_loc m l) = m.
Proof. destruct l as [|[]]; reflexivity. Qed.

Lemma Zdigits2_bounds (m : Z) : 0 < m -> 2 ^ (Zdigits2 m - 1) <= m /\ 0 < Zdigits2 m.
Proof.
  destruct m as [|p|p]; try lia. intros _. cbn [Zdigits2].
  pose proof (digits2_pos_bounds p). lia.
Qed.

(** The first rounding step keeps a positive mantissa positive when the
    exponent is no less than the least one. *)
Lemma shr_fexp_positive (m e : Z) (l : location) :
  0 < m -> -1074 <= e ->
  0 < shr_m (fst (shr_fexp 53 1024 m e l)) /\
  e <= snd (shr_fexp 53 1024 m e l) /\
  fexp 53 1024 (Zdigits2 m + e) <= snd (shr_fexp 53 1024 m e l).
Proof.
  intros Hm He. destruct (Zdigits2_bounds m Hm) as [Hlow Hd].
  unfold shr_fexp, shr. rewrite fexp_binary64.
  destruct (Z.max (Zdigits2 m + e - 53) (-1074) - e) as [|p|p] eqn:Hn; cbn [fst snd].
  - rewrite shr_m_of_loc. lia.
  - rewrite iter_pos_nat, shr_m_iter by (rewrite shr_m_of_loc; lia).
    rewrite shr_m_of_loc, positive_nat_Z. split; [|lia].
    assert (Hle : 2 ^ Zpos p <= m).
    { apply Z.le_trans with (2 ^ (Zdigits2 m - 1)); [|exact Hlow].
      apply Z.pow_le_mono_r; lia. }
    assert (Hpow : 0 < 2 ^ Zpos p) by (apply Z.pow_pos_nonneg; lia).
    apply Z.div_str_pos. lia.
  - rewrite shr_m_of_loc. lia.
Qed.

Lemma round_nearest_even_ge (m : Z) (l : location) : m <= round_nearest_even m l.
Proof. destruct l as [|[]]; simpl; try lia. destruct (Z.even m); lia. Qed.

(** Rounding a positive mantissa at an exponent no less than the least one
    gives a finite number of the same sign, or the infinity of that sign. *)
Lemma binary_round_aux_positive (s : bool) (M : positive) (E : Z) :
  -1074 <= E ->
  (exists m e,
     binary_round_aux 53 1024 s (Zpos M) E loc_Exact = S754_finite s m e /\
     E <= e /\ fexp 53 1024 (Zpos (digits2_pos M) + E) <= e) \/
  binary_round_aux 53 1024 s (Zpos M) E loc_Exact = S754_infinity s.
Proof.
  intros HE. unfold binary_round_aux.
  pose proof (shr_fexp_positive (Zpos M) E loc_Exact eq_refl HE) as (Hm1 & He1 & Hf1).
  cbn [Zdigits2] in Hf1.
  destruct (shr_fexp 53 1024 (Zpos M) E loc_Exact) as [r1 e1]. cbn [fst snd] in *.
  pose proof (round_nearest_even_ge (shr_m r1) (loc_of_shr_record r1)) as Hround.
  set (m1 := round_nearest_even (shr_m r1) (loc_of_shr_record r1)) in *.
  assert (Hm1' : 0 < m1) by lia.
  assert (He1' : -1074 <= e1) by lia.
  pose proof (shr_fexp_positive m1 e1 loc_Exact Hm1' He1') as (Hm2 & He2 & _).
  destruct (shr_fexp 53 1024 m1 e1 loc_Exact) as [r2 e2]. cbn [fst snd] in *.
  destruct (shr_m r2) as [|m|m]; try lia.
  destruct (e2 <=? 1024 - 53).
  - left. exists m, e2. split; [reflexivity|]. lia.
  - right. reflexivity.
Qed.

(** An integer from 2^53 on rounds to a number with a positive exponent, or
    to infinity. *)
Lemma number_of_Z_large (c : positive) :
  2 ^ 53 <= Zpos c ->
  (exists m e, number_of_Z (Zpos c) = S754_finite false m e /\ 1 <= e) \/
  number_of_Z (Zpos c) = S754_infinity false.
Proof.
  intros Hc. pose proof (digits2_pos_bounds c) as [_ Hhi].
  assert (Hd : 54 <= Zpos (digits2_pos c)).
  { destruct (Z.leb_spec 54 (Zpos (digits2_pos c))) as [|Hlt]; [assumption|].
    assert (2 ^ Zpos (digits2_pos c) <= 2 ^ 53) by (apply Z.pow_le_mono_r; lia). lia. }
  unfold number_of_Z, binary_normalize, binary_round, shl_align.
  rewrite fexp_binary64.
  destruct (Z.max (Zpos (digits2_pos c) + 0 - 53) (-1074) - 0) as [|k|k] eqn:Hk; try lia.
  destruct (binary_round_aux_positive false c 0) as [(m & e & Hr & _ & He)|Hr]; [lia| |].
  - left. exists m, e. split; [exact Hr|]. rewrite fexp_binary64 in He. lia.
  - right. exact Hr.
Qed.

Lemma integer_value_integer_number (s : bool) (c : positive) :
  Zpos c < 2 ^ 53 -> integer_value (integer_number s c) = Some (cond_Zopp s (Zpos c)).
Proof.
  intros Hc. pose proof (exponent_of_nonpos c Hc) as He.
  unfold integer_value, integer_number. rewrite mantissa_of_value by exact Hc.
  replace (53 - Zpos (digits2_pos c)) with (- exponent_of c) by (unfold exponent_of; lia).
  destruct (Z.leb_spec 0 (exponent_of c)) as [H0|Hneg].
  - replace (exponent_of c) with 0 by lia. simpl. do 2 f_equal. lia.
  - assert (Hpow : 0 < 2 ^ (- exponent_of c)) by (apply Z.pow_pos_nonneg; lia).
    rewrite Z.mod_mul by lia. rewrite Z.eqb_refl. rewrite Z.div_mul by lia. reflexivity.
Qed.

(** Integers below 2^53 in magnitude are numbers, exactly. *)
Lemma integer_value_number_of_Z (z : Z) :
  Z.abs z < 2 ^ 53 -> integer_value (number_of_Z z) = Some z.
Proof.
  intros Hz. destruct z as [|c|c].
  - reflexivity.
  - rewrite number_of_Z_pos by lia. apply integer_value_integer_number. lia.
  - rewrite number_of_Z_neg by lia. rewrite integer_value_integer_number by lia. reflexivity.
Qed.

Lemma number_of_Z_integer (z : Z) :
  Z.abs z < 2 ^ 53 ->
  number_of_Z z =
  match z with
  | Z0 => S754_zero false
  | Zpos c => integer_number false c
  | Zneg c => integer_number true c
  end.
Proof.
  intros Hz. destruct z as [|c|c].
  - reflexivity.
  - apply number_of_Z_pos. lia.
  - apply number_of_Z_neg. lia.
Qed.

(** Sums, differences and products of naturals are exact while the
    operands and the result stay below 2^53. *)
Lemma number_add_exact (a b : Z) :
  0 <= a -> 0 <= b -> a + b < 2 ^ 53 ->
  number_add (number_of_Z a) (number_of_Z b) = number_of_Z (a + b).
Proof.
  intros Ha Hb Hsum. unfold number_add.
  destruct a as [|a|a]; try lia; destruct b as [|b|b]; try lia.
  - reflexivity.
  - rewrite Z.add_0_l, number_of_Z_pos by lia. reflexivity.
  - rewrite Z.add_0_r, number_of_Z_pos by lia. reflexivity.
  - rewrite (number_of_Z_pos a), (number_of_Z_pos b) by lia.
    apply (SFadd_integers false false); cbn [cond_Zopp]; lia.
Qed.

Lemma number_sub_exact (a b : Z) :
  0 <= a < 2 ^ 53 -> 0 <= b < 2 ^ 53 ->
  number_sub (number_of_Z a) (number_of_Z b) = number_of_Z (a - b).
Proof.
  intros Ha Hb. unfold number_sub.
  destruct a as [|a|a]; try lia; destruct b as [|b|b]; try lia.
  - reflexivity.
  - rewrite Z.sub_0_l. cbn [Z.opp]. rewrite number_of_Z_pos, number_of_Z_neg by lia. reflexivity.
  - rewrite Z.sub_0_r, number_of_Z_pos by lia. reflexivity.
  - rewrite (number_of_Z_pos a), (number_of_Z_pos b) by lia.
    apply (SFsub_integers false false); cbn [cond_Zopp]; lia.
Qed.

Lemma number_mul_exact (a b : Z) :
  0 <= a < 2 ^ 53 -> 0 <= b < 2 ^ 53 -> a * b < 2 ^ 53 ->
  number_mul (number_of_Z a) (number_of_Z b) = number_of_Z (a * b).
Proof.
  intros Ha Hb Hprod. unfold number_mul.
  destruct a as [|a|a]; try lia; destruct b as [|b|b]; try lia.
  - reflexivity.
  - rewrite Z.mul_0_l, number_of_Z_pos by lia. reflexivity.
  - rewrite Z.mul_0_r, number_of_Z_pos by lia. reflexivity.
  - assert (Hab : Zpos (a * b) < 2 ^ 53) by (rewrite Pos2Z.inj_mul; exact Hprod).
    rewrite (number_of_Z_pos a), (number_of_Z_pos b) by lia.
    rewrite SFmul_integers by exact Hab. simpl xorb.
    change (Zpos a * Zpos b) with (Zpos (a * b)).
    rewrite number_of_Z_pos by exact Hab. reflexivity.
Qed.

(** A quotient without remainder of two integers below 2^53 is computed
    exactly: the scaled mantissas divide without remainder, and the quotient
    is rounded as an integer of at most 53 bits. *)
Lemma digits_div_lower (a b q : positive) :
  Zpos a = Zpos q * Zpos b ->
  Zpos (digits2_pos a) <= Zpos (digits2_pos q) + Zpos (digits2_pos b).
Proof.
  intros Hq.
  pose proof (digits2_pos_bounds a) as [Ha _].
  pose proof (digits2_pos_bounds b) as [_ Hb].
  pose proof (digits2_pos_bounds q) as [_ Hq'].
  assert (Hlt : Zpos a < 2 ^ (Zpos (digits2_pos q) + Zpos (digits2_pos b))).
  { rewrite Z.pow_add_r by lia. rewrite Hq. apply Z.mul_lt_mono_nonneg; lia. }
  assert (Hpow : 2 ^ (Zpos (digits2_pos a) - 1) < 2 ^ (Zpos (digits2_pos q) + Zpos (digits2_pos b)))
    by lia.
  apply Z.pow_lt_mono_r_iff in Hpow; lia.
Qed.

Lemma SFdiv_integers (sa sb : bool) (a b q : positive) :
  Zpos a < 2 ^ 53 -> Zpos b < 2 ^ 53 -> Zpos a = Zpos q * Zpos b ->
  SFdiv 53 1024 (integer_number sa a) (integer_number sb b)
    = integer_number (xorb sa sb) q.
Proof.
  intros Ha Hb Hq.
  assert (Hq53 : Zpos q < 2 ^ 53) by nia.
  pose proof (digits_small a Ha) as Hda. pose proof (digits_small b Hb) as Hdb.
  pose proof (digits_small q Hq53) as Hdq. pose proof (digits_div_lower a b q Hq) as Hdig.
  assert (0 < Zpos (digits2_pos a)) by lia. assert (0 < Zpos (digits2_pos b)) by lia.
  assert (0 < Zpos (digits2_pos q)) by lia.
  unfold SFdiv, integer_number, SFdiv_core_binary. cbn [Zdigits2].
  rewrite !mantissa_of_digits by assumption. rewrite fexp_binary64.
  replace (Z.min (Z.max (53 + exponent_of a - (53 + exponent_of b) - 53) (-1074))
             (exponent_of a - exponent_of b))
    with (exponent_of a - exponent_of b - 53) by (unfold exponent_of; lia).
  replace (exponent_of a - exponent_of b - (exponent_of a - exponent_of b - 53)) with 53 by lia.
  rewrite Z.shiftl_mul_pow2 by lia.
  set (k := Zpos (digits2_pos q) - exponent_of a + exponent_of b).
  assert (Hk : 0 <= k) by (unfold k, exponent_of; lia).
  assert (Hscaled : Zpos (mantissa_of a) * 2 ^ 53
                    = Zpos (mantissa_of q) * 2 ^ k * Zpos (mantissa_of b)).
  { rewrite !mantissa_of_value by assumption. rewrite Hq.
    replace (Zpos q * Zpos b * 2 ^ (53 - Zpos (digits2_pos a)) * 2 ^ 53)
      with (Zpos q * Zpos b * (2 ^ (53 - Zpos (digits2_pos a)) * 2 ^ 53)) by ring.
    replace (Zpos q * 2 ^ (53 - Zpos (digits2_pos q)) * 2 ^ k
             * (Zpos b * 2 ^ (53 - Zpos (digits2_pos b))))
      with (Zpos q * Zpos b
            * (2 ^ (53 - Zpos (digits2_pos q)) * 2 ^ k * 2 ^ (53 - Zpos (digits2_pos b))))
      by ring.
    rewrite <- !Z.pow_add_r by lia. f_equal. f_equal. unfold k, exponent_of. lia. }
  rewrite Hscaled.
  pose proof (Z.div_mul (Zpos (mantissa_of q) * 2 ^ k) (Zpos (mantissa_of b)) ltac:(lia)) as Hdiv.
  pose proof (Z.mod_mul (Zpos (mantissa_of q) * 2 ^ k) (Zpos (mantissa_of b)) ltac:(lia)) as Hmod.
  unfold Z.div, Z.modulo in Hdiv, Hmod.
  destruct (Z.div_eucl (Zpos (mantissa_of q) * 2 ^ k * Zpos (mantissa_of b))
              (Zpos (mantissa_of b))) as [quotient remainder].
  cbn [fst snd] in Hdiv, Hmod. subst quotient remainder.
  replace (new_location (Zpos (mantissa_of b)) 0) with loc_Exact
    by (unfold new_location, new_location_even, new_location_odd;
        destruct (Z.even (Zpos (mantissa_of b))); reflexivity).
  rewrite binary_round_aux_exact.
  - f_equal. unfold k, exponent_of. lia.
  - apply mantissa_of_digits. exact Hq53.
  - exact Hk.
  - unfold k, exponent_of. lia.
Qed.

Lemma number_div_exact (a b : Z) :
  0 <= a < 2 ^ 53 -> 0 < b < 2 ^ 53 -> a mod b = 0 ->
  number_div (number_of_Z a) (number_of_Z b) = number_of_Z (a / b).
Proof.
  intros Ha Hb Hmod. unfold number_div.
  destruct b as [|b|b]; try lia.
  rewrite (number_of_Z_pos b) by lia.
  destruct a as [|a|a]; try lia.
  - reflexivity.
  - assert (Hquot : Zpos a = Zpos a / Zpos b * Zpos b).
    { rewrite Z.mul_comm. apply Z.div_exact; lia. }
    destruct (Zpos a / Zpos b) as [|q|q] eqn:Hq; try lia.
    rewrite (number_of_Z_pos a), (number_of_Z_pos q) by nia.
    apply (SFdiv_integers false false); lia.
Qed.

Lemma digit_in_digit (c : char) :
  is_digit c = true ->
  digit_in 10 c = Some (Z.of_N c - 48) /\ 0 <= Z.of_N c - 48 < 10.
Proof.
  intros Hc. unfold digit_in. rewrite Hc.
  unfold is_digit in Hc. apply andb_true_iff in Hc. destruct Hc as [Hlo Hhi].
  apply N.leb_le in Hlo. apply N.leb_le in Hhi.
  replace (Z.of_N c - 48 <? 10) with true by (symmetry; apply Z.ltb_lt; lia).
  split; [reflexivity|lia].
Qed.

Lemma take_digits_all (s : str) :
  Forall (fun x => is_digit x = true) s ->
  forall acc n, 0 <= acc ->
  exists v, take_digits 10 acc n s = (v, n + Z.of_nat (length s), []) /\ 0 <= v.
Proof.
  induction 1 as [|c s Hc Hs IH]; intros acc n Hacc.
  - exists acc. simpl. rewrite Z.add_0_r. auto.
  - destruct (digit_in_digit c Hc) as [Hd Hrange].
    cbn [take_digits]. rewrite Hd.
    destruct (IH (acc * 10 + (Z.of_N c - 48)) (n + 1)) as (v & Hv & Hpos); [lia|].
    exists v. rewrite Hv. split; [|exact Hpos].
    f_equal. f_equal. cbn [length]. lia.
Qed.

Lemma digit_not_space (c : char) : is_digit c = true -> is_space c = false.
Proof.
  unfold is_digit, is_space. intros Hc. apply andb_true_iff in Hc.
  destruct Hc as [Hlo Hhi]. apply N.leb_le in Hlo. apply N.leb_le in Hhi.
  repeat rewrite ?orb_false_iff, ?andb_false_iff, ?N.leb_gt, ?N.eqb_neq.
  lia.
Qed.

Lemma digit_not_sign (c : char) : is_digit c = true -> is_sign c = false.
Proof.
  unfold is_digit, is_sign. intros Hc. apply andb_true_iff in Hc.
  destruct Hc as [Hlo Hhi]. apply N.leb_le in Hlo. apply N.leb_le in Hhi.
  rewrite orb_false_iff, !N.eqb_neq. lia.
Qed.

Lemma str_eqb_eq (a b : str) : str_eqb a b = true <-> a = b.
Proof.
  unfold str_eqb. destruct (list_eq_dec N.eq_dec a b); split; congruence.
Qed.

Lemma digits_no_prefix (s : str) (x : char) :
  Forall (fun c => is_digit c = true) s -> is_digit x = false ->
  starts_with [48%N; x] s = false.
Proof.
  intros Hs Hx. destruct (starts_with [48%N; x] s) eqn:Hstart; [|reflexivity].
  unfold starts_with in Hstart. apply str_eqb_eq in Hstart.
  destruct s as [|a [|b s]]; try discriminate Hstart.
  cbn [length firstn] in Hstart. injection Hstart as _ Hb. subst b.
  apply Forall_inv_tail, Forall_inv in Hs. congruence.
Qed.

(** [parseInt] of a run of decimal digits is the number nearest to the
    integer they write. *)
Lemma parseInt_digits (s : str) :
  s <> [] -> Forall (fun x => is_digit x = true) s ->
  parseInt s = number_of_Z (digits_value s) /\ 0 <= digits_value s.
Proof.
  intros Hne Hs. destruct s as [|c s]; [contradiction|].
  pose proof (Forall_inv Hs) as Hc. cbn beta in Hc.
  unfold parseInt, digits_value.
  cbn [trimStart]. rewrite (digit_not_space c Hc).
  cbn [take_sign]. rewrite (digit_not_sign c Hc).
  change (lit "0x") with [48%N; 120%N]. change (lit "0X") with [48%N; 88%N].
  rewrite !digits_no_prefix by (assumption || reflexivity). cbn [orb].
  destruct (take_digits_all _ Hs 0 0) as (v & Hv & Hpos); [lia|].
  rewrite Hv. cbn [fst].
  replace (0 + Z.of_nat (length (c :: s)) =? 0) with false
    by (symmetry; apply Z.eqb_neq; cbn [length]; lia).
  split; [|exact Hpos].
  unfold decimal_value, number_of_Z. destruct v as [|p|p]; try lia.
  - reflexivity.
  - cbn [Z.leb Z.compare]. rewrite Z.pow_0_r, Z.mul_1_r. reflexivity.
Qed.

Lemma SFeqb_integer_number (a b : positive) :
  Zpos a < 2 ^ 53 -> Zpos b < 2 ^ 53 ->
  SFeqb (integer_number false a) (integer_number false b) = true -> a = b.
Proof.
  intros Ha Hb. unfold SFeqb, SFcompare, integer_number.
  destruct (exponent_of a ?= exponent_of b) eqn:He; try discriminate.
  destruct (Pos.compare_cont Eq (mantissa_of a) (mantissa_of b)) eqn:Hm; try discriminate.
  intros _. apply Z.compare_eq in He. apply Pos.compare_eq in Hm.
  assert (Hz : Zpos (mantissa_of a) = Zpos (mantissa_of b)) by congruence.
  rewrite !mantissa_of_value in Hz by assumption.
  unfold exponent_of in He.
  replace (Zpos (digits2_pos b)) with (Zpos (digits2_pos a)) in Hz by lia.
  pose proof (digits_small a Ha).
  assert (Hpow : 0 < 2 ^ (53 - Zpos (digits2_pos a))) by (apply Z.pow_pos_nonneg; lia).
  apply Z.mul_reg_r in Hz; [|lia]. congruence.
Qed.

Lemma SFeqb_finite_refl (s : bool) (m : positive) (e : Z) :
  SFeqb (S754_finite s m e) (S754_finite s m e) = true.
Proof.
  unfold SFeqb, SFcompare. rewrite Z.compare_refl.
  change (Pos.compare_cont Eq m m) with (m ?= m)%positive. rewrite Pos.compare_refl.
  destruct s; reflexivity.
Qed.

(** [===] on the naturals below 2^53: the first integer of a response, as
    [parseInt] reads it, equals a count exactly when the two integers are
    the same. *)
Lemma strict_eq_integers (v n : Z) :
  0 <= v -> 0 <= n < 2 ^ 53 ->
  number_strict_eq (number_of_Z v) (number_of_Z n) = true <-> v = n.
Proof.
  intros Hv Hn. unfold number_strict_eq. split.
  - intros Heq.
    assert (Hcase : v < 2 ^ 53 \/ 2 ^ 53 <= v) by lia. destruct Hcase as [Hsmall|Hlarge].
    + rewrite (number_of_Z_integer v), (number_of_Z_integer n) in Heq by lia.
      destruct v as [|a|a]; try lia; destruct n as [|b|b]; try lia; try discriminate Heq.
      f_equal. apply SFeqb_integer_number; (lia || exact Heq).
    + exfalso. destruct v as [|a|a]; try lia.
      rewrite (number_of_Z_integer n) in Heq by lia.
      destruct (number_of_Z_large a Hlarge) as [(m & e & Hr & He)|Hr]; rewrite Hr in Heq.
      * destruct n as [|b|b]; try lia; try discriminate Heq.
        pose proof (exponent_of_nonpos b ltac:(lia)) as Hb.
        unfold SFeqb, SFcompare, integer_number in Heq.
        replace (e ?= exponent_of b) with Gt in Heq by (symmetry; apply Z.compare_gt_iff; lia).
        discriminate Heq.
      * destruct n as [|b|b]; try lia; discriminate Heq.
  - intros ->. rewrite (number_of_Z_integer n) by lia.
    destruct n as [|b|b]; try lia; [reflexivity|apply SFeqb_finite_refl].
Qed.

End SafeIntegers.

(** ** Numbers of the format *)

Section Rounding.
Local Open Scope Z_scope.

Lemma Zdigits2_nonneg (m : Z) : 0 <= Zdigits2 m.
Proof. destruct m; cbn [Zdigits2]; lia. Qed.

Lemma Zdigits2_upper (m : Z) : 0 <= m -> m < 2 ^ Zdigits2 m.
Proof.
  destruct m as [|p|p]; intros Hm; try lia.
  - reflexivity.
  - cbn [Zdigits2]. apply digits2_pos_bounds.
Qed.

Lemma Zdigits2_unique (m d : Z) : 2 ^ (d - 1) <= m < 2 ^ d -> 0 < m -> Zdigits2 m = d.
Proof.
  intros Hd Hm. destruct m as [|p|p]; try lia. cbn [Zdigits2].
  apply digits2_pos_unique. exact Hd.
Qed.

Lemma pow2_lt_exponent (a b : Z) : 0 <= b -> 2 ^ a < 2 ^ b -> a < b.
Proof. intros Hb H. apply (Z.pow_lt_mono_r_iff 2); [lia|exact Hb|exact H]. Qed.

(** The digits of a mantissa that loses its [n] lowest bits. *)
Lemma Zdigits2_div_pow2 (m n : Z) :
  0 <= n -> 2 ^ n <= m -> Zdigits2 (m / 2 ^ n) = Zdigits2 m - n.
Proof.
  intros Hn Hm.
  assert (Hpow : 0 < 2 ^ n) by (apply Z.pow_pos_nonneg; lia).
  assert (Hpos : 0 < m) by lia.
  destruct (Zdigits2_bounds m Hpos) as [Hlo Hd].
  pose proof (Zdigits2_upper m ltac:(lia)) as Hhi.
  assert (Hnd : n < Zdigits2 m).
  { apply pow2_lt_exponent; [lia|]. lia. }
  apply Zdigits2_unique.
  - split.
    + apply Z.div_le_lower_bound; [lia|].
      rewrite <- Z.pow_add_r by lia.
      replace (n + (Zdigits2 m - n - 1)) with (Zdigits2 m - 1) by lia. exact Hlo.
    + apply Z.div_lt_upper_bound; [lia|].
      rewrite <- Z.pow_add_r by lia.
      replace (n + (Zdigits2 m - n)) with (Zdigits2 m) by lia. exact Hhi.
  - apply Z.div_str_pos. lia.
Qed.

Lemma round_nearest_even_cases (m : Z) (l : location) :
  m <= round_nearest_even m l <= m + 1.
Proof. destruct l as [|[]]; simpl; try lia. destruct (Z.even m); lia. Qed.

(** The first step of a rounding: the mantissa loses the bits below the
    exponent of the format, and nothing else when they are all 0. *)
Lemma shr_fexp_truncates (mz ez : Z) (lz : location) :
  0 <= mz -> ez <= fexp 53 1024 (Zdigits2 mz + ez) ->
  snd (shr_fexp 53 1024 mz ez lz) = fexp 53 1024 (Zdigits2 mz + ez) /\
  shr_m (fst (shr_fexp 53 1024 mz ez lz))
    = mz / 2 ^ (fexp 53 1024 (Zdigits2 mz + ez) - ez) /\
  (lz = loc_Exact -> mz mod 2 ^ (fexp 53 1024 (Zdigits2 mz + ez) - ez) = 0 ->
   loc_of_shr_record (fst (shr_fexp 53 1024 mz ez lz)) = loc_Exact).
Proof.
  intros Hm He. unfold shr_fexp, shr.
  destruct (fexp 53 1024 (Zdigits2 mz + ez) - ez) as [|p|p] eqn:Hn; cbn [fst snd]; try lia.
  - rewrite shr_m_of_loc, Z.pow_0_r, Z.div_1_r. split; [lia|]. split; [reflexivity|].
    intros -> _. reflexivity.
  - rewrite iter_pos_nat, shr_m_iter by (rewrite shr_m_of_loc; exact Hm).
    rewrite shr_m_of_loc, positive_nat_Z. split; [lia|]. split; [reflexivity|].
    intros -> Hmod. cbn [shr_record_of_loc].
    assert (Hpow : 0 < 2 ^ Zpos p) by (apply Z.pow_pos_nonneg; lia).
    rewrite (Z.div_mod mz (2 ^ Zpos p)) by lia. rewrite Hmod, Z.add_0_r, Z.mul_comm.
    rewrite <- (positive_nat_Z p) at 2.
    rewrite shr_exact_iter by (apply Z.div_pos; lia). reflexivity.
Qed.

(** The mantissa that the first step leaves fits the format. *)
Lemma truncated_fits (mz ez : Z) :
  0 <= mz -> ez <= fexp 53 1024 (Zdigits2 mz + ez) ->
  0 <= mz / 2 ^ (fexp 53 1024 (Zdigits2 mz + ez) - ez) < 2 ^ 53 /\
  (2 ^ 52 <= mz / 2 ^ (fexp 53 1024 (Zdigits2 mz + ez) - ez) \/
   fexp 53 1024 (Zdigits2 mz + ez) = -1074).
Proof.
  intros Hm He. rewrite fexp_binary64 in *.
  pose proof (Zdigits2_upper mz Hm) as Hhi.
  pose proof (Zdigits2_nonneg mz) as Hd.
  assert (Hzero : mz = 0 -> Zdigits2 mz = 0) by (intros ->; reflexivity).
  assert (Hlow : 0 < mz -> 2 ^ (Zdigits2 mz - 1) <= mz) by (intros H; apply Zdigits2_bounds; exact H).
  remember (Zdigits2 mz) as d eqn:Hddef.
  remember (Z.max (d + ez - 53) (-1074)) as e1 eqn:He1.
  assert (Hn : 0 <= e1 - ez) by lia.
  assert (Hpow : 0 < 2 ^ (e1 - ez)) by (apply Z.pow_pos_nonneg; lia).
  destruct (Z.lt_ge_cases mz (2 ^ (e1 - ez))) as [Hsmall|Hlarge].
  - rewrite Z.div_small by lia. split; [lia|]. right.
    destruct (Z.eq_dec mz 0) as [Heq|Hne].
    + specialize (Hzero Heq). lia.
    + specialize (Hlow ltac:(lia)).
      assert (d - 1 < e1 - ez) by (apply pow2_lt_exponent; lia). lia.
  - pose proof (Zdigits2_div_pow2 mz (e1 - ez) Hn Hlarge) as Hdigits. rewrite <- Hddef in Hdigits.
    assert (Hq : 0 < mz / 2 ^ (e1 - ez)) by (apply Z.div_str_pos; lia).
    destruct (Zdigits2_bounds _ Hq) as [Hlo _].
    pose proof (Zdigits2_upper (mz / 2 ^ (e1 - ez)) (Z.lt_le_incl _ _ Hq)) as Hup.
    rewrite Hdigits in Hlo, Hup.
    assert (Hle : 2 ^ (d - (e1 - ez)) <= 2 ^ 53) by (apply Z.pow_le_mono_r; lia).
    split; [lia|].
    destruct (Z.eq_dec e1 (-1074)) as [|Hne]; [right; assumption|left].
    replace (d - (e1 - ez) - 1) with 52 in Hlo by lia. exact Hlo.
Qed.

(** The second step of a rounding: nothing happens, but for a mantissa that
    the rounding has carried to 2^53. *)
Lemma shr_fexp_settles (m1 e1 : Z) :
  -1074 <= e1 ->
  (0 <= m1 < 2 ^ 53 /\ (2 ^ 52 <= m1 \/ e1 = -1074)) \/ m1 = 2 ^ 53 ->
  (m1 = 0 /\ shr_m (fst (shr_fexp 53 1024 m1 e1 loc_Exact)) = 0) \/
  exists m : positive,
    shr_m (fst (shr_fexp 53 1024 m1 e1 loc_Exact)) = Zpos m /\
    e1 <= snd (shr_fexp 53 1024 m1 e1 loc_Exact) /\
    Zpos m * 2 ^ (snd (shr_fexp 53 1024 m1 e1 loc_Exact) - e1) = m1 /\
    canonical_mantissa 53 1024 m (snd (shr_fexp 53 1024 m1 e1 loc_Exact)) = true.
Proof.
  intros He [[[Hlo Hhi] Hshape]| ->].
  - destruct m1 as [|p|p]; try lia.
    + left. split; [reflexivity|]. unfold shr_fexp, shr. cbn [Zdigits2].
      rewrite fexp_binary64.
      destruct (Z.max (0 + e1 - 53) (-1074) - e1) as [|q|q] eqn:Hn; try lia; reflexivity.
    + right. exists p.
      pose proof (digits_small p Hhi) as Hd.
      pose proof (digits2_pos_bounds p) as [Hdlo Hdhi].
      assert (Hfexp : fexp 53 1024 (Zpos (digits2_pos p) + e1) = e1).
      { rewrite fexp_binary64. destruct Hshape as [Hnormal| ->]; [|lia].
        assert (52 < Zpos (digits2_pos p)) by (apply pow2_lt_exponent; lia). lia. }
      unfold shr_fexp, shr. cbn [Zdigits2]. rewrite Hfexp, Z.sub_diag. cbn [fst snd shr_m shr_record_of_loc].
      rewrite Z.sub_diag, Z.pow_0_r, Z.mul_1_r. split; [reflexivity|]. split; [lia|].
      split; [reflexivity|]. unfold canonical_mantissa. rewrite Hfexp. apply Z.eqb_refl.
  - right. exists 4503599627370496%positive.
    assert (Hshift : shr_fexp 53 1024 (2 ^ 53) e1 loc_Exact
                     = (Build_shr_record (Zpos 4503599627370496) false false, e1 + 1)).
    { unfold shr_fexp. change (Zdigits2 (2 ^ 53)) with 54. rewrite fexp_binary64.
      replace (Z.max (54 + e1 - 53) (-1074) - e1) with 1 by lia.
      cbn [shr_record_of_loc].
      change (2 ^ 53) with (Zpos 4503599627370496 * 2 ^ 1).
      apply shr_exact. lia. }
    rewrite Hshift. cbn [fst snd shr_m]. split; [reflexivity|]. split; [lia|].
    replace (e1 + 1 - e1) with 1 by lia. split; [reflexivity|].
    unfold canonical_mantissa. change (Zpos (digits2_pos 4503599627370496)) with 53.
    rewrite fexp_binary64. apply Z.eqb_eq. lia.
Qed.

(** What a rounding returns, for a natural mantissa that reaches below the
    exponent of the format: zero, or a number in canonical form (an infinity
    when its exponent is too large) whose mantissa is the truncated one or
    the next. *)
Lemma binary_round_aux_spec (sx : bool) (mz ez : Z) (lz : location) :
  0 <= mz -> ez <= fexp 53 1024 (Zdigits2 mz + ez) ->
  exists m1,
    mz / 2 ^ (fexp 53 1024 (Zdigits2 mz + ez) - ez) <= m1
      <= mz / 2 ^ (fexp 53 1024 (Zdigits2 mz + ez) - ez) + 1 /\
    (lz = loc_Exact -> mz mod 2 ^ (fexp 53 1024 (Zdigits2 mz + ez) - ez) = 0 ->
     m1 = mz / 2 ^ (fexp 53 1024 (Zdigits2 mz + ez) - ez)) /\
    ((m1 = 0 /\ binary_round_aux 53 1024 sx mz ez lz = S754_zero sx) \/
     exists (m : positive) (e : Z),
       fexp 53 1024 (Zdigits2 mz + ez) <= e /\
       Zpos m * 2 ^ (e - fexp 53 1024 (Zdigits2 mz + ez)) = m1 /\
       canonical_mantissa 53 1024 m e = true /\
       binary_round_aux 53 1024 sx mz ez lz =
         if e <=? 1024 - 53 then S754_finite sx m e else S754_infinity sx).
Proof.
  intros Hm He.
  destruct (shr_fexp_truncates mz ez lz Hm He) as (He1 & Hm1 & Hexact).
  destruct (truncated_fits mz ez Hm He) as (Hfits & Hshape).
  unfold binary_round_aux.
  destruct (shr_fexp 53 1024 mz ez lz) as [r1 e1]. cbn [fst snd] in He1, Hm1, Hexact.
  subst e1. set (e1 := fexp 53 1024 (Zdigits2 mz + ez)) in *.
  set (mt := mz / 2 ^ (e1 - ez)) in *.
  pose proof (round_nearest_even_cases (shr_m r1) (loc_of_shr_record r1)) as Hround.
  set (m1 := round_nearest_even (shr_m r1) (loc_of_shr_record r1)) in *.
  rewrite Hm1 in Hround.
  exists m1. split; [exact Hround|]. split.
  { intros Hl Hmod. unfold m1. rewrite (Hexact Hl Hmod). exact Hm1. }
  assert (Hmin : -1074 <= e1) by (unfold e1; rewrite fexp_binary64; lia).
  destruct (shr_fexp_settles m1 e1 Hmin ltac:(lia)) as [[Hzero Hshr]|(m & Hshr & Hle & Hvalue & Hcanonical)].
  - left. split; [exact Hzero|].
    destruct (shr_fexp 53 1024 m1 e1 loc_Exact) as [r2 e2]. cbn [fst] in Hshr.
    rewrite Hshr. reflexivity.
  - right. destruct (shr_fexp 53 1024 m1 e1 loc_Exact) as [r2 e2]. cbn [fst snd] in *.
    exists m, e2. split; [exact Hle|]. split; [exact Hvalue|]. split; [exact Hcanonical|].
    rewrite Hshr. reflexivity.
Qed.

(** A rounding returns a number of the format. *)
Lemma binary_round_aux_valid (sx : bool) (mz ez : Z) (lz : location) :
  0 <= mz -> ez <= fexp 53 1024 (Zdigits2 mz + ez) ->
  valid_binary 53 1024 (binary_round_aux 53 1024 sx mz ez lz) = true.
Proof.
  intros Hm He.
  destruct (binary_round_aux_spec sx mz ez lz Hm He)
    as (m1 & _ & _ & [[_ ->]|(m & e & _ & _ & Hcanonical & ->)]); [reflexivity|].
  destruct (e <=? 1024 - 53) eqn:Hle; [|reflexivity].
  cbn [valid_binary]. unfold bounded. rewrite Hcanonical, Hle. reflexivity.
Qed.

(** A rounding of a value that is at most 1 is at most 1, and not below
    0. *)
Lemma binary_round_aux_in_unit (mz ez : Z) (lz : location) :
  0 <= mz -> ez <= fexp 53 1024 (Zdigits2 mz + ez) ->
  ez <= 0 -> mz <= 2 ^ (- ez) -> (lz <> loc_Exact -> mz < 2 ^ (- ez)) ->
  in_unit (binary_round_aux 53 1024 false mz ez lz) = true.
Proof.
  intros Hm He Hez Hbound Hstrict.
  destruct (binary_round_aux_spec false mz ez lz Hm He)
    as (m1 & Hround & Hexact & Hresult).
  set (e1 := fexp 53 1024 (Zdigits2 mz + ez)) in *.
  assert (He1 : e1 <= -52).
  { unfold e1. rewrite fexp_binary64.
    assert (Zdigits2 mz <= - ez + 1); [|lia].
    destruct (Z.eq_dec mz 0) as [->|Hne]; [cbn [Zdigits2]; lia|].
    destruct (Zdigits2_bounds mz ltac:(lia)) as [Hlo _].
    assert (Zdigits2 mz - 1 < - ez + 1); [|lia].
    apply pow2_lt_exponent; [lia|]. rewrite Z.pow_add_r by lia. lia. }
  assert (Hn : 0 <= e1 - ez) by lia.
  assert (Hpow : 0 < 2 ^ (e1 - ez)) by (apply Z.pow_pos_nonneg; lia).
  assert (Hsplit : 2 ^ (- ez) = 2 ^ (- e1) * 2 ^ (e1 - ez)).
  { rewrite <- Z.pow_add_r by lia. f_equal. lia. }
  assert (Hm1 : m1 <= 2 ^ (- e1)).
  { assert (Hmt : mz / 2 ^ (e1 - ez) <= 2 ^ (- e1)).
    { apply Z.div_le_upper_bound; [lia|]. rewrite Z.mul_comm, <- Hsplit. exact Hbound. }
    destruct (Z.eq_dec (mz / 2 ^ (e1 - ez)) (2 ^ (- e1))) as [Heq|Hne]; [|lia].
    assert (Hfull : mz = 2 ^ (- ez)).
    { pose proof (Z.mul_div_le mz (2 ^ (e1 - ez)) Hpow) as Hdown.
      rewrite Heq, Z.mul_comm, <- Hsplit in Hdown. lia. }
    rewrite Hexact.
    - lia.
    - destruct lz as [|c]; [reflexivity|]. specialize (Hstrict ltac:(discriminate)). lia.
    - rewrite Hfull, Hsplit. apply Z.mod_mul. lia. }
  destruct Hresult as [[_ ->]|(m & e & Hle & Hvalue & Hcanonical & ->)]; [reflexivity|].
  assert (Hpow' : 0 < 2 ^ (e - e1)) by (apply Z.pow_pos_nonneg; lia).
  assert (He0 : e <= 0).
  { destruct (Z.le_gt_cases e 0) as [|Hgt]; [assumption|exfalso].
    assert (2 ^ (- e1) < 2 ^ (e - e1)) by (apply Z.pow_lt_mono_r; lia). nia. }
  assert (Hm' : Zpos m <= 2 ^ (- e)).
  { assert (Hsplit' : 2 ^ (- e1) = 2 ^ (- e) * 2 ^ (e - e1)).
    { rewrite <- Z.pow_add_r by lia. f_equal. lia. }
    rewrite Hsplit' in Hm1. rewrite <- Hvalue in Hm1.
    apply Z.mul_le_mono_pos_r in Hm1; [exact Hm1|exact Hpow']. }
  unfold canonical_mantissa in Hcanonical. rewrite fexp_binary64 in Hcanonical.
  apply Z.eqb_eq in Hcanonical.
  pose proof (digits2_pos_bounds m) as [Hdlo Hdhi].
  assert (He52 : e <= -52).
  { destruct (Z.le_gt_cases e (-52)) as [|Hgt]; [assumption|exfalso].
    assert (Hd : Zpos (digits2_pos m) = 53) by lia. rewrite Hd in Hdlo.
    assert (2 ^ (- e) <= 2 ^ 51) by (apply Z.pow_le_mono_r; lia).
    change (2 ^ (53 - 1)) with (2 * 2 ^ 51) in Hdlo. lia. }
  replace (e <=? 1024 - 53) with true by (symmetry; apply Z.leb_le; lia).
  unfold in_unit, number_le, SFleb, zero, one. cbn [SFcompare andb].
  destruct (Z.compare_spec e (-52)) as [->|Hlt|Hgt]; [|reflexivity|lia].
  change (2 ^ (- -52)) with (Zpos 4503599627370496) in Hm'.
  rewrite Pos.compare_cont_spec. cbn [Pos.switch_Eq].
  destruct (Pos.compare_spec m 4503599627370496) as [|Hc|Hc]; try reflexivity. lia.
Qed.

End Rounding.

Section Division.
Local Open Scope Z_scope.

Lemma fexp_monotone (a b : Z) : a <= b -> fexp 53 1024 a <= fexp 53 1024 b.
Proof. intros Hab. rewrite !fexp_binary64. lia. Qed.

Lemma new_location_exact (m r : Z) : new_location m r <> loc_Exact -> r <> 0.
Proof.
  intros Hl ->. apply Hl. unfold new_location, new_location_even, new_location_odd.
  destruct (Z.even m); reflexivity.
Qed.

(** The quotient that a division hands to the rounding: the integer
    quotient of the dividend, shifted left, by the divisor, at an exponent
    that leaves it digits enough. *)
Lemma SFdiv_core_binary_spec (m1 m2 : positive) (e1 e2 : Z) (q e' : Z) (l : location) :
  SFdiv_core_binary 53 1024 (Zpos m1) e1 (Zpos m2) e2 = (q, e', l) ->
  e' = Z.min (fexp 53 1024 (Zpos (digits2_pos m1) + e1 - (Zpos (digits2_pos m2) + e2)))
         (e1 - e2) /\
  0 <= q /\
  q * Zpos m2 <= Zpos m1 * 2 ^ (e1 - e2 - e') < (q + 1) * Zpos m2 /\
  (l <> loc_Exact -> q * Zpos m2 < Zpos m1 * 2 ^ (e1 - e2 - e')) /\
  e' <= fexp 53 1024 (Zdigits2 q + e').
Proof.
  unfold SFdiv_core_binary. cbn [Zdigits2].
  set (e0 := Z.min (fexp 53 1024 (Zpos (digits2_pos m1) + e1 - (Zpos (digits2_pos m2) + e2)))
               (e1 - e2)).
  assert (Hs : 0 <= e1 - e2 - e0) by (unfold e0; lia).
  assert (Hshift : match e1 - e2 - e0 with
                   | Zpos _ => Z.shiftl (Zpos m1) (e1 - e2 - e0)
                   | 0 => Zpos m1
                   | Zneg _ => 0
                   end = Zpos m1 * 2 ^ (e1 - e2 - e0)).
  { destruct (e1 - e2 - e0) as [|p|p] eqn:Hp; try lia.
    apply Z.shiftl_mul_pow2. lia. }
  rewrite Hshift.
  assert (Hpow : 0 < 2 ^ (e1 - e2 - e0)) by (apply Z.pow_pos_nonneg; lia).
  pose proof (Z_div_mod (Zpos m1 * 2 ^ (e1 - e2 - e0)) (Zpos m2) ltac:(lia)) as Hdiv.
  destruct (Z.div_eucl (Zpos m1 * 2 ^ (e1 - e2 - e0)) (Zpos m2)) as [q0 r0].
  destruct Hdiv as [Hdiv Hr]. intros H. injection H as <- <- <-.
  assert (Hq : 0 <= q0) by nia.
  split; [reflexivity|]. split; [exact Hq|]. split; [nia|]. split.
  { intros Hl. apply new_location_exact in Hl. nia. }
  pose proof (digits2_pos_bounds m1) as [Hlo1 Hhi1].
  pose proof (digits2_pos_bounds m2) as [Hlo2 Hhi2].
  set (d1 := Zpos (digits2_pos m1)) in *. set (d2 := Zpos (digits2_pos m2)) in *.
  assert (Hd1 : 0 < d1) by (unfold d1; lia). assert (Hd2 : 0 < d2) by (unfold d2; lia).
  assert (Hlow : 2 ^ (d1 - 1 + (e1 - e2 - e0)) <= Zpos m1 * 2 ^ (e1 - e2 - e0)).
  { rewrite Z.pow_add_r by lia. apply Z.mul_le_mono_nonneg_r; lia. }
  assert (He0 : e0 <= fexp 53 1024 (d1 + e1 - (d2 + e2))) by (unfold e0; lia).
  pose proof (Zdigits2_upper q0 Hq) as Hqhi.
  pose proof (Zdigits2_nonneg q0) as Hqd.
  assert (Hdigits : d1 + (e1 - e2 - e0) - d2 <= Zdigits2 q0 \/ (q0 = 0 /\ d1 + (e1 - e2 - e0) <= d2)).
  { destruct (Z.eq_dec q0 0) as [->|Hne].
    - right. split; [reflexivity|].
      assert (d1 - 1 + (e1 - e2 - e0) < d2); [|lia].
      apply pow2_lt_exponent; [lia|]. lia.
    - left.
      assert (Hprod : (q0 + 1) * Zpos m2 <= 2 ^ Zdigits2 q0 * 2 ^ d2).
      { apply Z.mul_le_mono_nonneg; lia. }
      rewrite <- Z.pow_add_r in Hprod by lia.
      assert (d1 - 1 + (e1 - e2 - e0) < Zdigits2 q0 + d2); [|lia].
      apply pow2_lt_exponent; [lia|]. lia. }
  destruct Hdigits as [Hdigits|[-> Hdigits]].
  - apply Z.le_trans with (1 := He0). apply fexp_monotone. lia.
  - cbn [Zdigits2]. rewrite fexp_binary64 in *. lia.
Qed.

(** A quotient is a number of the format. *)
Lemma SFdiv_valid (x y : number) : valid_binary 53 1024 (SFdiv 53 1024 x y) = true.
Proof.
  destruct x as [sx|sx| |sx mx ex]; destruct y as [sy|sy| |sy my ey]; try reflexivity.
  unfold SFdiv.
  destruct (SFdiv_core_binary 53 1024 (Zpos mx) ex (Zpos my) ey) as [[q e'] l] eqn:Hcore.
  destruct (SFdiv_core_binary_spec _ _ _ _ _ _ _ Hcore) as (_ & Hq & _ & _ & He).
  apply binary_round_aux_valid; assumption.
Qed.

(** A number of the format from 0 to 100, divided by 100, lies between 0
    and 1. *)
Lemma percent_in_unit (x : number) :
  valid_binary 53 1024 x = true ->
  number_le zero x = true -> number_le x hundred = true ->
  in_unit (number_div x hundred) = true.
Proof.
  intros Hvalid Hlow Hhigh. destruct x as [s|s| |s m e].
  - destruct s; reflexivity.
  - destruct s; discriminate.
  - discriminate.
  - destruct s; [discriminate Hlow|]. clear Hlow.
    cbn [valid_binary] in Hvalid. unfold bounded in Hvalid.
    apply andb_true_iff in Hvalid. destruct Hvalid as [Hcanonical _].
    unfold canonical_mantissa in Hcanonical. apply Z.eqb_eq in Hcanonical.
    rewrite fexp_binary64 in Hcanonical.
    pose proof (digits2_pos_bounds m) as [Hdlo Hdhi].
    assert (Hm53 : Zpos m < 2 ^ 53).
    { apply Z.lt_le_trans with (1 := Hdhi). apply Z.pow_le_mono_r; lia. }
    assert (Hvalue : e <= -46 /\ Zpos m <= 7036874417766400 * 2 ^ (- e - 46)).
    { unfold number_le, SFleb, hundred in Hhigh. cbn [SFcompare] in Hhigh.
      destruct (Z.compare_spec e (-46)) as [->|Hlt|Hgt]; [| |discriminate Hhigh].
      - split; [lia|]. change (2 ^ (- -46 - 46)) with 1. rewrite Z.mul_1_r.
        assert (Hle : (m <= 7036874417766400)%positive).
        { unfold Pos.le. intros Hgt.
          rewrite Pos.compare_cont_spec, Hgt in Hhigh. discriminate Hhigh. }
        exact (Pos2Z.pos_le_pos _ _ Hle).
      - split; [lia|].
        assert (2 ^ 1 <= 2 ^ (- e - 46)) by (apply Z.pow_le_mono_r; lia). lia. }
    destruct Hvalue as [He Hvalue].
    unfold number_div, hundred, SFdiv. cbn [xorb].
    destruct (SFdiv_core_binary 53 1024 (Zpos m) e (Zpos 7036874417766400) (-46))
      as [[q e'] l] eqn:Hcore.
    destruct (SFdiv_core_binary_spec _ _ _ _ _ _ _ Hcore) as (He' & Hq & Hquot & Hinexact & Hfexp).
    change (Zpos (digits2_pos 7036874417766400)) with 53 in He'.
    rewrite fexp_binary64 in He'.
    assert (He0 : e' <= 0) by lia.
    assert (Hs : 0 <= e - -46 - e') by lia.
    assert (Hbound : Zpos m * 2 ^ (e - -46 - e') <= 7036874417766400 * 2 ^ (- e')).
    { replace (- e') with ((- e - 46) + (e - -46 - e')) by lia.
      rewrite Z.pow_add_r by lia. rewrite Z.mul_assoc.
      apply Z.mul_le_mono_nonneg_r; [|exact Hvalue].
      apply Z.pow_nonneg. lia. }
    assert (Hpow : 0 < 2 ^ (- e')) by (apply Z.pow_pos_nonneg; lia).
    apply binary_round_aux_in_unit; try assumption.
    + nia.
    + intros Hl. specialize (Hinexact Hl). nia.
Qed.

(** Rounding an integer mantissa at an exponent gives a number of the
    format. *)
Lemma binary_round_valid (s : bool) (m : positive) (e : Z) :
  valid_binary 53 1024 (binary_round 53 1024 s m e) = true.
Proof.
  unfold binary_round, shl_align.
  destruct (fexp 53 1024 (Zpos (digits2_pos m) + e) - e) as [|p|p] eqn:Hn.
  - apply binary_round_aux_valid; [lia|]. cbn [Zdigits2]. lia.
  - apply binary_round_aux_valid; [lia|]. cbn [Zdigits2]. lia.
  - apply binary_round_aux_valid; [lia|].
    rewrite Pos_iter_xO, Zdigits2_mul_pow2 by lia.
    replace (Zpos (digits2_pos m) + Zpos p + fexp 53 1024 (Zpos (digits2_pos m) + e))
      with (Zpos (digits2_pos m) + e) by lia.
    lia.
Qed.

Lemma binary_normalize_valid (z e : Z) (s : bool) :
  valid_binary 53 1024 (binary_normalize 53 1024 z e s) = true.
Proof. destruct z; [reflexivity|apply binary_round_valid|apply binary_round_valid]. Qed.

Lemma decimal_value_valid (neg : bool) (d e10 : Z) :
  valid_binary 53 1024 (decimal_value neg d e10) = true.
Proof.
  unfold decimal_value. destruct d as [|p|p]; try reflexivity.
  destruct (0 <=? e10); [apply binary_normalize_valid|apply SFdiv_valid].
Qed.

End Division.

(** ** The numbers of a parsed text *)

Section ParsedNumbers.

Lemma radix_literal_valid (radix : Z) (digits : str) :
  valid_binary 53 1024 (radix_literal radix digits) = true.
Proof.
  unfold radix_literal. destruct (take_digits radix 0 0 digits) as [[v n] rest].
  destruct rest; [|reflexivity]. destruct (n =? 0)%Z; [reflexivity|apply decimal_value_valid].
Qed.

Lemma StringToNumber_valid (s : str) : valid_binary 53 1024 (StringToNumber s) = true.
Proof.
  unfold StringToNumber. destruct (trim s) as [|c t]; [reflexivity|].
  destruct (_ || _); [apply radix_literal_valid|].
  destruct (_ || _); [apply radix_literal_valid|].
  destruct (_ || _); [apply radix_literal_valid|].
  destruct (take_sign (c :: t)) as [neg t1].
  destruct (str_eqb t1 (lit "Infinity")); [reflexivity|].
  destruct (take_decimal t1) as [[[d e10] rest]|]; [|reflexivity].
  destruct rest; [apply decimal_value_valid|reflexivity].
Qed.

Lemma parse_number_valid (s : str) (n : number) (r : str) :
  parse_number s = Some (n, r) -> valid_binary 53 1024 n = true.
Proof.
  unfold parse_number.
  destruct (match s with
            | 45%N :: r0 => (true, r0)
            | _ => (false, s)
            end) as [neg s1].
  destruct (match s1 with
            | 48%N :: r0 => (0%Z, 1%Z, r0)
            | _ => take_digits 10 0 0 s1
            end) as [[i ni] s2].
  destruct (ni =? 0)%Z; [discriminate|].
  destruct (match s2 with
            | 46%N :: r0 =>
                let '(d, nf, r') := take_digits 10 i 0 r0 in
                if (nf =? 0)%Z then (i, 0%Z, s2) else (d, nf, r')
            | _ => (i, 0%Z, s2)
            end) as [[d nf] s3].
  destruct (take_exponent s3) as [e s4]. intros H. injection H as <- _.
  apply decimal_value_valid.
Qed.

Ltac break_match H :=
  repeat match type of H with
  | context [match ?x with _ => _ end] =>
      first [is_var x; destruct x | destruct x eqn:?];
      try discriminate H
  end.

Lemma parse_valid (fuel : nat) :
  (forall s v r, parse_value fuel s = Some (v, r) -> numbers_valid v = true) /\
  (forall s vs r, parse_elements fuel s = Some (vs, r) -> forallb numbers_valid vs = true) /\
  (forall s ms r, parse_members fuel s = Some (ms, r) ->
     forallb (fun m => numbers_valid (snd m)) ms = true).
Proof.
  induction fuel as [|f (IHv & IHe & IHm)].
  - repeat split; intros; discriminate.
  - split; [|split].
    + intros s v r H. cbn [parse_value] in H.
      break_match H; injection H as <- <-; cbn [numbers_valid forallb];
        first [ reflexivity
              | eapply parse_number_valid; eassumption
              | eapply IHe; eassumption
              | eapply IHm; eassumption ].
    + intros s vs r H. cbn [parse_elements] in H.
      break_match H; injection H as <- <-; cbn [forallb];
        repeat rewrite andb_true_iff; repeat split;
        first [ reflexivity | eapply IHv; eassumption | eapply IHe; eassumption ].
    + intros s ms r H. cbn [parse_members] in H.
      break_match H; injection H as <- <-; cbn [forallb snd];
        repeat rewrite andb_true_iff; repeat split;
        first [ reflexivity | eapply IHv; eassumption | eapply IHm; eassumption ].
Qed.

Lemma JSON_parse_valid (text : str) (v : JSON) :
  JSON_parse text = inr v -> numbers_valid v = true.
Proof.
  unfold JSON_parse.
  destruct (parse_value (S (length text)) text) as [[v0 r]|] eqn:Hparse; [|discriminate].
  destruct (skip_ws r); [|discriminate]. intros H. injection H as <-.
  exact (proj1 (parse_valid _) _ _ _ Hparse).
Qed.

Lemma lookup_valid (key : str) (members : list (str * JSON)) (v : JSON) :
  forallb (fun m => numbers_valid (snd m)) members = true ->
  lookup key members = Some v -> numbers_valid v = true.
Proof.
  induction members as [|[k v0] rest IH]; [discriminate|].
  cbn [forallb lookup snd]. intros Hall. apply andb_true_iff in Hall.
  destruct Hall as [Hv0 Hrest].
  destruct (lookup key rest) as [v'|].
  - intros H. injection H as <-. apply IH; [exact Hrest|reflexivity].
  - destruct (str_eqb k key); [|discriminate]. intros H. injection H as <-. exact Hv0.
Qed.

End ParsedNumbers.

(** ** The counting templates *)

Section Counting.

Lemma match_all_letter (c : char) :
  forall s : str,
  length (match_all (new_RegExp [c]) s 0) = length (filter (fun x => N.eqb x c) s).
Proof.
  induction s as [|x s IH].
  - reflexivity.
  - cbn [match_all filter].
    change (match_here (new_RegExp [c]) (x :: s))
      with (if N.eqb x c then Some [consumed (x :: s) s] else None).
    destruct (N.eqb x c).
    + replace (consumed (x :: s) s) with [x] by (symmetry; apply (consumed_app [x] s)).
      cbn [length Nat.pred]. rewrite IH. reflexivity.
    + exact IH.
Qed.

(** The letter-count template counts the occurrences of the asked letter in
    the asked word, whatever the case, and scores with [count_evaluation]. *)
Lemma analyzePrompt_letter_count (prompt : str) (letterMatch : list str) :
  String_match letterCountRegex prompt = Some letterMatch ->
  exists whole letter word,
    letterMatch = [whole; [letter]; word] /\
    analyzePrompt prompt =
      {| type := objective;
         expectedAnswer := Some (Number_toString (number_of_nat (count_letter letter word)));
         evaluationFunction :=
           Some (count_evaluation (number_of_nat (count_letter letter word))) |}.
Proof.
  intros Hmatch.
  destruct (letterCountRegex_captures _ _ Hmatch) as (whole & letter & word & -> & _).
  exists whole, letter, word. split; [reflexivity|].
  unfold analyzePrompt. rewrite Hmatch. cbn [nth].
  assert (Hcount : length (String_match_g (new_RegExp (toLowerCase [letter])) (toLowerCase word))
                   = count_letter letter word).
  { unfold String_match_g, toLowerCase, count_letter. cbn [map].
    rewrite match_all_letter. clear. induction word as [|x word IH]; [reflexivity|].
    cbn [map filter]. destruct (N.eqb (to_lower x) (to_lower letter)); cbn [length]; rewrite IH;
      reflexivity. }
  rewrite Hcount. reflexivity.
Qed.

(** The first run of digits of a response. *)
Lemma digitsRegex_captures (response : str) (numbers : list str) :
  String_match digitsRegex response = Some numbers ->
  exists first, numbers = [first] /\ first <> [] /\ Forall (fun x => is_digit x = true) first.
Proof.
  intros H. apply String_match_sound in H.
  destruct H as (before & w & after & caps & _ & Hm & ->).
  cbn in Hm. destruct Hm as (Hne & Hall & ->).
  exists w. split; [reflexivity|]. split; [exact Hne|].
  eapply Forall_impl; [|exact Hall]. intros x Hx. exact Hx.
Qed.

(** The scoring closure of the counting templates returns 1 exactly when
    the first integer of the response is the count, and 0 otherwise, for
    every count a string can have (below 2^53). *)
Lemma count_evaluation_cases (n : nat) (response : str) :
  (Z.of_nat n < 2 ^ 53)%Z ->
  (count_evaluation (number_of_nat n) response = one <->
     exists numbers,
       String_match digitsRegex response = Some numbers /\
       digits_value (nth 0 numbers []) = Z.of_nat n) /\
  (count_evaluation (number_of_nat n) response = one \/
   count_evaluation (number_of_nat n) response = zero) /\
  (String_match digitsRegex response = None ->
   count_evaluation (number_of_nat n) response = zero).
Proof.
  intros Hn. unfold count_evaluation.
  destruct (String_match digitsRegex response) as [numbers|] eqn:Hmatch.
  - destruct (digitsRegex_captures _ _ Hmatch) as (first & -> & Hne & Hdigits).
    cbn [nth]. destruct (parseInt_digits _ Hne Hdigits) as [-> Hpos].
    unfold number_of_nat.
    pose proof (strict_eq_integers (digits_value first) (Z.of_nat n) Hpos ltac:(lia)) as Heq.
    destruct (number_strict_eq (number_of_Z (digits_value first)) (number_of_Z (Z.of_nat n))).
    + split; [|split; [left; reflexivity|discriminate]].
      split; [|reflexivity]. intros _. exists [first]. split; [reflexivity|].
      apply Heq. reflexivity.
    + split; [|split; [right; reflexivity|discriminate]].
      split; [discriminate|]. intros (numbers & Hsome & Hvalue).
      injection Hsome as <-. cbn [nth] in Hvalue. apply Heq in Hvalue. discriminate Hvalue.
  - split; [|split; [right; reflexivity|reflexivity]].
    split; [discriminate|]. intros (numbers & Hsome & _). discriminate Hsome.
Qed.

End Counting.

Section Words.

(** A greedy run of white space before a continuation that always
    succeeds stops where the white space stops. *)
Lemma star_spaces (R : Type) (F : str -> R) :
  forall s : str,
  star (class_matches false false is_space) s (fun s' => Some (F s')) = Some (F (trimStart s)).
Proof.
  induction s as [|x s IH]; cbn [star trimStart]; [reflexivity|].
  change (class_matches false false is_space x) with (is_space x).
  destruct (is_space x); [rewrite IH|]; reflexivity.
Qed.

Lemma match_here_spaces (c : char) (s : str) :
  match_here spacesRegex (c :: s) =
  if is_space c then Some [consumed (c :: s) (trimStart s)] else None.
Proof.
  unfold match_here, spacesRegex. cbn [source flag_i ngroups repeat run].
  change (class_matches false false is_space c) with (is_space c).
  destruct (is_space c); [|reflexivity].
  apply (star_spaces _ (fun t => [consumed (c :: s) t])).
Qed.

Lemma trimStart_length (s : str) : length (trimStart s) <= length s.
Proof.
  induction s as [|x s IH]; cbn [trimStart length]; [lia|].
  destruct (is_space x); cbn [length]; lia.
Qed.

Lemma split_from_skip (re : RegExp) :
  forall (s piece : str),
  split_from re s piece (length s - length (trimStart s)) = split_from re (trimStart s) piece 0.
Proof.
  induction s as [|x s IH]; intros piece.
  - reflexivity.
  - cbn [trimStart]. destruct (is_space x).
    + pose proof (trimStart_length s).
      replace (length (x :: s) - length (trimStart s))
        with (S (length s - length (trimStart s))) by (cbn [length]; lia).
      cbn [split_from]. apply IH.
    + rewrite Nat.sub_diag. reflexivity.
Qed.

Lemma split_from_space (c : char) (s piece : str) :
  is_space c = true ->
  split_from spacesRegex (c :: s) piece 0
    = rev piece :: split_from spacesRegex (trimStart s) [] 0.
Proof.
  intros Hc. cbn [split_from]. rewrite match_here_spaces, Hc.
  pose proof (trimStart_length s).
  replace (length (consumed (c :: s) (trimStart s)))
    with (S (length s - length (trimStart s))).
  - rewrite split_from_skip. reflexivity.
  - unfold consumed. rewrite length_firstn. cbn [length]. lia.
Qed.

Lemma split_from_word (c : char) (s piece : str) :
  is_space c = false ->
  split_from spacesRegex (c :: s) piece 0 = split_from spacesRegex s (c :: piece) 0.
Proof.
  intros Hc. cbn [split_from]. rewrite match_here_spaces, Hc. reflexivity.
Qed.

(** The pieces of a split: one more than the words that start after the
    first character, and one more when the string ends in white space. *)
Lemma split_from_count :
  forall t : str,
  (forall piece,
     length (split_from spacesRegex t piece 0)
       = count_words_from true t + 1 + Nat.b2n (ends_in_space false t)) /\
  (forall piece,
     length (split_from spacesRegex (trimStart t) piece 0)
       = count_words_from false t + Nat.b2n (ends_in_space true t)).
Proof.
  induction t as [|c t [IHword IHspace]].
  - split; intros piece; reflexivity.
  - destruct (is_space c) eqn:Hc; split; intros piece.
    + rewrite split_from_space by exact Hc. cbn [length count_words_from ends_in_space].
      rewrite Hc, IHspace. lia.
    + cbn [trimStart count_words_from ends_in_space]. rewrite Hc. apply IHspace.
    + rewrite split_from_word by exact Hc. cbn [count_words_from ends_in_space].
      rewrite Hc, IHword. lia.
    + cbn [trimStart count_words_from ends_in_space]. rewrite Hc.
      rewrite split_from_word by exact Hc. rewrite IHword. lia.
Qed.

Lemma count_words_trimStart (s : str) :
  count_words_from false (trimStart s) = count_words_from false s.
Proof.
  induction s as [|x s IH]; [reflexivity|].
  cbn [trimStart]. destruct (is_space x) eqn:Hx; [|reflexivity].
  cbn [count_words_from]. rewrite Hx. exact IH.
Qed.

Lemma count_words_app_space (c : char) :
  is_space c = true ->
  forall (s : str) (b : bool), count_words_from b (s ++ [c]) = count_words_from b s.
Proof.
  intros Hc. induction s as [|x s IH]; intros b.
  - cbn [app count_words_from]. rewrite Hc. reflexivity.
  - cbn [app count_words_from]. rewrite !IH. reflexivity.
Qed.

Lemma count_words_trimEnd (b : bool) :
  forall l : str, count_words_from b (rev (trimStart l)) = count_words_from b (rev l).
Proof.
  induction l as [|x l IH]; [reflexivity|].
  cbn [trimStart]. destruct (is_space x) eqn:Hx; [|reflexivity].
  cbn [rev]. rewrite count_words_app_space by exact Hx. exact IH.
Qed.

Lemma ends_in_space_app (x : char) :
  forall (s : str) (b : bool), ends_in_space b (s ++ [x]) = is_space x.
Proof.
  induction s as [|y s IH]; intros b; [reflexivity|]. cbn [app ends_in_space]. apply IH.
Qed.

(** What [trimStart] leaves starts with a character that is not white
    space. *)
Lemma trimStart_head (s : str) :
  trimStart s = [] \/ exists c rest, trimStart s = c :: rest /\ is_space c = false.
Proof.
  induction s as [|x s IH]; [left; reflexivity|].
  cbn [trimStart]. destruct (is_space x) eqn:Hx; [exact IH|].
  right. exists x, s. auto.
Qed.

Lemma trimStart_nonempty (s : str) :
  Exists (fun x => is_space x = false) s -> trimStart s <> [].
Proof.
  induction 1 as [x s Hx|x s Hex IH]; cbn [trimStart].
  - rewrite Hx. discriminate.
  - destruct (is_space x); [exact IH|discriminate].
Qed.

Lemma trimStart_Exists (s : str) :
  Exists (fun x => is_space x = false) s -> Exists (fun x => is_space x = false) (trimStart s).
Proof.
  induction 1 as [x s Hx|x s Hex IH]; cbn [trimStart].
  - rewrite Hx. left. exact Hx.
  - destruct (is_space x) eqn:Hx; [exact IH|]. right. exact Hex.
Qed.

Lemma trimStart_suffix (s : str) : exists pre, s = pre ++ trimStart s.
Proof.
  induction s as [|x s [pre IH]]; [exists []; reflexivity|].
  cbn [trimStart]. destruct (is_space x); [|exists []; reflexivity].
  exists (x :: pre). cbn [app]. rewrite <- IH. reflexivity.
Qed.

(** A trimmed phrase with a character that is not white space starts and
    ends with one. *)
Lemma trim_shape (phrase : str) :
  Exists (fun x => is_space x = false) phrase ->
  exists c t,
    trim phrase = c :: t /\ is_space c = false /\ ends_in_space false (c :: t) = false.
Proof.
  intros Hex. unfold trim.
  apply trimStart_Exists in Hex.
  destruct (trimStart_head phrase) as [Hnil|(c & rest & Hu & Hc)].
  { rewrite Hnil in Hex. inversion Hex. }
  rewrite Hu in *.
  assert (Hrev : Exists (fun x => is_space x = false) (rev (c :: rest))).
  { apply Exists_exists in Hex. destruct Hex as (x & Hin & Hx).
    apply Exists_exists. exists x. split; [|exact Hx]. apply in_rev. rewrite rev_involutive.
    exact Hin. }
  pose proof (trimStart_nonempty _ Hrev) as Hne.
  destruct (trimStart_head (rev (c :: rest))) as [Hnil|(x & l & Hl & Hx)]; [contradiction|].
  destruct (trimStart_suffix (rev (c :: rest))) as [pre Hpre].
  rewrite Hl in Hpre |- *.
  assert (Hu' : c :: rest = rev (x :: l) ++ rev pre).
  { rewrite <- rev_app_distr, <- Hpre, rev_involutive. reflexivity. }
  cbn [rev] in *. destruct (rev l ++ [x]) as [|c' t] eqn:Ht.
  { destruct (rev l); discriminate Ht. }
  cbn [app] in Hu'. injection Hu' as <- _.
  exists c, t. split; [reflexivity|]. split; [exact Hc|].
  rewrite <- Ht. rewrite ends_in_space_app. exact Hx.
Qed.

(** The words of a phrase with at least one character that is not white
    space, as the word-count template counts them. *)
Lemma split_trim_count (phrase : str) :
  Exists (fun x => is_space x = false) phrase ->
  length (split spacesRegex (trim phrase)) = count_words phrase.
Proof.
  intros Hex. destruct (trim_shape phrase Hex) as (c & t & Htrim & Hc & Hend).
  assert (Hwords : count_words phrase = count_words_from false (trim phrase)).
  { unfold count_words, trim. rewrite count_words_trimEnd, rev_involutive, count_words_trimStart.
    reflexivity. }
  rewrite Hwords, Htrim. unfold split.
  destruct (split_from_count (c :: t)) as [Hcount _]. rewrite Hcount, Hend.
  cbn [count_words_from Nat.b2n]. rewrite Hc. lia.
Qed.

End Words.

(** ** The arithmetic template *)

Section Arithmetic.
Local Open Scope Z_scope.

Lemma operator_cases (op : char) :
  is_operator op = true ->
  [op] = lit "+" \/ [op] = lit "-" \/ [op] = lit "*" \/ [op] = lit "/".
Proof.
  unfold is_operator. rewrite !orb_true_iff, !N.eqb_eq.
  intros [[[->| ->]| ->]| ->]; auto.
Qed.

(** What [analyzePrompt] does with a match of the arithmetic pattern. *)
Lemma analyzePrompt_math (prompt : str) (mathMatch : list str) :
  String_match letterCountRegex prompt = None ->
  String_match wordCountRegex prompt = None ->
  String_match mathRegex prompt = Some mathMatch ->
  exists whole num1 op num2 correctAnswer,
    mathMatch = [whole; num1; [op]; num2] /\
    0 <= digits_value num1 /\ 0 <= digits_value num2 /\
    analyzePrompt prompt =
      {| type := objective;
         expectedAnswer := Some (Number_toString correctAnswer);
         evaluationFunction := Some (math_evaluation correctAnswer) |} /\
    ([op] = lit "+" /\
       correctAnswer = number_add (number_of_Z (digits_value num1)) (number_of_Z (digits_value num2))
     \/ [op] = lit "-" /\
       correctAnswer = number_sub (number_of_Z (digits_value num1)) (number_of_Z (digits_value num2))
     \/ [op] = lit "*" /\
       correctAnswer = number_mul (number_of_Z (digits_value num1)) (number_of_Z (digits_value num2))
     \/ [op] = lit "/" /\
       correctAnswer = number_div (number_of_Z (digits_value num1)) (number_of_Z (digits_value num2))).
Proof.
  intros Hletter Hword Hmath.
  destruct (mathRegex_captures _ _ Hmath) as (whole & num1 & op & num2 & -> & Hne1 & Hd1 & Hop & Hne2 & Hd2).
  destruct (parseInt_digits _ Hne1 Hd1) as [Hp1 Hv1].
  destruct (parseInt_digits _ Hne2 Hd2) as [Hp2 Hv2].
  unfold analyzePrompt. rewrite Hletter, Hword, Hmath. cbn [nth].
  rewrite Hp1, Hp2.
  exists whole, num1, op, num2.
  destruct (operator_cases op Hop) as [Heq|[Heq|[Heq|Heq]]]; rewrite Heq;
    eexists; (split; [reflexivity|]); (split; [exact Hv1|]); (split; [exact Hv2|]);
    (split; [reflexivity|]); auto.
Qed.

End Arithmetic.

Section ArithmeticFacts.
Local Open Scope Z_scope.

Lemma math_evaluation_cases (correctAnswer : number) (response : str) :
  (math_evaluation correctAnswer response = one <->
     exists numbers,
       String_match numberRegex response = Some numbers /\
       number_lt (Math_abs (number_sub (parseFloat (nth 0 numbers [])) correctAnswer))
         (literal "0.01") = true) /\
  (math_evaluation correctAnswer response = one \/
   math_evaluation correctAnswer response = zero).
Proof.
  unfold math_evaluation.
  destruct (String_match numberRegex response) as [numbers|].
  - change tolerance with (literal "0.01").
    destruct (number_lt (Math_abs (number_sub (parseFloat (nth 0 numbers [])) correctAnswer))
                (literal "0.01")) eqn:Hlt.
    + split; [|left; reflexivity]. split; [|reflexivity].
      intros _. exists numbers. split; [reflexivity|exact Hlt].
    + split; [|right; reflexivity]. split; [discriminate|].
      intros (numbers' & Heq & Hlt'). injection Heq as <-. congruence.
  - split; [|right; reflexivity]. split; [discriminate|].
    intros (numbers & Heq & _). discriminate Heq.
Qed.

Lemma sub_infinity_not_small (x : number) :
  number_lt (Math_abs (number_sub x Infinity)) tolerance = false.
Proof. destruct x as [s|s| |s m e]; try destruct s; reflexivity. Qed.

Lemma sub_NaN_not_small (x : number) :
  number_lt (Math_abs (number_sub x NaN)) tolerance = false.
Proof. destruct x as [s|s| |s m e]; reflexivity. Qed.

(** Every positive integer rounds to a positive finite number or to
    positive infinity. *)
Lemma number_of_Z_positive (c : positive) :
  (exists m e, number_of_Z (Zpos c) = S754_finite false m e) \/
  number_of_Z (Zpos c) = S754_infinity false.
Proof.
  assert (Hcase : Zpos c < 2 ^ 53 \/ 2 ^ 53 <= Zpos c) by lia.
  destruct Hcase as [Hsmall|Hlarge].
  - left. rewrite number_of_Z_pos by exact Hsmall. eexists; eexists; reflexivity.
  - destruct (number_of_Z_large c Hlarge) as [(m & e & Hr & _)|Hr].
    + left. exists m, e. exact Hr.
    + right. exact Hr.
Qed.

End ArithmeticFacts.

(** ** The judge *)

Section Judge.

(** From the first opening brace to the last closing brace: that is what
    the braces pattern matches. *)
Lemma star_none_after_last (caps : captures) (k : str -> captures -> option (list str)) :
  forall t : str,
  ~ In (ch "}") t ->
  star (class_matches false false any_char) t
    (fun s' => run false (Seq (Char (ch "}")) Empty) s' caps k) = None.
Proof.
  induction t as [|x t IH]; intros Hnot.
  - reflexivity.
  - cbn [star]. replace (class_matches false false any_char x) with true
      by (unfold class_matches, any_char; simpl; rewrite orb_negb_r; reflexivity).
    rewrite IH by (intros Hin; apply Hnot; right; exact Hin).
    cbn [run]. unfold char_matches.
    replace (N.eqb x (ch "}")) with false; [reflexivity|].
    symmetry. apply N.eqb_neq. intros ->. apply Hnot. left. reflexivity.
Qed.

Lemma star_to_last_brace (caps : captures) (k : str -> captures -> option (list str))
  (after : str) (res : list str) :
  ~ In (ch "}") after ->
  k after caps = Some res ->
  forall inside : str,
  star (class_matches false false any_char) (inside ++ ch "}" :: after)
    (fun s' => run false (Seq (Char (ch "}")) Empty) s' caps k) = Some res.
Proof.
  intros Hnot Hk. induction inside as [|x inside IH].
  - cbn [app star]. replace (class_matches false false any_char (ch "}")) with true by reflexivity.
    rewrite star_none_after_last by exact Hnot.
    cbn [run]. unfold char_matches. rewrite N.eqb_refl. exact Hk.
  - cbn [app star]. replace (class_matches false false any_char x) with true
      by (unfold class_matches, any_char; simpl; rewrite orb_negb_r; reflexivity).
    rewrite IH. reflexivity.
Qed.

Lemma match_here_brace (t : str) :
  match_here jsonRegex (ch "{" :: t) =
  star (class_matches false false any_char) t
    (fun s' => run false (Seq (Char (ch "}")) Empty) s' []
                 (fun s'' caps => Some (consumed (ch "{" :: t) s'' :: caps))).
Proof. reflexivity. Qed.

Lemma match_here_no_brace (x : char) (t : str) :
  x <> ch "{" -> match_here jsonRegex (x :: t) = None.
Proof.
  intros Hx. unfold match_here, jsonRegex, Concat.
  cbn [source flag_i fold_right ngroups repeat Nat.max run].
  unfold char_matches. replace (N.eqb x (ch "{")) with false; [reflexivity|].
  symmetry. apply N.eqb_neq. exact Hx.
Qed.

Lemma jsonRegex_match (before inside after : str) :
  ~ In (ch "{") before -> ~ In (ch "}") after ->
  String_match jsonRegex (before ++ ch "{" :: inside ++ ch "}" :: after)
    = Some [ch "{" :: inside ++ [ch "}"]].
Proof.
  intros Hbefore Hafter. induction before as [|x before IH].
  - cbn [app String_match]. rewrite match_here_brace.
    rewrite (star_to_last_brace [] _ after [ch "{" :: inside ++ [ch "}"]]).
    + reflexivity.
    + exact Hafter.
    + f_equal. f_equal.
      replace (ch "{" :: inside ++ ch "}" :: after)
        with ((ch "{" :: inside ++ [ch "}"]) ++ after)
        by (cbn [app]; rewrite <- app_assoc; reflexivity).
      apply consumed_app.
  - cbn [app String_match]. rewrite match_here_no_brace.
    + apply IH. intros Hin. apply Hbefore. right. exact Hin.
    + intros ->. apply Hbefore. left. reflexivity.
Qed.

(** A text that starts with an opening brace parses to an object or not at
    all. *)
Lemma JSON_parse_object (rest : str) (scores : JSON) :
  JSON_parse (ch "{" :: rest) = inr scores -> exists members, scores = JObject members.
Proof.
  unfold JSON_parse. set (fuel := length (ch "{" :: rest)).
  change (parse_value (S fuel) (ch "{" :: rest))
    with (match skip_ws rest with
          | 125%N :: r' => Some (JObject [], r')
          | _ =>
              match parse_members fuel rest with
              | Some (ms, r') => Some (JObject ms, r')
              | None => None
              end
          end).
  assert (Hshape : forall parsed : option (JSON * str),
            (parsed = None \/ exists ms r', parsed = Some (JObject ms, r')) ->
            match parsed with
            | Some (v, r) =>
                match skip_ws r with
                | [] => inr v
                | _ :: _ => inl (ErrorObject (lit "Unexpected token in JSON"))
                end
            | None => inl (ErrorObject (lit "Unexpected token in JSON"))
            end = inr scores ->
            exists members, scores = JObject members).
  { intros parsed [->|(ms & r' & ->)] H; [discriminate H|].
    destruct (skip_ws r'); [|discriminate H]. injection H as <-. exists ms. reflexivity. }
  apply Hshape.
  assert (Hmembers : match parse_members fuel rest with
                     | Some (ms, r') => Some (JObject ms, r')
                     | None => None
                     end = None \/
                     exists ms r', match parse_members fuel rest with
                                   | Some (ms, r') => Some (JObject ms, r')
                                   | None => None
                                   end = Some (JObject ms, r')).
  { destruct (parse_members fuel rest) as [[ms r']|]; [right; eauto|left; reflexivity]. }
  destruct (skip_ws rest) as [|c r']; [exact Hmembers|].
  repeat match goal with
    | |- context [match ?x with _ => _ end] =>
        is_var x; destruct x; try exact Hmembers
    end.
  right. eauto.
Qed.

(** What the inner block returns when it returns. *)
Lemma scores_of_some (content : str) (result : RubricResult) :
  scores_of content = Some result ->
  exists jsonMatch scores a r accuracy relevancy,
    String_match jsonRegex content = Some jsonMatch /\
    JSON_parse (nth 0 jsonMatch []) = inr scores /\
    get_property scores (lit "accuracy") = inr a /\
    get_property scores (lit "relevancy") = inr r /\
    ToNumber a = inr accuracy /\
    ToNumber r = inr relevancy /\
    result = {| rubric_accuracy := number_div accuracy hundred;
                rubric_relevancy := number_div relevancy hundred;
                rubric_details := details_subjective scores |}.
Proof.
  unfold scores_of.
  destruct (String_match jsonRegex content) as [jsonMatch|] eqn:Hmatch; [|discriminate].
  destruct (JSON_parse (nth 0 jsonMatch [])) as [e|scores] eqn:Hparse; [discriminate|].
  destruct (get_property scores (lit "accuracy")) as [e|a] eqn:Ha; [discriminate|].
  destruct (get_property scores (lit "relevancy")) as [e|r] eqn:Hr; [discriminate|].
  destruct (ToNumber a) as [e|accuracy] eqn:Haccuracy; [discriminate|].
  destruct (ToNumber r) as [e|relevancy] eqn:Hrelevancy; [discriminate|].
  intros H. injection H as <-. exists jsonMatch, scores, a, r, accuracy, relevancy.
  repeat split; assumption.
Qed.

(** The value of a property of a parsed text holds numbers of the format
    only. *)
Lemma get_property_valid (scores : JSON) (key : str) (a : option JSON) :
  numbers_valid scores = true ->
  get_property scores key = inr a ->
  match a with
  | Some v => numbers_valid v = true
  | None => True
  end.
Proof.
  intros Hvalid Hget. destruct a as [v|]; [|exact I].
  destruct scores; cbn [get_property] in Hget; try discriminate Hget.
  injection Hget as Hlookup. cbn [numbers_valid] in Hvalid.
  exact (lookup_valid _ _ _ Hvalid Hlookup).
Qed.

(** [ToNumber] returns numbers of the format. *)
Lemma ToNumber_valid (a : option JSON) (x : number) :
  match a with
  | Some v => numbers_valid v = true
  | None => True
  end ->
  ToNumber a = inr x -> valid_binary 53 1024 x = true.
Proof.
  intros Hvalid. destruct a as [[|b|n|s|elements|members]|]; cbn [ToNumber].
  - intros H. injection H as <-. reflexivity.
  - intros H. injection H as <-. destruct b; reflexivity.
  - intros H. injection H as <-. exact Hvalid.
  - intros H. injection H as <-. apply StringToNumber_valid.
  - destruct (ToString (JArray elements)); [discriminate|].
    intros H. injection H as <-. apply StringToNumber_valid.
  - destruct (ToString (JObject members)); [discriminate|].
    intros H. injection H as <-. apply StringToNumber_valid.
  - intros H. injection H as <-. reflexivity.
Qed.

(** A score of a parsed text that converts to a number from 0 to 100
    becomes a score between 0 and 1. *)
Lemma parsed_percent_in_unit (text : str) (scores : JSON) (key : str) (x : number) :
  JSON_parse text = inr scores ->
  ToNumber (member scores key) = inr x ->
  number_le zero x = true -> number_le x hundred = true ->
  in_unit (number_div x hundred) = true.
Proof.
  intros Hparse Hnumber Hlow Hhigh. apply percent_in_unit; [|exact Hlow|exact Hhigh].
  apply (ToNumber_valid (member scores key)); [|exact Hnumber].
  unfold member. destruct (get_property scores key) as [e|a] eqn:Hget; [exact I|].
  exact (get_property_valid _ _ _ (JSON_parse_valid _ _ Hparse) Hget).
Qed.

End Judge.

(** ** The asynchronous functions *)

Section WorldFacts.

Variable World : Type.
Variable create : ChatRequest -> World -> (thrown + ChatCompletion) * World.
Variable Date_now : World -> Z * World.

Lemma parse_scores_caught (content : str) (w : World) :
  try_catch (parse_scores World content) (fun _ => ret None) w = (inr (scores_of content), w).
Proof.
  unfold try_catch, parse_scores, scores_of.
  destruct (String_match jsonRegex content) as [jsonMatch|]; [|reflexivity].
  unfold bind, lift, ret.
  destruct (JSON_parse (nth 0 jsonMatch [])) as [e|scores]; [reflexivity|].
  destruct (get_property scores (lit "accuracy")) as [e|a]; [reflexivity|].
  destruct (ToNumber a) as [e|accuracy];
    [destruct (get_property scores (lit "relevancy")); reflexivity|].
  destruct (get_property scores (lit "relevancy")) as [e|r]; [reflexivity|].
  destruct (ToNumber r); reflexivity.
Qed.

Lemma judge_outcome (response prompt : str) (w w1 : World) outcome :
  create (judge_request prompt response) w = (outcome, w1) ->
  judge create response prompt w =
  (inr match outcome with
       | inl _ => None
       | inr evaluation => scores_of (trimmed_content evaluation)
       end, w1).
Proof.
  intros Hcall. unfold judge, try_catch at 1, bind. rewrite Hcall.
  destruct outcome as [e|evaluation]; [reflexivity|].
  rewrite parse_scores_caught. reflexivity.
Qed.

(** On the judge path [evaluateWithRubric] makes one call and returns. *)
Lemma evaluateWithRubric_subjective (response prompt : str) (w w1 : World) outcome :
  type (analyzePrompt prompt) = subjective ->
  create (judge_request prompt response) w = (outcome, w1) ->
  evaluateWithRubric create response prompt w = (inr (rubric_of_outcome outcome), w1).
Proof.
  intros Htype Hcall. unfold evaluateWithRubric. rewrite Htype.
  unfold bind. erewrite judge_outcome by exact Hcall.
  unfold rubric_of_outcome.
  destruct outcome as [e|evaluation]; [reflexivity|].
  destruct (scores_of (trimmed_content evaluation)); reflexivity.
Qed.

(** [evaluateWithRubric] never throws. *)
Lemma evaluateWithRubric_returns (response prompt : str) (w : World) :
  exists result w', evaluateWithRubric create response prompt w = (inr result, w').
Proof.
  unfold evaluateWithRubric.
  assert (Hjudge : exists result w',
    bind (judge create response prompt)
      (fun returned => match returned with
                       | Some result => ret result
                       | None => ret neutral
                       end) w = (inr result, w')).
  { destruct (create (judge_request prompt response) w) as [outcome w1] eqn:Hcall.
    unfold bind. erewrite judge_outcome by exact Hcall.
    destruct outcome as [e|evaluation]; [eexists; eexists; reflexivity|].
    destruct (scores_of (trimmed_content evaluation)); eexists; eexists; reflexivity. }
  destruct (type (analyzePrompt prompt)); [|exact Hjudge].
  destruct (evaluationFunction (analyzePrompt prompt)); [|exact Hjudge].
  eexists; eexists; reflexivity.
Qed.

(** When the completion call throws, [getGroqResponse] returns the record
    of its [catch] block. *)
Lemma getGroqResponse_failure (prompt model : str) (w w0 w1 : World) (t0 : Z) (e : thrown) :
  Date_now w = (t0, w0) ->
  create (completion_request prompt model) w0 = (inl e, w1) ->
  getGroqResponse create Date_now prompt model w =
  (inr (failure_record model
          (number_div (number_sub (number_of_Z (fst (Date_now w1))) (number_of_Z t0)) thousand) e),
   snd (Date_now w1)).
Proof.
  intros Hstart Hcall.
  unfold getGroqResponse, bind at 1, now at 1. rewrite Hstart.
  unfold try_catch, bind at 1. rewrite Hcall.
  unfold bind, now, ret, failure_record.
  destruct (Date_now w1) as [t1 w2]. reflexivity.
Qed.

(** When the completion call returns, so does [getGroqResponse], with the
    record of its [try] block. *)
Lemma getGroqResponse_success (prompt model : str) (w w0 w1 : World) (t0 : Z)
  (completion : ChatCompletion) :
  Date_now w = (t0, w0) ->
  create (completion_request prompt model) w0 = (inr completion, w1) ->
  exists evaluation w3,
    evaluateWithRubric create (response_text completion) prompt (snd (Date_now w1))
      = (inr evaluation, w3) /\
    getGroqResponse create Date_now prompt model w =
    (inr {| model := model;
            response := response_text completion;
            metrics :=
              {| accuracy := rubric_accuracy evaluation;
                 relevancy := rubric_relevancy evaluation;
                 responseTime :=
                   number_div (number_sub (number_of_Z (fst (Date_now w1))) (number_of_Z t0))
                     thousand;
                 cost := number_mul (number_div (token_count completion) thousand)
                           (costPer1kTokens model);
                 tokenCount := token_count completion |};
            error := None |}, w3).
Proof.
  intros Hstart Hcall.
  destruct (evaluateWithRubric_returns (response_text completion) prompt (snd (Date_now w1)))
    as (evaluation & w3 & Heval).
  exists evaluation, w3. split; [exact Heval|].
  unfold getGroqResponse, bind at 1, now at 1. rewrite Hstart.
  unfold try_catch, bind at 1. rewrite Hcall.
  unfold bind at 1, now at 1.
  destruct (Date_now w1) as [t1 w2]. simpl in Heval |- *.
  unfold bind. rewrite Heval. reflexivity.
Qed.

(** [getGroqResponse] never throws, keeps the model name, and reports the
    outcome of its completion call. *)
Lemma getGroqResponse_returns (prompt name : str) (w : World) :
  exists r w',
    getGroqResponse create Date_now prompt name w = (inr r, w') /\
    model r = name /\
    reports (fst (create (completion_request prompt name) (snd (Date_now w)))) r.
Proof.
  destruct (Date_now w) as [t0 w0] eqn:Hstart. cbn [snd].
  destruct (create (completion_request prompt name) w0) as [[e|completion] w1] eqn:Hcall;
    cbn [fst reports].
  - eexists; eexists. split; [exact (getGroqResponse_failure _ _ _ _ _ _ _ Hstart Hcall)|].
    repeat split.
  - destruct (getGroqResponse_success _ _ _ _ _ _ _ Hstart Hcall) as (evaluation & w3 & _ & Hget).
    eexists; eexists. split; [exact Hget|]. repeat split.
Qed.

(** Each result of a batch is the result of the call for its model. *)
Lemma Promise_all_map_getGroqResponse (prompt : str) (names : list str) :
  forall w : World,
  exists rs w',
    Promise_all_map (fun name => getGroqResponse create Date_now prompt name) names w
      = (inr rs, w') /\
    map model rs = names /\
    Forall2
      (fun name r =>
         model r = name /\
         exists w0 w1,
           getGroqResponse create Date_now prompt name w0 = (inr r, w1) /\
           reports (fst (create (completion_request prompt name) (snd (Date_now w0)))) r)
      names rs.
Proof.
  induction names as [|name rest IH]; intros w.
  - exists [], w. repeat split. constructor.
  - destruct (getGroqResponse_returns prompt name w)
      as (r & w1 & Hget & Hname & Hreports).
    destruct (IH w1) as (rs & w2 & Hall & Hnames & Hforall).
    exists (r :: rs), w2. split; [|split].
    + simpl. unfold bind at 1. rewrite Hget. unfold bind at 1. rewrite Hall. reflexivity.
    + simpl. rewrite Hname, Hnames. reflexivity.
    + constructor; [|exact Hforall]. split; [exact Hname|].
      exists w, w1. split; [exact Hget|exact Hreports].
Qed.

Lemma evaluatePrompt_results (prompt : str) (w : World) :
  exists rs w',
    evaluatePrompt create Date_now prompt w = (inr rs, w') /\
    map model rs = models /\
    Forall2
      (fun name r =>
         model r = name /\
         exists w0 w1,
           getGroqResponse create Date_now prompt name w0 = (inr r, w1) /\
           reports (fst (create (completion_request prompt name) (snd (Date_now w0)))) r)
      models rs.
Proof.
  destruct (Promise_all_map_getGroqResponse prompt models w) as (rs & w' & Hall & Hnames & Hforall).
  exists rs, w'. split; [|split; assumption].
  unfold evaluatePrompt, try_catch, bind. rewrite Hall. reflexivity.
Qed.

Lemma costPer1kTokens_flat_rate (name : str) : costPer1kTokens name = flat_rate name.
Proof.
  unfold costPer1kTokens, flat_rate.
  destruct (str_eqb name (lit "mixtral-8x7b-32768")); [reflexivity|].
  destruct (str_eqb name (lit "llama-3.3-70b-versatile")); [reflexivity|].
  destruct (str_eqb name (lit "gemma2-9b-it")); [reflexivity|].
  destruct (str_eqb name (lit "llama-3.1-8b-instant")); reflexivity.
Qed.

Lemma analyzePrompt_unmatched (prompt : str) :
  String_match letterCountRegex prompt = None ->
  String_match wordCountRegex prompt = None ->
  String_match mathRegex prompt = None ->
  analyzePrompt prompt =
    {| type := subjective; expectedAnswer := None; evaluationFunction := None |}.
Proof.
  intros Hletter Hword Hmath. unfold analyzePrompt.
  rewrite Hletter, Hword, Hmath. reflexivity.
Qed.

(** * The claims *)

(** ** The dispatcher: C1, C7, C8 and C9 *)


(** C7: when the chat-completion call of a model returns, the result
    carries no error, its token count is the one of the completion (0 when
    absent), and its cost is the token count divided by 1000 times the flat
    rate of the model: 0.027 for mixtral-8x7b-32768, 0.0007 for
    llama-3.3-70b-versatile, 0.0001 for every other model. *)
Theorem getGroqResponse_cost (prompt name : str) (w w0 w1 : World) (t0 : Z)
  (completion : ChatCompletion) :
  Date_now w = (t0, w0) ->
  create (completion_request prompt name) w0 = (inr completion, w1) ->
  exists r w',
    getGroqResponse create Date_now prompt name w = (inr r, w') /\
    error r = None /\
    tokenCount (metrics r) = token_count completion /\
    cost (metrics r) =
      number_mul (number_div (tokenCount (metrics r)) (literal "1000")) (flat_rate name).
Proof.
  intros Hstart Hcall.
  destruct (getGroqResponse_success _ _ _ _ _ _ _ Hstart Hcall)
    as (evaluation & w3 & _ & Hget).
  eexists; eexists. split; [exact Hget|].
  simpl. rewrite costPer1kTokens_flat_rate. repeat split.
Qed.

(** C8: when the chat-completion call of a model throws,
    [getGroqResponse] returns a result with the empty response, the [error]
    field set, and accuracy, relevancy, cost and token count all 0. *)
Theorem getGroqResponse_failure_metrics (prompt name : str) (w w0 w1 : World) (t0 : Z)
  (e : thrown) :
  Date_now w = (t0, w0) ->
  create (completion_request prompt name) w0 = (inl e, w1) ->
  exists r w',
    getGroqResponse create Date_now prompt name w = (inr r, w') /\
    response r = [] /\
    error r = Some (error_message e) /\
    accuracy (metrics r) = S754_zero false /\
    relevancy (metrics r) = S754_zero false /\
    cost (metrics r) = S754_zero false /\
    tokenCount (metrics r) = S754_zero false.
Proof.
  intros Hstart Hcall.
  eexists; eexists. split; [exact (getGroqResponse_failure _ _ _ _ _ _ _ Hstart Hcall)|].
  repeat split.
Qed.

(** C9: the list that [evaluatePrompt] returns keeps the order of the
    configured models: at every index the [model] of the result is the
    identifier at that index of the fixed list, whether the call of that
    model returned or threw. *)
Theorem evaluatePrompt_preserves_model_order (prompt : str) (w : World) :
  exists rs w',
    evaluatePrompt create Date_now prompt w = (inr rs, w') /\
    map model rs =
      [ lit "mixtral-8x7b-32768"; lit "gemma2-9b-it";
        lit "llama-3.3-70b-versatile"; lit "llama-3.1-8b-instant" ] /\
    forall i : nat, option_map model (nth_error rs i) = nth_error models i.
Proof.
  destruct (evaluatePrompt_results prompt w) as (rs & w' & Hrun & Hnames & _).
  exists rs, w'. split; [exact Hrun|]. split; [exact Hnames|].
  intros i. rewrite <- Hnames. symmetry. apply nth_error_map.
Qed.

(** ** The judge: C2, C5 and C6 *)


(** C5, as amended: on the judge path, when the judge call returns,
    [evaluateWithRubric] takes the text from the first opening brace to the
    last closing brace of the trimmed reply; when [JSON.parse] accepts that
    text, which then is an object, and the accuracy and relevancy members
    of the object convert to numbers, it returns these numbers divided by
    100, with the object as the details; when one of the two conversions
    throws, it returns the neutral result. *)
Theorem evaluateWithRubric_parsed_scores (response prompt : str) (w w1 : World)
  (evaluation : ChatCompletion) (before inside after : str) (scores : JSON) :
  type (analyzePrompt prompt) = subjective ->
  create (judge_request prompt response) w = (inr evaluation, w1) ->
  trimmed_content evaluation = before ++ ch "{" :: inside ++ ch "}" :: after ->
  ~ In (ch "{") before ->
  ~ In (ch "}") after ->
  JSON_parse (ch "{" :: inside ++ [ch "}"]) = inr scores ->
  exists members,
    scores = JObject members /\
    evaluateWithRubric create response prompt w =
      (inr match ToNumber (lookup (lit "accuracy") members),
                 ToNumber (lookup (lit "relevancy") members) with
           | inr accuracy, inr relevancy =>
               {| rubric_accuracy := number_div accuracy (literal "100");
                  rubric_relevancy := number_div relevancy (literal "100");
                  rubric_details := details_subjective scores |}
           | _, _ =>
               {| rubric_accuracy := literal "0.5";
                  rubric_relevancy := literal "0.5";
                  rubric_details := details_null |}
           end, w1).
Proof.
  intros Htype Hcall Hcontent Hbefore Hafter Hparse.
  destruct (JSON_parse_object _ _ Hparse) as (members & ->).
  exists members. split; [reflexivity|].
  rewrite (evaluateWithRubric_subjective _ _ _ _ _ Htype Hcall).
  unfold rubric_of_outcome, scores_of.
  rewrite Hcontent, jsonRegex_match by assumption.
  cbn [nth]. rewrite Hparse. cbn [get_property].
  destruct (ToNumber (lookup (lit "accuracy") members)) as [e|accuracy]; [reflexivity|].
  destruct (ToNumber (lookup (lit "relevancy") members)) as [e|relevancy]; reflexivity.
Qed.

(** C6: on the judge path, when the judge call throws, or its text has no
    match of the braces pattern, or [JSON.parse] throws on the match,
    [evaluateWithRubric] returns accuracy 0.5 and relevancy 0.5 and throws
    nothing. *)
Theorem evaluateWithRubric_neutral_on_failure (response prompt : str) (w w1 : World)
  (outcome : thrown + ChatCompletion) :
  type (analyzePrompt prompt) = subjective ->
  create (judge_request prompt response) w = (outcome, w1) ->
  (exists e, outcome = inl e) \/
  (exists evaluation, outcome = inr evaluation /\
     String_match jsonRegex (trimmed_content evaluation) = None) \/
  (exists evaluation jsonMatch e, outcome = inr evaluation /\
     String_match jsonRegex (trimmed_content evaluation) = Some jsonMatch /\
     JSON_parse (nth 0 jsonMatch []) = inl e) ->
  exists result,
    evaluateWithRubric create response prompt w = (inr result, w1) /\
    rubric_accuracy result = literal "0.5" /\
    rubric_relevancy result = literal "0.5".
Proof.
  intros Htype Hcall Hfail.
  exists (rubric_of_outcome outcome).
  split; [exact (evaluateWithRubric_subjective _ _ _ _ _ Htype Hcall)|].
  destruct Hfail as [(e & ->)|[(evaluation & -> & Hnone)|(evaluation & jsonMatch & e & -> & Hsome & Hparse)]].
  - split; reflexivity.
  - unfold rubric_of_outcome, scores_of. rewrite Hnone. split; reflexivity.
  - unfold rubric_of_outcome, scores_of. rewrite Hsome, Hparse. split; reflexivity.
Qed.

End WorldFacts.

(** ** The classifier: C3, C4 and C10 *)

Section Classifier.
Local Open Scope Z_scope.

(** C3, as amended: for every prompt that the classifier takes as
    arithmetic (the two counting patterns fail and the arithmetic pattern
    matches what is A op B) the expected answer is the string of the double
    that op gives on the doubles nearest to A and B; for +, - and *, and
    for a division that leaves no remainder, it is the exact result whenever
    A, B and the result are below 2^53 in magnitude.
    The scoring closure returns 1 exactly when the response contains a
    number and the double distance between the first such number and the
    expected double is less than the double 0.01, and 0 otherwise. *)
Theorem analyzePrompt_arithmetic (prompt : str) (mathMatch : list str) :
  String_match letterCountRegex prompt = None ->
  String_match wordCountRegex prompt = None ->
  String_match mathRegex prompt = Some mathMatch ->
  exists whole num1 op num2 correctAnswer,
    mathMatch = [whole; num1; [op]; num2] /\
    analyzePrompt prompt =
      {| type := objective;
         expectedAnswer := Some (Number_toString correctAnswer);
         evaluationFunction := Some (math_evaluation correctAnswer) |} /\
    ([op] = lit "+" /\
       correctAnswer = number_add (number_of_Z (digits_value num1)) (number_of_Z (digits_value num2))
     \/ [op] = lit "-" /\
       correctAnswer = number_sub (number_of_Z (digits_value num1)) (number_of_Z (digits_value num2))
     \/ [op] = lit "*" /\
       correctAnswer = number_mul (number_of_Z (digits_value num1)) (number_of_Z (digits_value num2))
     \/ [op] = lit "/" /\
       correctAnswer = number_div (number_of_Z (digits_value num1)) (number_of_Z (digits_value num2))) /\
    (forall result,
       digits_value num1 < 2 ^ 53 -> digits_value num2 < 2 ^ 53 ->
       exact_result (digits_value num1) [op] (digits_value num2) = Some result ->
       Z.abs result < 2 ^ 53 ->
       correctAnswer = number_of_Z result /\ integer_value correctAnswer = Some result) /\
    (forall response,
       (math_evaluation correctAnswer response = one <->
          exists numbers,
            String_match numberRegex response = Some numbers /\
            number_lt (Math_abs (number_sub (parseFloat (nth 0 numbers [])) correctAnswer))
              (literal "0.01") = true) /\
       (math_evaluation correctAnswer response = one \/
        math_evaluation correctAnswer response = zero)).
Proof.
  intros Hletter Hword Hmath.
  destruct (analyzePrompt_math _ _ Hletter Hword Hmath)
    as (whole & num1 & op & num2 & correctAnswer & -> & Hv1 & Hv2 & Hanalysis & Hop).
  exists whole, num1, op, num2, correctAnswer.
  split; [reflexivity|]. split; [exact Hanalysis|]. split; [exact Hop|].
  split; [|intros response; apply math_evaluation_cases].
  intros result Ha Hb Hexact Hresult.
  assert (Hcorrect : correctAnswer = number_of_Z result).
  { destruct Hop as [[Heq ->]|[[Heq ->]|[[Heq ->]|[Heq ->]]]]; rewrite Heq in Hexact.
    - injection Hexact as <-. apply number_add_exact; lia.
    - injection Hexact as <-. apply number_sub_exact; lia.
    - injection Hexact as <-. apply number_mul_exact; lia.
    - change (exact_result (digits_value num1) (lit "/") (digits_value num2))
        with (if (digits_value num2 =? 0)
                   || negb (digits_value num1 mod digits_value num2 =? 0)
              then None else Some (digits_value num1 / digits_value num2)) in Hexact.
      destruct (digits_value num2 =? 0) eqn:Hzero; [discriminate|].
      destruct (digits_value num1 mod digits_value num2 =? 0) eqn:Hmod; [|discriminate].
      cbn [orb negb] in Hexact. injection Hexact as <-.
      apply Z.eqb_neq in Hzero. apply Z.eqb_eq in Hmod.
      apply number_div_exact; [lia|lia|exact Hmod]. }
  split; [exact Hcorrect|]. rewrite Hcorrect. apply integer_value_number_of_Z. exact Hresult.
Qed.

(** C4, as amended: for every prompt that matches the letter-count
    pattern the expected answer is the number of occurrences of the asked
    letter in the asked word, whatever the case; for every prompt that
    matches the word-count pattern and not the letter-count pattern, and
    whose phrase has a character that is not white space, it is the number
    of whitespace-separated words of the phrase; in both cases the scoring
    closure returns 1 exactly when the first run of digits of the response
    writes that count, and 0 otherwise (0 when there is no digit), for
    every count below 2^53. *)
Theorem analyzePrompt_counts (prompt : str) :
  (forall letterMatch,
     String_match letterCountRegex prompt = Some letterMatch ->
     exists whole letter word,
       letterMatch = [whole; [letter]; word] /\
       analyzePrompt prompt =
         {| type := objective;
            expectedAnswer := Some (Number_toString (number_of_nat (count_letter letter word)));
            evaluationFunction :=
              Some (count_evaluation (number_of_nat (count_letter letter word))) |}) /\
  (forall wordMatch,
     String_match letterCountRegex prompt = None ->
     String_match wordCountRegex prompt = Some wordMatch ->
     exists whole phrase,
       wordMatch = [whole; phrase] /\
       (Exists (fun x => is_space x = false) phrase ->
        analyzePrompt prompt =
          {| type := objective;
             expectedAnswer := Some (Number_toString (number_of_nat (count_words phrase)));
             evaluationFunction :=
               Some (count_evaluation (number_of_nat (count_words phrase))) |})) /\
  (forall (n : nat) (response : str),
     (Z.of_nat n < 2 ^ 53)%Z ->
     (count_evaluation (number_of_nat n) response = one <->
        exists numbers,
          String_match digitsRegex response = Some numbers /\
          digits_value (nth 0 numbers []) = Z.of_nat n) /\
     (count_evaluation (number_of_nat n) response = one \/
      count_evaluation (number_of_nat n) response = zero) /\
     (String_match digitsRegex response = None ->
      count_evaluation (number_of_nat n) response = zero)).
Proof.
  split; [|split].
  - intros letterMatch Hmatch. apply analyzePrompt_letter_count. exact Hmatch.
  - intros wordMatch Hletter Hword.
    destruct (wordCountRegex_captures _ _ Hword) as (whole & phrase & -> & _).
    exists whole, phrase. split; [reflexivity|]. intros Hphrase.
    unfold analyzePrompt. rewrite Hletter, Hword. cbn [nth].
    rewrite split_trim_count by exact Hphrase. reflexivity.
  - intros n response Hn. apply count_evaluation_cases. exact Hn.
Qed.

(** C10, as amended: a prompt that matches the arithmetic pattern with the
    operator / and a divisor that is 0, and that matches neither counting
    pattern (they are tried first), is still classified as objective: the
    expected answer is the string Infinity, or NaN when the dividend is 0
    too, and the scoring closure returns 0 on every response. *)
Theorem analyzePrompt_zero_divisor (prompt : str) (mathMatch : list str) :
  String_match letterCountRegex prompt = None ->
  String_match wordCountRegex prompt = None ->
  String_match mathRegex prompt = Some mathMatch ->
  nth 2 mathMatch [] = lit "/" ->
  digits_value (nth 3 mathMatch []) = 0 ->
  exists evaluate,
    analyzePrompt prompt =
      {| type := objective;
         expectedAnswer :=
           Some (if digits_value (nth 1 mathMatch []) =? 0 then lit "NaN" else lit "Infinity");
         evaluationFunction := Some evaluate |} /\
    forall response, evaluate response = zero.
Proof.
  intros Hletter Hword Hmath Hslash Hzero.
  destruct (analyzePrompt_math _ _ Hletter Hword Hmath)
    as (whole & num1 & op & num2 & correctAnswer & -> & Hv1 & Hv2 & Hanalysis & Hop).
  cbn [nth] in *. rewrite Hzero in Hop.
  assert (Hdiv : correctAnswer = number_div (number_of_Z (digits_value num1)) (number_of_Z 0)).
  { destruct Hop as [[Heq _]|[[Heq _]|[[Heq _]|[_ ->]]]];
      [rewrite Hslash in Heq; discriminate Heq ..|reflexivity]. }
  exists (math_evaluation correctAnswer).
  destruct (digits_value num1) as [|a|a] eqn:Ha; try lia.
  - assert (HNaN : correctAnswer = NaN) by (rewrite Hdiv; reflexivity).
    split; [rewrite Hanalysis, HNaN; reflexivity|].
    intros response. rewrite HNaN. unfold math_evaluation.
    destruct (String_match numberRegex response); [|reflexivity].
    rewrite sub_NaN_not_small. reflexivity.
  - assert (Hinf : correctAnswer = Infinity).
    { rewrite Hdiv. destruct (number_of_Z_positive a) as [(m & e & ->)| ->]; reflexivity. }
    split; [rewrite Hanalysis, Hinf; reflexivity|].
    intros response. rewrite Hinf. unfold math_evaluation.
    destruct (String_match numberRegex response); [|reflexivity].
    rewrite sub_infinity_not_small. reflexivity.
Qed.

End Classifier.

(** ** Runs: where the claims fail as stated, and where the theorems apply *)



(** C3 fails as stated: the expected answer of
    what is 9007199254740993 + 0 is 9007199254740992. *)
Lemma expected_answer_not_exact :
  ~ expected_answer_exact (lit "what is 9007199254740993 + 0").
Proof.
  intros Hexact.
  specialize (Hexact
    [ lit "what is 9007199254740993 + 0"; lit "9007199254740993"; lit "+"; lit "0" ]
    9007199254740993%Z eq_refl eq_refl).
  vm_compute in Hexact. discriminate Hexact.
Qed.

(** C4 fails as stated: a prompt that matches both counting patterns is a
    letter-count prompt, and its expected answer is the number of letters,
    not the number of words. *)
Lemma letter_count_comes_first :
  ~ expected_counts_as_claimed
      (lit "how many letters a are in banana and how many words are in it").
Proof.
  intros [_ Hwords].
  specialize (Hwords [lit "how many words are in it"; lit "it"]).
  assert (Hmatch : String_match wordCountRegex
                     (lit "how many letters a are in banana and how many words are in it")
                   = Some [lit "how many words are in it"; lit "it"])
    by (vm_compute; reflexivity).
  specialize (Hwords Hmatch). vm_compute in Hwords. discriminate Hwords.
Qed.

(** The word count of a phrase of nothing but white space: such a phrase
    has no word, and [analyzePrompt] expects the answer 1 for it. *)
Lemma blank_phrase_counts_as_one_word :
  String_match letterCountRegex (lit "how many words are in ' '") = None /\
  String_match wordCountRegex (lit "how many words are in ' '")
    = Some [lit "how many words are in ' '"; lit " "] /\
  count_words (lit " ") = 0 /\
  split spacesRegex (trim (lit " ")) = [[]] /\
  expectedAnswer (analyzePrompt (lit "how many words are in ' '")) = Some (lit "1") /\
  forall evaluate,
    evaluationFunction (analyzePrompt (lit "how many words are in ' '")) = Some evaluate ->
    evaluate (lit "There are 0 words.") = zero /\ evaluate (lit "1") = one.
Proof.
  assert (Hletter : String_match letterCountRegex (lit "how many words are in ' '") = None)
    by (vm_compute; reflexivity).
  assert (Hword : String_match wordCountRegex (lit "how many words are in ' '")
                  = Some [lit "how many words are in ' '"; lit " "])
    by (vm_compute; reflexivity).
  split; [exact Hletter|]. split; [exact Hword|].
  split; [reflexivity|]. split; [vm_compute; reflexivity|].
  unfold analyzePrompt. rewrite Hletter, Hword. cbn [expectedAnswer evaluationFunction nth].
  split; [vm_compute; reflexivity|].
  intros evaluate Hevaluate. injection Hevaluate as <-.
  split; vm_compute; reflexivity.
Qed.

(** C5 fails as stated: when a closing brace follows the first object, the
    text handed to [JSON.parse] runs on to that brace, the parse fails and
    the scores are 0.5 each, not those of the first object. *)
Lemma scores_not_of_first_object :
  ~ scores_of_first_object Z (service (answering (lit "Once upon a time") verdict_with_note))
      (lit "Once upon a time") (lit "Tell me a story") 0%Z.
Proof.
  intros Hclaim.
  pose (scores := JObject [ (lit "accuracy", JNumber (number_of_Z 80));
                            (lit "relevancy", JNumber (number_of_Z 90)) ]).
  assert (Hfirst : first_JSON_object (response_text (text_completion verdict_with_note 40))
                   = Some scores) by (vm_compute; reflexivity).
  assert (Haccuracy : ToNumber (member scores (lit "accuracy")) = inr (number_of_Z 80))
    by reflexivity.
  assert (Hrelevancy : ToNumber (member scores (lit "relevancy")) = inr (number_of_Z 90))
    by reflexivity.
  assert (Hcall : service (answering (lit "Once upon a time") verdict_with_note)
                    (judge_request (lit "Tell me a story") (lit "Once upon a time")) 0%Z
                  = (inr (text_completion verdict_with_note 40), 1200%Z))
    by (vm_compute; reflexivity).
  destruct (Hclaim _ _ _ _ _ Hcall Hfirst Haccuracy Hrelevancy)
    as (result & w' & Hrun & Hscore & _).
  apply (f_equal (fun p => match fst p with
                           | inr r => rubric_accuracy r
                           | inl _ => zero
                           end)) in Hrun.
  cbn [fst] in Hrun. rewrite <- Hrun in Hscore.
  vm_compute in Hscore. discriminate Hscore.
Qed.

(** Scores from 0 to 100 that are not whole JSON numbers: a fraction and
    a string convert to numbers in the range, and the scores returned lie
    between 0 and 1. *)
Lemma fraction_and_string_are_percent :
  exists scores result,
    JSON_parse verdict_fraction_and_string = inr scores /\
    percent scores (lit "accuracy") /\ percent scores (lit "relevancy") /\
    evaluateWithRubric (service (answering (lit "Once upon a time") verdict_fraction_and_string))
      (lit "Once upon a time") (lit "Tell me a story") 0%Z = (inr result, 1200%Z) /\
    rubric_details result = details_subjective scores /\
    rubric_accuracy result = literal "0.855" /\
    rubric_relevancy result = literal "0.9" /\
    in_unit (rubric_accuracy result) = true /\ in_unit (rubric_relevancy result) = true.
Proof.
  eexists; eexists. split; [vm_compute; reflexivity|].
  split; [eexists; split; [vm_compute; reflexivity|split; vm_compute; reflexivity]|].
  split; [eexists; split; [vm_compute; reflexivity|split; vm_compute; reflexivity]|].
  split; [vm_compute; reflexivity|]. repeat split; vm_compute; reflexivity.
Qed.

(** A score that cannot be converted to a number: the accuracy is an
    object with a member named toString, the division throws a [TypeError],
    the inner [catch] takes it and the result is the neutral one. *)
Lemma unconvertible_score_is_neutral :
  JSON_parse verdict_unconvertible =
    inr (JObject [ (lit "accuracy", JObject [ (lit "toString", JNumber (number_of_Z 0)) ]);
                   (lit "relevancy", JNumber (number_of_Z 90)) ]) /\
  evaluateWithRubric (service (answering (lit "Once upon a time") verdict_unconvertible))
    (lit "Once upon a time") (lit "Tell me a story") 0%Z = (inr neutral, 1200%Z).
Proof. split; vm_compute; reflexivity. Qed.

(** C10 fails as stated: a prompt that matches a counting pattern as well
    is a counting prompt, whatever division it contains. *)
Lemma counting_comes_before_division :
  ~ zero_divisor_as_claimed (lit "how many words are in what is 1 / 0").
Proof.
  intros Hclaim.
  assert (Hmatch : String_match mathRegex (lit "how many words are in what is 1 / 0")
                   = Some [lit "what is 1 / 0"; lit "1"; lit "/"; lit "0"])
    by (vm_compute; reflexivity).
  destruct (Hclaim _ Hmatch eq_refl eq_refl) as [_ Hexpected].
  vm_compute in Hexpected. discriminate Hexpected.
Qed.


Lemma analyzePrompt_arithmetic_run :
  exists whole num1 op num2 correctAnswer,
    [ lit "what is 12 + 30"; lit "12"; lit "+"; lit "30" ] = [whole; num1; [op]; num2] /\
    analyzePrompt (lit "what is 12 + 30") =
      {| type := objective;
         expectedAnswer := Some (Number_toString correctAnswer);
         evaluationFunction := Some (math_evaluation correctAnswer) |} /\
    ([op] = lit "+" /\
       correctAnswer = number_add (number_of_Z (digits_value num1)) (number_of_Z (digits_value num2))
     \/ [op] = lit "-" /\
       correctAnswer = number_sub (number_of_Z (digits_value num1)) (number_of_Z (digits_value num2))
     \/ [op] = lit "*" /\
       correctAnswer = number_mul (number_of_Z (digits_value num1)) (number_of_Z (digits_value num2))
     \/ [op] = lit "/" /\
       correctAnswer = number_div (number_of_Z (digits_value num1)) (number_of_Z (digits_value num2))) /\
    (forall result,
       (digits_value num1 < 2 ^ 53)%Z -> (digits_value num2 < 2 ^ 53)%Z ->
       exact_result (digits_value num1) [op] (digits_value num2) = Some result ->
       (Z.abs result < 2 ^ 53)%Z ->
       correctAnswer = number_of_Z result /\ integer_value correctAnswer = Some result) /\
    (forall response,
       (math_evaluation correctAnswer response = one <->
          exists numbers,
            String_match numberRegex response = Some numbers /\
            number_lt (Math_abs (number_sub (parseFloat (nth 0 numbers [])) correctAnswer))
              (literal "0.01") = true) /\
       (math_evaluation correctAnswer response = one \/
        math_evaluation correctAnswer response = zero)).
Proof.
  apply (analyzePrompt_arithmetic (lit "what is 12 + 30")
           [ lit "what is 12 + 30"; lit "12"; lit "+"; lit "30" ]);
    vm_compute; reflexivity.
Defined.

Lemma analyzePrompt_counts_run :
  (exists whole letter word,
     [ lit "How many letters 'r' are in the word 'Strawberry'"; lit "r"; lit "Strawberry" ]
       = [whole; [letter]; word] /\
     analyzePrompt (lit "How many letters 'r' are in the word 'Strawberry'?") =
       {| type := objective;
          expectedAnswer := Some (Number_toString (number_of_nat (count_letter letter word)));
          evaluationFunction :=
            Some (count_evaluation (number_of_nat (count_letter letter word))) |}) /\
  (exists whole phrase,
     [ lit "how many words are in 'the quick  brown fox'"; lit "the quick  brown fox" ]
       = [whole; phrase] /\
     (Exists (fun x => is_space x = false) phrase ->
      analyzePrompt (lit "how many words are in 'the quick  brown fox' here") =
        {| type := objective;
           expectedAnswer := Some (Number_toString (number_of_nat (count_words phrase)));
           evaluationFunction :=
             Some (count_evaluation (number_of_nat (count_words phrase))) |})) /\
  (count_evaluation (number_of_nat 3) (lit "There are 3 of them, not 2.") = one <->
     exists numbers,
       String_match digitsRegex (lit "There are 3 of them, not 2.") = Some numbers /\
       digits_value (nth 0 numbers []) = Z.of_nat 3).
Proof.
  split; [|split].
  - apply (proj1 (analyzePrompt_counts (lit "How many letters 'r' are in the word 'Strawberry'?"))).
    vm_compute. reflexivity.
  - apply (proj1 (proj2 (analyzePrompt_counts
                           (lit "how many words are in 'the quick  brown fox' here")))).
    + vm_compute. reflexivity.
    + vm_compute. reflexivity.
  - apply (proj2 (proj2 (analyzePrompt_counts []))). vm_compute. reflexivity.
Defined.

Lemma evaluateWithRubric_parsed_scores_run :
  exists members,
    JObject [ (lit "accuracy", JNumber (number_of_Z 85));
              (lit "relevancy", JNumber (number_of_Z 90));
              (lit "reasoning", JString (lit "Mostly right")) ] = JObject members /\
    evaluateWithRubric (service (answering (lit "Once upon a time") verdict_85_90))
      (lit "Once upon a time") (lit "Tell me a story") 0%Z =
      (inr match ToNumber (lookup (lit "accuracy") members),
                 ToNumber (lookup (lit "relevancy") members) with
           | inr accuracy, inr relevancy =>
               {| rubric_accuracy := number_div accuracy (literal "100");
                  rubric_relevancy := number_div relevancy (literal "100");
                  rubric_details :=
                    details_subjective
                      (JObject [ (lit "accuracy", JNumber (number_of_Z 85));
                                 (lit "relevancy", JNumber (number_of_Z 90));
                                 (lit "reasoning", JString (lit "Mostly right")) ]) |}
           | _, _ =>
               {| rubric_accuracy := literal "0.5";
                  rubric_relevancy := literal "0.5";
                  rubric_details := details_null |}
           end, 1200%Z).
Proof.
  apply (evaluateWithRubric_parsed_scores Z
           (service (answering (lit "Once upon a time") verdict_85_90))
           (lit "Once upon a time") (lit "Tell me a story") 0%Z 1200%Z
           (text_completion verdict_85_90 40)
           []
           (dq ++ lit "accuracy" ++ dq ++ lit ": 85, " ++ dq ++ lit "relevancy" ++ dq
            ++ lit ": 90, " ++ dq ++ lit "reasoning" ++ dq ++ lit ": " ++ dq
            ++ lit "Mostly right" ++ dq)
           []).
  - vm_compute. reflexivity.
  - vm_compute. reflexivity.
  - vm_compute. reflexivity.
  - intros [].
  - intros [].
  - vm_compute. reflexivity.
Defined.

Lemma evaluateWithRubric_neutral_on_failure_run :
  exists result,
    evaluateWithRubric (service (answering (lit "Once upon a time") (lit "I would say 85 out of 100")))
      (lit "Once upon a time") (lit "Tell me a story") 0%Z = (inr result, 1200%Z) /\
    rubric_accuracy result = literal "0.5" /\
    rubric_relevancy result = literal "0.5".
Proof.
  apply (evaluateWithRubric_neutral_on_failure Z
           (service (answering (lit "Once upon a time") (lit "I would say 85 out of 100")))
           (lit "Once upon a time") (lit "Tell me a story") 0%Z 1200%Z
           (inr (text_completion (lit "I would say 85 out of 100") 40))).
  - vm_compute. reflexivity.
  - vm_compute. reflexivity.
  - right. left. eexists. split; [reflexivity|]. vm_compute. reflexivity.
Defined.

Lemma getGroqResponse_cost_run :
  exists r w',
    getGroqResponse (service (answering (lit "4") (lit "{}"))) clock (lit "what is 2 + 2")
      (lit "mixtral-8x7b-32768") 0%Z = (inr r, w') /\
    error r = None /\
    tokenCount (metrics r) = token_count (text_completion (lit "4") 120) /\
    cost (metrics r) =
      number_mul (number_div (tokenCount (metrics r)) (literal "1000"))
        (flat_rate (lit "mixtral-8x7b-32768")).
Proof.
  apply (getGroqResponse_cost Z (service (answering (lit "4") (lit "{}"))) clock
           (lit "what is 2 + 2") (lit "mixtral-8x7b-32768") 0%Z 0%Z 1200%Z 0%Z
           (text_completion (lit "4") 120)); reflexivity.
Defined.

Lemma getGroqResponse_failure_metrics_run :
  exists r w',
    getGroqResponse (service failing) clock (lit "what is 2 + 2") (lit "gemma2-9b-it") 0%Z
      = (inr r, w') /\
    response r = [] /\
    error r = Some (error_message (ErrorObject (lit "429 rate limit reached"))) /\
    accuracy (metrics r) = S754_zero false /\
    relevancy (metrics r) = S754_zero false /\
    cost (metrics r) = S754_zero false /\
    tokenCount (metrics r) = S754_zero false.
Proof.
  apply (getGroqResponse_failure_metrics Z (service failing) clock (lit "what is 2 + 2")
           (lit "gemma2-9b-it") 0%Z 0%Z 1200%Z 0%Z (ErrorObject (lit "429 rate limit reached")));
    reflexivity.
Defined.

Lemma analyzePrompt_zero_divisor_run :
  exists evaluate,
    analyzePrompt (lit "what is 7 / 0") =
      {| type := objective;
         expectedAnswer := Some (lit "Infinity");
         evaluationFunction := Some evaluate |} /\
    forall response, evaluate response = zero.
Proof.
  apply (analyzePrompt_zero_divisor (lit "what is 7 / 0")
           [ lit "what is 7 / 0"; lit "7"; lit "/"; lit "0" ]);
    vm_compute; reflexivity.
Defined.

(** * Further properties *)

(** ** The objective path of [evaluateWithRubric] *)

Lemma star_succeeds (R : Type) (cm : char -> bool) (k : str -> option R) :
  (forall s', k s' <> None) -> forall s, star cm s k <> None.
Proof.
  intros Hk. induction s as [|x s IH]; simpl.
  - apply Hk.
  - destruct (cm x); [|apply Hk].
    destruct (star cm s k); [discriminate|contradiction].
Qed.

Lemma match_here_digits (x : char) (s : str) :
  match_here digitsRegex (x :: s) <> None <-> is_digit x = true.
Proof.
  unfold match_here. cbn [run digitsRegex source flag_i class_matches xorb].
  destruct (is_digit x).
  - split; [reflexivity|]. intros _. apply star_succeeds. discriminate.
  - split; [intros H; contradiction H; reflexivity|discriminate].
Qed.

(** [/\d+/] finds a match exactly in the strings that hold a digit. *)
Lemma String_match_digits (s : str) :
  String_match digitsRegex s = None <-> has_digit s = false.
Proof.
  unfold has_digit. induction s as [|x s IH].
  - split; reflexivity.
  - cbn [String_match existsb]. pose proof (match_here_digits x s) as Hhere.
    destruct (match_here digitsRegex (x :: s)) as [res|].
    + assert (Hx : is_digit x = true) by (apply Hhere; discriminate).
      rewrite Hx. split; discriminate.
    + destruct (is_digit x); [exfalso; apply Hhere; reflexivity|].
      exact IH.
Qed.

Lemma has_digit_app (a b : str) : has_digit (a ++ b) = has_digit a || has_digit b.
Proof. apply existsb_app. Qed.

(** [/-?\d+\.?\d*/] matches nothing in a string without digits. *)
Lemma String_match_number_none (s : str) :
  has_digit s = false -> String_match numberRegex s = None.
Proof.
  intros Hnone. destruct (String_match numberRegex s) as [res|] eqn:Hmatch; [|reflexivity].
  apply String_match_sound in Hmatch.
  destruct Hmatch as (before & w & after & caps & -> & Hm & _).
  cbn in Hm.
  destruct Hm as (w1 & w' & caps1 & -> & _ & (w2 & w3 & caps2 & -> & (Hne & Hall & _) & _)).
  destruct w2 as [|x w2]; [contradiction Hne; reflexivity|].
  apply Forall_inv in Hall. cbn in Hall.
  rewrite !has_digit_app in Hnone. cbn [has_digit existsb] in Hnone. rewrite Hall in Hnone.
  rewrite ?orb_true_r, ?orb_true_l in Hnone.
  destruct (has_digit before); destruct (has_digit w1); discriminate Hnone.
Qed.

(** What [analyzePrompt] returns has the two optional fields exactly when
    its type is objective, and the scoring closure is one of the two of the
    source. *)
Lemma analyzePrompt_closure (prompt : str) :
  (type (analyzePrompt prompt) = objective /\
   exists answer,
     expectedAnswer (analyzePrompt prompt) = Some (Number_toString answer) /\
     (evaluationFunction (analyzePrompt prompt) = Some (count_evaluation answer) \/
      evaluationFunction (analyzePrompt prompt) = Some (math_evaluation answer))) \/
  (analyzePrompt prompt =
     {| type := subjective; expectedAnswer := None; evaluationFunction := None |} /\
   String_match letterCountRegex prompt = None /\
   String_match wordCountRegex prompt = None /\
   String_match mathRegex prompt = None).
Proof.
  unfold analyzePrompt.
  destruct (String_match letterCountRegex prompt) as [letterMatch|].
  { left. split; [reflexivity|]. eexists. split; [reflexivity|]. left. reflexivity. }
  destruct (String_match wordCountRegex prompt) as [wordMatch|].
  { left. split; [reflexivity|]. eexists. split; [reflexivity|]. left. reflexivity. }
  destruct (String_match mathRegex prompt) as [mathMatch|].
  { left. split; [reflexivity|]. eexists. split; [reflexivity|]. right. reflexivity. }
  right. repeat split.
Qed.

Lemma count_evaluation_binary (answer : number) (response : str) :
  (count_evaluation answer response = one \/ count_evaluation answer response = zero) /\
  (has_digit response = false -> count_evaluation answer response = zero).
Proof.
  unfold count_evaluation. split.
  - destruct (String_match digitsRegex response); [|right; reflexivity].
    destruct (number_strict_eq _ _); [left|right]; reflexivity.
  - intros Hnone. apply String_match_digits in Hnone. rewrite Hnone. reflexivity.
Qed.

Lemma math_evaluation_binary (answer : number) (response : str) :
  (math_evaluation answer response = one \/ math_evaluation answer response = zero) /\
  (has_digit response = false -> math_evaluation answer response = zero).
Proof.
  unfold math_evaluation. split.
  - destruct (String_match numberRegex response); [|right; reflexivity].
    destruct (number_lt _ _); [left|right]; reflexivity.
  - intros Hnone. rewrite (String_match_number_none _ Hnone). reflexivity.
Qed.

(** The scoring closures return 0 or 1, and 0 on a response without
    digits. *)
Lemma closure_binary (prompt response : str) (evaluate : str -> number) :
  evaluationFunction (analyzePrompt prompt) = Some evaluate ->
  (evaluate response = one \/ evaluate response = zero) /\
  (has_digit response = false -> evaluate response = zero).
Proof.
  intros Hevaluate.
  destruct (analyzePrompt_closure prompt) as [(_ & answer & _ & [Hc|Hc])|(Hs & _)].
  - rewrite Hc in Hevaluate. injection Hevaluate as <-. apply count_evaluation_binary.
  - rewrite Hc in Hevaluate. injection Hevaluate as <-. apply math_evaluation_binary.
  - rewrite Hs in Hevaluate. discriminate Hevaluate.
Qed.

Section ObjectivePath.

Variable World : Type.
Variable create : ChatRequest -> World -> (thrown + ChatCompletion) * World.

(** On an objective prompt [evaluateWithRubric] returns at once. *)
Lemma evaluateWithRubric_objective_result (response prompt : str) (w : World) :
  type (analyzePrompt prompt) = objective ->
  exists evaluate,
    evaluationFunction (analyzePrompt prompt) = Some evaluate /\
    evaluateWithRubric create response prompt w =
      (inr {| rubric_accuracy := evaluate response;
              rubric_relevancy := if has_digit response then one else zero;
              rubric_details :=
                details_objective (expectedAnswer (analyzePrompt prompt)) response |}, w).
Proof.
  intros Htype.
  destruct (analyzePrompt_closure prompt) as [(_ & answer & _ & Hclosure)|(Hsubjective & _)];
    [|rewrite Hsubjective in Htype; discriminate Htype].
  assert (Hsome : exists evaluate, evaluationFunction (analyzePrompt prompt) = Some evaluate)
    by (destruct Hclosure as [H|H]; eexists; exact H).
  destruct Hsome as (evaluate & Hevaluate). exists evaluate. split; [exact Hevaluate|].
  unfold evaluateWithRubric. rewrite Htype, Hevaluate. unfold ret.
  pose proof (String_match_digits response) as Hdigits.
  destruct (String_match digitsRegex response) as [numbers|].
  - destruct (has_digit response); [reflexivity|].
    destruct Hdigits as [_ Hdigits]. discriminate (Hdigits eq_refl).
  - destruct Hdigits as [Hdigits _]. rewrite (Hdigits eq_refl). reflexivity.
Qed.

(** X1: for a prompt that [analyzePrompt] classifies as objective,
    [evaluateWithRubric] returns without calling the service (the world is
    left as it was): the accuracy is what the scoring closure of the prompt
    returns on the response, the relevancy is 1 when the response holds a
    decimal digit and 0 when it holds none, and the details carry the
    response and the expected answer, which is the string of the number
    that the closure compares with. *)
Theorem evaluateWithRubric_objective (response prompt : str) (w : World) :
  type (analyzePrompt prompt) = objective ->
  exists answer evaluate,
    (evaluate = count_evaluation answer \/ evaluate = math_evaluation answer) /\
    evaluationFunction (analyzePrompt prompt) = Some evaluate /\
    evaluateWithRubric create response prompt w =
      (inr {| rubric_accuracy := evaluate response;
              rubric_relevancy := if has_digit response then one else zero;
              rubric_details :=
                details_objective (Some (Number_toString answer)) response |}, w).
Proof.
  intros Htype.
  destruct (evaluateWithRubric_objective_result response prompt w Htype)
    as (evaluate & Hevaluate & Hrun).
  destruct (analyzePrompt_closure prompt) as [(_ & answer & Hexpected & Hclosure)|(Hs & _)];
    [|rewrite Hs in Htype; discriminate Htype].
  exists answer, evaluate. rewrite Hexpected in Hrun.
  split; [|split; [exact Hevaluate|exact Hrun]].
  destruct Hclosure as [Hc|Hc]; rewrite Hc in Hevaluate; injection Hevaluate as <-;
    [left|right]; reflexivity.
Qed.

(** X2: on an objective prompt the accuracy and the relevancy that
    [evaluateWithRubric] returns are each 0 or 1, the accuracy is 1 only
    when the relevancy is, and a response without any digit gets 0 for
    both. *)
Theorem objective_scores_are_binary (response prompt : str) (w : World) :
  type (analyzePrompt prompt) = objective ->
  exists result,
    evaluateWithRubric create response prompt w = (inr result, w) /\
    (rubric_accuracy result = one \/ rubric_accuracy result = zero) /\
    (rubric_relevancy result = one \/ rubric_relevancy result = zero) /\
    (rubric_accuracy result = one -> rubric_relevancy result = one) /\
    (has_digit response = false ->
     rubric_accuracy result = zero /\ rubric_relevancy result = zero).
Proof.
  intros Htype.
  destruct (evaluateWithRubric_objective_result response prompt w Htype)
    as (evaluate & Hevaluate & Hrun).
  eexists. split; [exact Hrun|]. cbn [rubric_accuracy rubric_relevancy].
  destruct (closure_binary prompt response evaluate Hevaluate) as [Hcases Hnone].
  split; [exact Hcases|].
  destruct (has_digit response).
  - split; [left; reflexivity|]. split; [reflexivity|]. discriminate.
  - split; [right; reflexivity|]. rewrite (Hnone eq_refl).
    split; [discriminate|]. split; reflexivity.
Qed.

(** X3: [evaluateWithRubric] never throws, whatever the service does: on
    an objective prompt it returns with the world as it was, otherwise with
    the world as the one call to the judge, for this prompt and response,
    left it. *)
Theorem evaluateWithRubric_never_throws (response prompt : str) (w : World) :
  exists result,
    evaluateWithRubric create response prompt w =
      (inr result,
       match type (analyzePrompt prompt) with
       | objective => w
       | subjective => snd (create (judge_request prompt response) w)
       end).
Proof.
  destruct (type (analyzePrompt prompt)) eqn:Htype.
  - destruct (evaluateWithRubric_objective_result response prompt w Htype)
      as (evaluate & _ & Hrun).
    eexists. exact Hrun.
  - destruct (create (judge_request prompt response) w) as [outcome w1] eqn:Hcall.
    eexists. exact (evaluateWithRubric_subjective _ _ _ _ _ _ _ Htype Hcall).
Qed.

End ObjectivePath.

(** ** What [getGroqResponse] measures and asks *)

Section Dispatcher.

Variable World : Type.
Variable create : ChatRequest -> World -> (thrown + ChatCompletion) * World.
Variable Date_now : World -> Z * World.

Local Open Scope Z_scope.

Lemma getGroqResponse_run (prompt name : str) (w w0 w1 w2 : World) (t0 t1 : Z)
  (outcome : thrown + ChatCompletion) :
  Date_now w = (t0, w0) ->
  create (completion_request prompt name) w0 = (outcome, w1) ->
  Date_now w1 = (t1, w2) ->
  exists r,
    getGroqResponse create Date_now prompt name w =
      (inr r,
       match outcome, type (analyzePrompt prompt) with
       | inr completion, subjective =>
           snd (create (judge_request prompt (response_text completion)) w2)
       | _, _ => w2
       end) /\
    model r = name /\
    responseTime (metrics r) =
      number_div (number_sub (number_of_Z t1) (number_of_Z t0)) thousand /\
    match outcome with
    | inl e => r = failure_record name (responseTime (metrics r)) e
    | inr completion =>
        error r = None /\ response r = response_text completion /\
        tokenCount (metrics r) = token_count completion /\
        cost (metrics r) =
          number_mul (number_div (token_count completion) thousand) (costPer1kTokens name) /\
        exists evaluation,
          fst (evaluateWithRubric create (response_text completion) prompt w2) = inr evaluation /\
          accuracy (metrics r) = rubric_accuracy evaluation /\
          relevancy (metrics r) = rubric_relevancy evaluation
    end.
Proof.
  intros Hstart Hcall Hend. destruct outcome as [e|completion].
  - rewrite (getGroqResponse_failure _ _ _ _ _ _ _ _ _ _ Hstart Hcall), Hend. cbn [fst snd].
    eexists. split; [reflexivity|]. repeat split.
  - destruct (getGroqResponse_success _ _ _ _ _ _ _ _ _ _ Hstart Hcall)
      as (evaluation & w3 & Heval & Hget).
    rewrite Hend in Heval, Hget. cbn [fst snd] in Heval, Hget.
    assert (Hworld : w3 = match type (analyzePrompt prompt) with
                          | objective => w2
                          | subjective =>
                              snd (create (judge_request prompt (response_text completion)) w2)
                          end).
    { destruct (type (analyzePrompt prompt)) eqn:Htype.
      - destruct (evaluateWithRubric_objective_result _ create (response_text completion)
                    prompt w2 Htype) as (evaluate & _ & Hresult).
        rewrite Hresult in Heval. injection Heval as _ <-. reflexivity.
      - destruct (create (judge_request prompt (response_text completion)) w2)
          as [judgement w4] eqn:Hjudge.
        rewrite (evaluateWithRubric_subjective _ _ _ _ _ _ _ Htype Hjudge) in Heval.
        injection Heval as _ <-. reflexivity. }
    rewrite <- Hworld.
    eexists. split; [exact Hget|]. cbn [model metrics responseTime error response tokenCount cost
                                        accuracy relevancy].
    repeat split. exists evaluation. rewrite Heval. repeat split.
Qed.

(** X4: the response time of a result of [getGroqResponse] is the
    quotient by 1000 of the milliseconds between the clock reading at the
    start and the reading taken right after the completion call returned or
    threw, before any call to the judge, for clock readings that are
    naturals below 2^53. *)
Theorem getGroqResponse_responseTime (prompt name : str) (w w0 w1 w2 : World) (t0 t1 : Z)
  (outcome : thrown + ChatCompletion) :
  Date_now w = (t0, w0) ->
  create (completion_request prompt name) w0 = (outcome, w1) ->
  Date_now w1 = (t1, w2) ->
  0 <= t0 < 2 ^ 53 -> 0 <= t1 < 2 ^ 53 ->
  exists r w',
    getGroqResponse create Date_now prompt name w = (inr r, w') /\
    responseTime (metrics r) = number_div (number_of_Z (t1 - t0)) (literal "1000").
Proof.
  intros Hstart Hcall Hend Ht0 Ht1.
  destruct (getGroqResponse_run prompt name _ _ _ _ _ _ _ Hstart Hcall Hend)
    as (r & Hrun & _ & Htime & _).
  eexists; eexists. split; [exact Hrun|].
  rewrite Htime, number_sub_exact by assumption. reflexivity.
Qed.

(** X5: when the completion of a model carries no usable token count (no
    [usage], no [total_tokens], or one that is 0 or [NaN]), the result has
    no error, its token count is 0 and its cost is 0, whatever the model. *)
Theorem getGroqResponse_no_token_count (prompt name : str) (w w0 w1 : World) (t0 : Z)
  (completion : ChatCompletion) :
  Date_now w = (t0, w0) ->
  create (completion_request prompt name) w0 = (inr completion, w1) ->
  no_token_count completion ->
  exists r w',
    getGroqResponse create Date_now prompt name w = (inr r, w') /\
    error r = None /\
    tokenCount (metrics r) = S754_zero false /\
    cost (metrics r) = S754_zero false.
Proof.
  intros Hstart Hcall Hnone.
  destruct (Date_now w1) as [t1 w2] eqn:Hend.
  destruct (getGroqResponse_run prompt name _ _ _ _ _ _ _ Hstart Hcall Hend)
    as (r & Hrun & _ & _ & Herror & _ & Htokens & Hcost & _).
  assert (Hzero : token_count completion = zero).
  { unfold token_count, no_token_count in *.
    destruct (usage completion) as [u|]; [|reflexivity].
    destruct (total_tokens u) as [n|]; [|reflexivity].
    rewrite Hnone. reflexivity. }
  eexists; eexists. split; [exact Hrun|]. split; [exact Herror|].
  rewrite Hcost, Htokens, Hzero. split; [reflexivity|].
  rewrite costPer1kTokens_flat_rate. unfold flat_rate.
  destruct (str_eqb name (lit "mixtral-8x7b-32768")); [reflexivity|].
  destruct (str_eqb name (lit "llama-3.3-70b-versatile")); reflexivity.
Qed.

(** X6: a failure of the judge is not a failure of the model: when the
    completion call of a subjective prompt returns and the call to the
    judge then throws, the result has no error, keeps the text of the
    completion as its response, and has accuracy 0.5 and relevancy 0.5. *)
Theorem getGroqResponse_judge_failure (prompt name : str) (w w0 w1 w2 w3 : World) (t0 t1 : Z)
  (completion : ChatCompletion) (e : thrown) :
  Date_now w = (t0, w0) ->
  create (completion_request prompt name) w0 = (inr completion, w1) ->
  Date_now w1 = (t1, w2) ->
  type (analyzePrompt prompt) = subjective ->
  create (judge_request prompt (response_text completion)) w2 = (inl e, w3) ->
  exists r,
    getGroqResponse create Date_now prompt name w = (inr r, w3) /\
    error r = None /\
    response r = response_text completion /\
    accuracy (metrics r) = literal "0.5" /\
    relevancy (metrics r) = literal "0.5".
Proof.
  intros Hstart Hcall Hend Htype Hjudge.
  destruct (getGroqResponse_run prompt name _ _ _ _ _ _ _ Hstart Hcall Hend)
    as (r & Hrun & _ & _ & Herror & Hresponse & _ & _ & evaluation & Heval & Ha & Hr).
  rewrite Htype, Hjudge in Hrun. cbn [snd] in Hrun.
  rewrite (evaluateWithRubric_subjective _ _ _ _ _ _ _ Htype Hjudge) in Heval.
  cbn [fst] in Heval. injection Heval as <-.
  exists r. split; [exact Hrun|]. split; [exact Herror|]. split; [exact Hresponse|].
  rewrite Ha, Hr. split; reflexivity.
Qed.

End Dispatcher.

Section Requests.

Variable World : Type.
Variable create : ChatRequest -> World -> (thrown + ChatCompletion) * World.
Variable Date_now : World -> Z * World.

Lemma beside_reading (w : World) (log : list ChatRequest) :
  beside Date_now (w, log) = (fst (Date_now w), (snd (Date_now w), log)).
Proof. unfold beside. cbn [fst snd]. destruct (Date_now w); reflexivity. Qed.

Lemma recording_call (request : ChatRequest) (w : World) (log : list ChatRequest) :
  recording create request (w, log)
  = (fst (create request w), (snd (create request w), log ++ [request])).
Proof. unfold recording. cbn [fst snd]. destruct (create request w); reflexivity. Qed.

(** Observing the service changes nothing of what [evaluateWithRubric]
    returns, and shows its one request to the judge, if any. *)
Lemma evaluateWithRubric_recorded (response prompt : str) (w : World) (log : list ChatRequest) :
  evaluateWithRubric (recording create) response prompt (w, log) =
  (fst (evaluateWithRubric create response prompt w),
   (snd (evaluateWithRubric create response prompt w),
    log ++ match type (analyzePrompt prompt) with
           | objective => []
           | subjective => [judge_request prompt response]
           end)).
Proof.
  destruct (type (analyzePrompt prompt)) eqn:Htype.
  - destruct (evaluateWithRubric_objective_result _ create response prompt w Htype)
      as (evaluate & Hevaluate & Hrun).
    destruct (evaluateWithRubric_objective_result _ (recording create) response prompt (w, log)
                Htype) as (evaluate' & Hevaluate' & Hrun').
    rewrite Hevaluate in Hevaluate'. injection Hevaluate' as <-.
    rewrite Hrun, Hrun', app_nil_r. reflexivity.
  - destruct (create (judge_request prompt response) w) as [outcome w1] eqn:Hcall.
    assert (Hcall' : recording create (judge_request prompt response) (w, log)
                     = (outcome, (w1, log ++ [judge_request prompt response])))
      by (rewrite recording_call, Hcall; reflexivity).
    rewrite (evaluateWithRubric_subjective _ _ _ _ _ _ _ Htype Hcall).
    rewrite (evaluateWithRubric_subjective _ _ _ _ _ _ _ Htype Hcall'). reflexivity.
Qed.

(** What [getGroqResponse] asks of the observed service, and that it
    returns what it returns unobserved. *)
Lemma getGroqResponse_recorded (prompt name : str) (w w0 w1 : World) (t0 : Z)
  (outcome : thrown + ChatCompletion) (log : list ChatRequest) :
  Date_now w = (t0, w0) ->
  create (completion_request prompt name) w0 = (outcome, w1) ->
  exists r w',
    getGroqResponse create Date_now prompt name w = (inr r, w') /\
    getGroqResponse (recording create) (beside Date_now) prompt name (w, log) =
      (inr r, (w', log ++ completion_request prompt name :: judged prompt outcome)) /\
    judged prompt outcome = judged_result prompt r.
Proof.
  intros Hstart Hcall.
  assert (Hstart' : beside Date_now (w, log) = (t0, (w0, log)))
    by (rewrite beside_reading, Hstart; reflexivity).
  assert (Hcall' : recording create (completion_request prompt name) (w0, log)
                   = (outcome, (w1, log ++ [completion_request prompt name])))
    by (rewrite recording_call, Hcall; reflexivity).
  unfold judged, judged_result. destruct outcome as [e|completion].
  - rewrite (getGroqResponse_failure _ _ _ _ _ _ _ _ _ _ Hstart Hcall).
    rewrite (getGroqResponse_failure _ _ _ _ _ _ _ _ _ _ Hstart' Hcall').
    rewrite beside_reading. cbn [fst snd].
    eexists; eexists. split; [reflexivity|]. split; reflexivity.
  - destruct (getGroqResponse_success _ _ _ _ _ _ _ _ _ _ Hstart Hcall)
      as (evaluation & w3 & Heval & Hget).
    destruct (getGroqResponse_success _ _ _ _ _ _ _ _ _ _ Hstart' Hcall')
      as (evaluation' & w3' & Heval' & Hget').
    rewrite beside_reading in Heval', Hget'. cbn [fst snd] in Heval', Hget'.
    rewrite evaluateWithRubric_recorded, Heval in Heval'. cbn [fst snd] in Heval'.
    injection Heval' as <- <-.
    rewrite Hget, Hget'. cbn [error response].
    eexists; eexists. split; [reflexivity|].
    destruct (type (analyzePrompt prompt)).
    + rewrite app_nil_r. split; reflexivity.
    + rewrite <- app_assoc. split; reflexivity.
Qed.

(** X7: [getGroqResponse] sends the service the completion request of its
    model and prompt, and after it one request to the judge, for the prompt
    and the text of the completion, exactly when the completion call
    returned and the prompt is subjective; it sends nothing else.  (The
    service is observed by a record of the requests it receives, which
    changes nothing of what [getGroqResponse] returns.) *)
Theorem getGroqResponse_requests (prompt name : str) (w w0 w1 : World) (t0 : Z)
  (outcome : thrown + ChatCompletion) (log : list ChatRequest) :
  Date_now w = (t0, w0) ->
  create (completion_request prompt name) w0 = (outcome, w1) ->
  exists r w',
    getGroqResponse create Date_now prompt name w = (inr r, w') /\
    getGroqResponse (recording create) (beside Date_now) prompt name (w, log) =
      (inr r, (w', log ++ completion_request prompt name :: judged prompt outcome)) /\
    judged prompt outcome = judged_result prompt r.
Proof. exact (getGroqResponse_recorded prompt name w w0 w1 t0 outcome log). Qed.

Lemma Promise_all_map_requests (prompt : str) (names : list str) :
  forall (w : World) (log : list ChatRequest),
  exists rs w' log',
    Promise_all_map (fun name => getGroqResponse create Date_now prompt name) names w
      = (inr rs, w') /\
    Promise_all_map (fun name => getGroqResponse (recording create) (beside Date_now) prompt name)
      names (w, log) = (inr rs, (w', log')) /\
    filter (fun request => negb (is_judge_request request)) log' =
      filter (fun request => negb (is_judge_request request)) log
      ++ map (completion_request prompt) names /\
    filter is_judge_request log' =
      filter is_judge_request log ++ flat_map (judged_result prompt) rs.
Proof.
  induction names as [|name rest IH]; intros w log.
  - exists [], w, log. cbn. rewrite !app_nil_r. repeat split.
  - destruct (Date_now w) as [t0 w0] eqn:Hstart.
    destruct (create (completion_request prompt name) w0) as [outcome w1] eqn:Hcall.
    destruct (getGroqResponse_recorded prompt name _ _ _ _ _ log Hstart Hcall)
      as (r & w2 & Hplain & Hget & Hjudged).
    destruct (IH w2 (log ++ completion_request prompt name :: judged prompt outcome))
      as (rs & w3 & log3 & Hplains & Hall & Hcompletions & Hjudges).
    exists (r :: rs), w3, log3. split; [|split; [|split]].
    + cbn [Promise_all_map]. unfold bind at 1. rewrite Hplain. unfold bind at 1.
      rewrite Hplains. reflexivity.
    + cbn [Promise_all_map]. unfold bind at 1. rewrite Hget. unfold bind at 1.
      rewrite Hall. reflexivity.
    + rewrite Hcompletions, filter_app. cbn [filter map].
      change (is_judge_request (completion_request prompt name)) with false. cbn [negb].
      rewrite <- app_assoc. f_equal. cbn [app]. f_equal.
      unfold judged. destruct outcome as [e|completion]; [reflexivity|].
      destruct (type (analyzePrompt prompt)); reflexivity.
    + rewrite Hjudges, filter_app. cbn [filter flat_map].
      change (is_judge_request (completion_request prompt name)) with false.
      rewrite <- app_assoc. f_equal. f_equal. rewrite <- Hjudged.
      unfold judged. destruct outcome as [e|completion]; [reflexivity|].
      destruct (type (analyzePrompt prompt)); reflexivity.
Qed.

(** X8: the requests of a batch of [evaluatePrompt], which returns the
    same results observed or not: the completion requests are those of the
    four models, in the order of the models; the requests to the judge
    are, in some order, one for each result without error when the prompt
    is subjective, each with the response of that result; so an objective
    prompt costs exactly the four completion requests.  (Nothing is said of
    the order of the judge requests, nor of their place between the
    completion requests: that is the order in which the service answers.) *)
Theorem evaluatePrompt_requests (prompt : str) (w : World) :
  exists rs w' log,
    evaluatePrompt create Date_now prompt w = (inr rs, w') /\
    evaluatePrompt (recording create) (beside Date_now) prompt (w, []) = (inr rs, (w', log)) /\
    filter (fun request => negb (is_judge_request request)) log =
      map (completion_request prompt) models /\
    Permutation (filter is_judge_request log) (flat_map (judged_result prompt) rs) /\
    (type (analyzePrompt prompt) = objective -> log = map (completion_request prompt) models).
Proof.
  destruct (Promise_all_map_requests prompt models w [])
    as (rs & w' & log & Hplain & Hall & Hcompletions & Hjudges).
  cbn [filter app] in Hcompletions, Hjudges.
  exists rs, w', log.
  split; [|split; [|split; [exact Hcompletions|split; [rewrite Hjudges; apply Permutation_refl|]]]].
  - unfold evaluatePrompt, try_catch, bind. rewrite Hplain. reflexivity.
  - unfold evaluatePrompt, try_catch, bind. rewrite Hall. reflexivity.
  - intros Htype. rewrite <- Hcompletions. symmetry.
    assert (Hnone : filter is_judge_request log = []).
    { rewrite Hjudges. clear - Htype. induction rs as [|r rs IH]; [reflexivity|].
      cbn [flat_map]. rewrite IH. unfold judged_result. rewrite Htype.
      destruct (error r); reflexivity. }
    clear - Hnone. induction log as [|request log IH]; [reflexivity|].
    cbn [filter] in *. destruct (is_judge_request request); [discriminate Hnone|].
    cbn [negb]. rewrite IH by exact Hnone. reflexivity.
Qed.

End Requests.

(** ** The scores of a batch *)

Section Batch.

Variable World : Type.
Variable create : ChatRequest -> World -> (thrown + ChatCompletion) * World.
Variable Date_now : World -> Z * World.

(** [Promise.all] over calls that all return. *)
Lemma Promise_all_map_Forall (A B : Type) (f : A -> M World B) (P : B -> Prop) :
  (forall x w, exists y w', f x w = (inr y, w') /\ P y) ->
  forall xs w, exists ys w', Promise_all_map f xs w = (inr ys, w') /\ Forall P ys.
Proof.
  intros Hf. induction xs as [|x xs IH]; intros w.
  - exists [], w. split; [reflexivity|constructor].
  - destruct (Hf x w) as (y & w1 & Hy & HP). destruct (IH w1) as (ys & w2 & Hys & HPs).
    exists (y :: ys), w2. split; [|constructor; assumption].
    cbn [Promise_all_map]. unfold bind at 1. rewrite Hy. unfold bind at 1. rewrite Hys.
    reflexivity.
Qed.

(** X9: for an objective prompt every result of [evaluatePrompt], failed
    or not, has an accuracy and a relevancy that are each 0 or 1, with
    accuracy 1 only beside relevancy 1. *)
Theorem evaluatePrompt_objective_scores (prompt : str) (w : World) :
  type (analyzePrompt prompt) = objective ->
  exists rs w',
    evaluatePrompt create Date_now prompt w = (inr rs, w') /\
    Forall (fun r => binary_scores (accuracy (metrics r)) (relevancy (metrics r))) rs.
Proof.
  intros Htype.
  destruct (Promise_all_map_Forall _ _
              (fun name => getGroqResponse create Date_now prompt name)
              (fun r => binary_scores (accuracy (metrics r)) (relevancy (metrics r))))
    with (xs := models) (w := w) as (rs & w' & Hall & Hforall).
  - intros name w0.
    destruct (Date_now w0) as [t0 w1] eqn:Hstart.
    destruct (create (completion_request prompt name) w1) as [outcome w2] eqn:Hcall.
    destruct (Date_now w2) as [t1 w3] eqn:Hend.
    destruct (getGroqResponse_run _ create Date_now prompt name _ _ _ _ _ _ _ Hstart Hcall Hend)
      as (r & Hrun & _ & _ & Hcase).
    eexists; eexists. split; [exact Hrun|].
    destruct outcome as [e|completion].
    + rewrite Hcase. cbn [failure_record metrics accuracy relevancy]. unfold binary_scores.
      split; [right; reflexivity|]. split; [right; reflexivity|]. discriminate.
    + destruct Hcase as (_ & _ & _ & _ & evaluation & Heval & -> & ->).
      destruct (evaluateWithRubric_objective_result _ create (response_text completion)
                  prompt w3 Htype) as (evaluate & Hevaluate & Hresult).
      rewrite Hresult in Heval. injection Heval as <-.
      cbn [rubric_accuracy rubric_relevancy].
      destruct (closure_binary prompt (response_text completion) evaluate Hevaluate)
        as [Hcases Hnone].
      unfold binary_scores. destruct (has_digit (response_text completion)).
      * split; [exact Hcases|]. split; [left; reflexivity|reflexivity].
      * rewrite (Hnone eq_refl). split; [right; reflexivity|].
        split; [right; reflexivity|discriminate].
  - exists rs, w'. split; [|exact Hforall].
    unfold evaluatePrompt, try_catch, bind. rewrite Hall. reflexivity.
Qed.

End Batch.

(** ** The words of the templates *)

Lemma to_upper_lower (x c : char) : to_upper x = to_upper c -> to_lower x = to_lower c.
Proof.
  unfold to_upper, to_lower.
  destruct (is_lower x) eqn:Hlx; destruct (is_upper x) eqn:Hux;
    destruct (is_lower c) eqn:Hlc; destruct (is_upper c) eqn:Huc;
    intros; chars_to_arith; lia.
Qed.

(** A literal run of a pattern under the [i] flag consumes the same
    characters up to case. *)
Lemma matches_literal (p : str) :
  forall caps w caps',
  matches true (fold_right (fun c r => Seq (Char c) r) Empty p) caps w caps' ->
  toLowerCase w = toLowerCase p.
Proof.
  induction p as [|c p IH]; cbn [fold_right matches]; intros caps w caps' Hm.
  - destruct Hm as [-> _]. reflexivity.
  - destruct Hm as (w1 & w2 & caps1 & -> & (x & -> & Hx & _) & Hm).
    unfold char_matches in Hx. apply N.eqb_eq in Hx.
    cbn [app toLowerCase map]. rewrite (to_upper_lower _ _ Hx). f_equal.
    exact (IH _ _ _ Hm).
Qed.

Lemma mentions_prefix (phrase : string) (n : nat) (w1 w2 s before after : str) :
  s = before ++ (w1 ++ w2) ++ after ->
  toLowerCase (firstn n w1) = lit phrase ->
  mentions phrase s.
Proof.
  intros -> Hw. exists before, (firstn n w1), (skipn n w1 ++ w2 ++ after).
  split; [|exact Hw].
  rewrite <- (firstn_skipn n w1) at 1. rewrite <- !app_assoc. reflexivity.
Qed.

Lemma toLowerCase_firstn (n : nat) (w : str) :
  toLowerCase (firstn n w) = firstn n (toLowerCase w).
Proof. unfold toLowerCase. symmetry. apply firstn_map. Qed.

(** X10: a prompt that [analyzePrompt] classifies as objective holds the
    words how many or what is, each followed by a space, in whatever case;
    so a prompt without them always goes to the judge. *)
Theorem objective_prompt_mentions_template (prompt : str) :
  type (analyzePrompt prompt) = objective ->
  mentions "how many " prompt \/ mentions "what is " prompt.
Proof.
  intros Htype.
  destruct (String_match letterCountRegex prompt) as [letterMatch|] eqn:Hletter.
  { left. apply String_match_sound in Hletter.
    destruct Hletter as (before & w & after & caps & Hprompt & Hm & _).
    unfold letterCountRegex, Concat in Hm. cbn [source flag_i fold_right] in Hm.
    destruct Hm as (w1 & w2 & caps1 & -> & Hm1 & _).
    apply matches_literal in Hm1.
    apply (mentions_prefix _ 9 w1 w2 _ before after Hprompt).
    rewrite toLowerCase_firstn, Hm1. reflexivity. }
  destruct (String_match wordCountRegex prompt) as [wordMatch|] eqn:Hword.
  { left. apply String_match_sound in Hword.
    destruct Hword as (before & w & after & caps & Hprompt & Hm & _).
    unfold wordCountRegex, Concat in Hm. cbn [source flag_i fold_right] in Hm.
    destruct Hm as (w1 & w2 & caps1 & -> & Hm1 & _).
    apply matches_literal in Hm1.
    apply (mentions_prefix _ 9 w1 w2 _ before after Hprompt).
    rewrite toLowerCase_firstn, Hm1. reflexivity. }
  destruct (String_match mathRegex prompt) as [mathMatch|] eqn:Hmath.
  { right. apply String_match_sound in Hmath.
    destruct Hmath as (before & w & after & caps & Hprompt & Hm & _).
    unfold mathRegex, Concat in Hm. cbn [source flag_i fold_right] in Hm.
    destruct Hm as (w1 & w2 & caps1 & -> & Hm1 & _).
    apply matches_literal in Hm1.
    apply (mentions_prefix _ 8 w1 w2 _ before after Hprompt).
    rewrite toLowerCase_firstn, Hm1. reflexivity. }
  rewrite (analyzePrompt_unmatched _ Hletter Hword Hmath) in Htype. discriminate Htype.
Qed.

(** ** A judge that leaves a score out *)

Section MissingScore.

Variable World : Type.
Variable create : ChatRequest -> World -> (thrown + ChatCompletion) * World.

(** X11: on the judge path, when the judge's text parses to an object
    without an accuracy member, and the relevancy member is absent as well
    or converts to a number, [evaluateWithRubric] returns the accuracy
    [NaN], not the neutral 0.5, beside the relevancy divided by 100 and the
    parsed object as the details; and likewise with the two scores
    exchanged. *)
Theorem evaluateWithRubric_missing_score (response prompt : str) (w w1 : World)
  (evaluation : ChatCompletion) (jsonMatch : list str) (members : list (str * JSON)) :
  type (analyzePrompt prompt) = subjective ->
  create (judge_request prompt response) w = (inr evaluation, w1) ->
  String_match jsonRegex (trimmed_content evaluation) = Some jsonMatch ->
  JSON_parse (nth 0 jsonMatch []) = inr (JObject members) ->
  (lookup (lit "accuracy") members = None ->
   forall relevancy,
     ToNumber (lookup (lit "relevancy") members) = inr relevancy ->
     evaluateWithRubric create response prompt w =
       (inr {| rubric_accuracy := NaN;
               rubric_relevancy := number_div relevancy (literal "100");
               rubric_details := details_subjective (JObject members) |}, w1)) /\
  (lookup (lit "relevancy") members = None ->
   forall accuracy,
     ToNumber (lookup (lit "accuracy") members) = inr accuracy ->
     evaluateWithRubric create response prompt w =
       (inr {| rubric_accuracy := number_div accuracy (literal "100");
               rubric_relevancy := NaN;
               rubric_details := details_subjective (JObject members) |}, w1)) /\
  (lookup (lit "accuracy") members = None ->
   lookup (lit "relevancy") members = None ->
   evaluateWithRubric create response prompt w =
     (inr {| rubric_accuracy := NaN;
             rubric_relevancy := NaN;
             rubric_details := details_subjective (JObject members) |}, w1)).
Proof.
  intros Htype Hcall Hmatch Hparse.
  rewrite (evaluateWithRubric_subjective _ _ _ _ _ _ _ Htype Hcall).
  unfold rubric_of_outcome, scores_of. rewrite Hmatch, Hparse. cbn [get_property].
  split; [|split].
  - intros Haccuracy relevancy Hrelevancy. rewrite Haccuracy, Hrelevancy. reflexivity.
  - intros Hrelevancy accuracy Haccuracy. rewrite Hrelevancy, Haccuracy.
    destruct accuracy as [s|s| |s m e]; reflexivity.
  - intros Haccuracy Hrelevancy. rewrite Haccuracy, Hrelevancy. reflexivity.
Qed.

End MissingScore.

(** ** The words of a phrase *)

Lemma count_words_from_blank (b : bool) (s : str) :
  Forall (fun x => is_space x = true) s -> count_words_from b s = 0.
Proof.
  revert b. induction s as [|x s IH]; intros b Hall; [reflexivity|].
  cbn [count_words_from]. rewrite (Forall_inv Hall). apply IH. exact (Forall_inv_tail Hall).
Qed.

Lemma trimStart_blank (s : str) : Forall (fun x => is_space x = true) s -> trimStart s = [].
Proof.
  induction s as [|x s IH]; intros Hall; [reflexivity|].
  cbn [trimStart]. rewrite (Forall_inv Hall). apply IH. exact (Forall_inv_tail Hall).
Qed.

Lemma count_words_from_positive (s : str) :
  Exists (fun x => is_space x = false) s -> forall b, b = false -> 1 <= count_words_from b s.
Proof.
  induction 1 as [x s Hx|x s Hex IH]; intros b ->.
  - cbn [count_words_from]. rewrite Hx. lia.
  - cbn [count_words_from]. destruct (is_space x); [apply IH; reflexivity|lia].
Qed.

Lemma blank_or_not (s : str) :
  Forall (fun x => is_space x = true) s \/ Exists (fun x => is_space x = false) s.
Proof.
  induction s as [|x s [IH|IH]].
  - left. constructor.
  - destruct (is_space x) eqn:Hx; [left; constructor; assumption|right; constructor; exact Hx].
  - right. apply Exists_cons_tl. exact IH.
Qed.

(** The pieces that the word-count template counts: the words of the
    phrase, and one piece when there is none. *)
Lemma split_trim_length (phrase : str) :
  length (split spacesRegex (trim phrase)) = Nat.max 1 (count_words phrase).
Proof.
  destruct (blank_or_not phrase) as [Hblank|Hex].
  - unfold trim. rewrite (trimStart_blank _ Hblank). cbn [rev trimStart].
    unfold count_words. rewrite (count_words_from_blank _ _ Hblank). reflexivity.
  - rewrite (split_trim_count _ Hex).
    pose proof (count_words_from_positive _ Hex false eq_refl). unfold count_words. lia.
Qed.

(** X12: for a prompt that matches the word-count pattern and not the
    letter-count pattern, the captured phrase is not empty and holds no
    quote, and the expected count is the number of whitespace-separated
    words of the phrase, or 1 when the phrase is white space only: it is
    never 0. *)
Theorem analyzePrompt_word_count (prompt : str) (wordMatch : list str) :
  String_match letterCountRegex prompt = None ->
  String_match wordCountRegex prompt = Some wordMatch ->
  exists whole phrase,
    wordMatch = [whole; phrase] /\
    phrase <> [] /\
    Forall (fun x => is_quote x = false) phrase /\
    analyzePrompt prompt =
      {| type := objective;
         expectedAnswer :=
           Some (Number_toString (number_of_nat (Nat.max 1 (count_words phrase))));
         evaluationFunction :=
           Some (count_evaluation (number_of_nat (Nat.max 1 (count_words phrase)))) |}.
Proof.
  intros Hletter Hword.
  destruct (wordCountRegex_captures _ _ Hword) as (whole & phrase & -> & Hne & Hquotes).
  exists whole, phrase. split; [reflexivity|]. split; [exact Hne|]. split; [exact Hquotes|].
  unfold analyzePrompt. rewrite Hletter, Hword. cbn [nth].
  rewrite split_trim_length. reflexivity.
Qed.

(** ** Prompts that differ in case *)

Section Case.

Lemma to_lower_upper (x y : char) : to_lower x = to_lower y -> to_upper x = to_upper y.
Proof.
  unfold to_upper, to_lower.
  destruct (is_lower x) eqn:Hlx; destruct (is_upper x) eqn:Hux;
    destruct (is_lower y) eqn:Hly; destruct (is_upper y) eqn:Huy;
    intros; chars_to_arith; lia.
Qed.

Lemma to_lower_cases (x y : char) :
  to_lower x = to_lower y -> x = y \/ (is_alpha x = true /\ is_alpha y = true).
Proof.
  unfold to_lower, is_alpha.
  destruct (is_lower x) eqn:Hlx; destruct (is_upper x) eqn:Hux;
    destruct (is_lower y) eqn:Hly; destruct (is_upper y) eqn:Huy;
    intros H; cbn [orb]; first [right; split; reflexivity | left; chars_to_arith; lia].
Qed.


Lemma char_matches_case (c x y : char) :
  to_lower x = to_lower y -> char_matches true c x = char_matches true c y.
Proof. intros H. unfold char_matches. rewrite (to_lower_upper _ _ H). reflexivity. Qed.

Lemma class_matches_case (invert : bool) (A : char -> bool) (x y : char) :
  to_lower x = to_lower y -> class_matches true invert A x = class_matches true invert A y.
Proof. intros H. unfold class_matches. rewrite (to_lower_upper _ _ H), H. reflexivity. Qed.

Lemma toLowerCase_length (s t : str) : toLowerCase s = toLowerCase t -> length s = length t.
Proof.
  intros H. apply (f_equal (@length char)) in H. unfold toLowerCase in H.
  rewrite !length_map in H. exact H.
Qed.

Lemma consumed_case (s s' t t' : str) :
  toLowerCase s = toLowerCase s' -> toLowerCase t = toLowerCase t' ->
  toLowerCase (consumed s t) = toLowerCase (consumed s' t').
Proof.
  intros Hs Ht. unfold consumed.
  rewrite (toLowerCase_length _ _ Hs), (toLowerCase_length _ _ Ht), !toLowerCase_firstn, Hs.
  reflexivity.
Qed.

Lemma set_capture_map (w : str) (caps : captures) :
  forall i, map toLowerCase (set_capture i w caps)
            = set_capture i (toLowerCase w) (map toLowerCase caps).
Proof.
  induction caps as [|c caps IH]; intros i; [destruct i; reflexivity|].
  destruct i as [|[|j]]; [reflexivity|reflexivity|].
  change (toLowerCase c :: map toLowerCase (set_capture (S j) w caps)
          = toLowerCase c :: set_capture (S j) (toLowerCase w) (map toLowerCase caps)).
  f_equal. apply IH.
Qed.

Lemma set_capture_case (i : nat) (w w' : str) (caps caps' : captures) :
  toLowerCase w = toLowerCase w' -> map toLowerCase caps = map toLowerCase caps' ->
  map toLowerCase (set_capture i w caps) = map toLowerCase (set_capture i w' caps').
Proof. intros Hw Hc. rewrite !set_capture_map, Hw, Hc. reflexivity. Qed.

Lemma star_case (cm : char -> bool) (k k' : str -> option (list str)) :
  (forall x y, to_lower x = to_lower y -> cm x = cm y) ->
  (forall t t', toLowerCase t = toLowerCase t' -> same_result (k t) (k' t')) ->
  forall s s', toLowerCase s = toLowerCase s' -> same_result (star cm s k) (star cm s' k').
Proof.
  intros Hcm Hk. induction s as [|x s IH]; intros [|x' s'] Hs; try discriminate Hs.
  - cbn [star]. apply Hk. reflexivity.
  - cbn [toLowerCase map] in Hs. injection Hs as Hx Hs'. cbn [star].
    rewrite (Hcm _ _ Hx).
    assert (Hrest : same_result (k (x :: s)) (k' (x' :: s')))
      by (apply Hk; cbn [toLowerCase map]; rewrite Hx; f_equal; exact Hs').
    destruct (cm x'); [|exact Hrest].
    specialize (IH s' Hs'). unfold same_result in *.
    destruct (star cm s k); destruct (star cm s' k'); try discriminate IH;
      [exact IH|exact Hrest].
Qed.

(** Under the [i] flag the matcher does the same on two texts that differ
    in the case of their letters only. *)
Lemma run_case (r : regex) :
  forall (s s' : str) (caps caps' : captures) (k k' : str -> captures -> option (list str)),
  toLowerCase s = toLowerCase s' ->
  map toLowerCase caps = map toLowerCase caps' ->
  (forall t t' c c', toLowerCase t = toLowerCase t' ->
                     map toLowerCase c = map toLowerCase c' ->
                     same_result (k t c) (k' t' c')) ->
  same_result (run true r s caps k) (run true r s' caps' k').
Proof.
  induction r as [|c|invert A|r1 IH1 r2 IH2|r1 IH1 r2 IH2|r1 IH1|invert A|invert A|i r1 IH1];
    intros s s' caps caps' k k' Hs Hcaps Hk; cbn [run].
  - apply Hk; assumption.
  - destruct s as [|x s]; destruct s' as [|x' s']; try discriminate Hs; [reflexivity|].
    cbn [toLowerCase map] in Hs. injection Hs as Hx Hs'.
    rewrite (char_matches_case c _ _ Hx).
    destruct (char_matches true c x'); [apply Hk; assumption|reflexivity].
  - destruct s as [|x s]; destruct s' as [|x' s']; try discriminate Hs; [reflexivity|].
    cbn [toLowerCase map] in Hs. injection Hs as Hx Hs'.
    rewrite (class_matches_case invert A _ _ Hx).
    destruct (class_matches true invert A x'); [apply Hk; assumption|reflexivity].
  - apply IH1; [assumption|assumption|].
    intros t t' c c' Ht Hc. apply IH2; assumption.
  - specialize (IH1 s s' caps caps' k k' Hs Hcaps Hk).
    specialize (IH2 s s' caps caps' k k' Hs Hcaps Hk).
    unfold same_result in *.
    destruct (run true r1 s caps k); destruct (run true r1 s' caps' k');
      try discriminate IH1; [exact IH1|exact IH2].
  - specialize (IH1 s s' caps caps' k k' Hs Hcaps Hk).
    pose proof (Hk s s' caps caps' Hs Hcaps) as Hskip.
    unfold same_result in *.
    destruct (run true r1 s caps k); destruct (run true r1 s' caps' k');
      try discriminate IH1; [exact IH1|exact Hskip].
  - apply star_case; [apply class_matches_case| |exact Hs].
    intros t t' Ht. apply Hk; assumption.
  - destruct s as [|x s]; destruct s' as [|x' s']; try discriminate Hs; [reflexivity|].
    cbn [toLowerCase map] in Hs. injection Hs as Hx Hs'.
    rewrite (class_matches_case invert A _ _ Hx).
    destruct (class_matches true invert A x'); [|reflexivity].
    apply star_case; [apply class_matches_case| |exact Hs'].
    intros t t' Ht. apply Hk; assumption.
  - apply IH1; [assumption|assumption|].
    intros t t' c c' Ht Hc. apply Hk; [exact Ht|].
    apply set_capture_case; [|exact Hc]. apply consumed_case; assumption.
Qed.

Lemma match_here_case (re : RegExp) (s s' : str) :
  flag_i re = true -> toLowerCase s = toLowerCase s' ->
  same_result (match_here re s) (match_here re s').
Proof.
  intros Hflag Hs. unfold match_here. rewrite Hflag.
  apply run_case; [exact Hs|reflexivity|].
  intros t t' c c' Ht Hc. unfold same_result. cbn [option_map map].
  rewrite (consumed_case _ _ _ _ Hs Ht), Hc. reflexivity.
Qed.

Lemma String_match_case (re : RegExp) :
  flag_i re = true ->
  forall s s', toLowerCase s = toLowerCase s' ->
  same_result (String_match re s) (String_match re s').
Proof.
  intros Hflag. induction s as [|x s IH]; intros [|x' s'] Hs; try discriminate Hs.
  - cbn [String_match]. pose proof (match_here_case re [] [] Hflag eq_refl) as Hhere.
    destruct (match_here re []); reflexivity.
  - pose proof (match_here_case re _ _ Hflag Hs) as Hhere.
    cbn [toLowerCase map] in Hs. injection Hs as Hx Hs'.
    specialize (IH s' Hs'). cbn [String_match]. unfold same_result in *.
    destruct (match_here re (x :: s)); destruct (match_here re (x' :: s'));
      try discriminate Hhere; [exact Hhere|exact IH].
Qed.

End Case.

Lemma alpha_not_space (x : char) : is_alpha x = true -> is_space x = false.
Proof.
  intros Hx. destruct (is_space x) eqn:Hspace; [exfalso|reflexivity].
  unfold is_space in Hspace. chars_to_arith. lia.
Qed.

Lemma is_space_case (x y : char) : to_lower x = to_lower y -> is_space x = is_space y.
Proof.
  intros H. destruct (to_lower_cases _ _ H) as [->|[Hx Hy]]; [reflexivity|].
  rewrite (alpha_not_space _ Hx), (alpha_not_space _ Hy). reflexivity.
Qed.

Lemma count_words_case (s : str) :
  forall s' b, toLowerCase s = toLowerCase s' -> count_words_from b s = count_words_from b s'.
Proof.
  induction s as [|x s IH]; intros [|x' s'] b Hs; try discriminate Hs; [reflexivity|].
  cbn [toLowerCase map] in Hs. injection Hs as Hx Hs'.
  cbn [count_words_from]. rewrite (is_space_case _ _ Hx).
  rewrite (IH s' false Hs'), (IH s' true Hs'). reflexivity.
Qed.

Lemma toLowerCase_fixed (A : char -> bool) (s : str) :
  (forall x, A x = true -> is_upper x = false) ->
  Forall (fun x => A x = true) s -> toLowerCase s = s.
Proof.
  intros HA Hall. induction Hall as [|x s Hx Hall IH]; [reflexivity|].
  cbn [toLowerCase map]. unfold to_lower at 1. rewrite (HA _ Hx). f_equal. exact IH.
Qed.

Lemma digit_not_upper (x : char) : is_digit x = true -> is_upper x = false.
Proof. intros H. destruct (is_upper x) eqn:Hu; [exfalso; chars_to_arith; lia|reflexivity]. Qed.

Lemma operator_not_upper (x : char) : is_operator x = true -> is_upper x = false.
Proof. intros H. destruct (is_upper x) eqn:Hu; [exfalso; chars_to_arith; lia|reflexivity]. Qed.

Lemma nth_toLowerCase (n : nat) (l : list str) :
  toLowerCase (nth n l []) = nth n (map toLowerCase l) [].
Proof. symmetry. apply (map_nth toLowerCase l [] n). Qed.

(** X13: [analyzePrompt] does not look at the case of the ASCII letters of
    the prompt: two prompts that are equal once their ASCII letters are
    lower-cased get the same type, the same expected answer and the same
    scoring closure. *)
Theorem analyzePrompt_ignores_case (prompt prompt' : str) :
  map to_lower prompt = map to_lower prompt' ->
  analyzePrompt prompt = analyzePrompt prompt'.
Proof.
  intros Hcase. change (toLowerCase prompt = toLowerCase prompt') in Hcase.
  unfold analyzePrompt.
  pose proof (String_match_case letterCountRegex eq_refl _ _ Hcase) as Hletter.
  pose proof (String_match_case wordCountRegex eq_refl _ _ Hcase) as Hword.
  pose proof (String_match_case mathRegex eq_refl _ _ Hcase) as Hmath.
  unfold same_result in *.
  destruct (String_match letterCountRegex prompt) as [lm|];
    destruct (String_match letterCountRegex prompt') as [lm'|]; try discriminate Hletter.
  { cbn [option_map] in Hletter. injection Hletter as Hlm.
    assert (H1 : toLowerCase (nth 1 lm []) = toLowerCase (nth 1 lm' []))
      by (rewrite !nth_toLowerCase, Hlm; reflexivity).
    assert (H2 : toLowerCase (nth 2 lm []) = toLowerCase (nth 2 lm' []))
      by (rewrite !nth_toLowerCase, Hlm; reflexivity).
    rewrite H1, H2. reflexivity. }
  destruct (String_match wordCountRegex prompt) as [wm|];
    destruct (String_match wordCountRegex prompt') as [wm'|]; try discriminate Hword.
  { cbn [option_map] in Hword. injection Hword as Hwm.
    assert (H1 : toLowerCase (nth 1 wm []) = toLowerCase (nth 1 wm' []))
      by (rewrite !nth_toLowerCase, Hwm; reflexivity).
    rewrite !split_trim_length. unfold count_words.
    rewrite (count_words_case _ _ false H1). reflexivity. }
  destruct (String_match mathRegex prompt) as [mm|] eqn:Hm;
    destruct (String_match mathRegex prompt') as [mm'|] eqn:Hm'; try discriminate Hmath;
    [|reflexivity].
  cbn [option_map] in Hmath. injection Hmath as Hmm.
  destruct (mathRegex_captures _ _ Hm) as (whole & num1 & op & num2 & -> & _ & Hd1 & Hop & _ & Hd2).
  destruct (mathRegex_captures _ _ Hm')
    as (whole' & num1' & op' & num2' & -> & _ & Hd1' & Hop' & _ & Hd2').
  cbn [map] in Hmm. injection Hmm as _ Hn1 Hoperator Hn2.
  rewrite !(toLowerCase_fixed is_digit) in Hn1, Hn2 by (exact digit_not_upper || assumption).
  unfold to_lower in Hoperator.
  rewrite (operator_not_upper _ Hop), (operator_not_upper _ Hop') in Hoperator.
  cbn [nth]. rewrite Hn1, Hn2, Hoperator. reflexivity.
Qed.

(** ** Expected answers as decimal numerals *)

Section Numerals.
Local Open Scope Z_scope.

Lemma digits_of_acc (fuel : nat) :
  forall z acc, digits_of fuel z acc = digits_of fuel z [] ++ acc.
Proof.
  induction fuel as [|f IH]; intros z acc; [reflexivity|].
  cbn [digits_of]. destruct (z <? 10); [reflexivity|].
  rewrite (IH (z / 10) (_ :: acc)), (IH (z / 10) [_]), <- app_assoc. reflexivity.
Qed.

(** Fuel beyond the number of digits changes nothing. *)
Lemma digits_of_fuel (f1 : nat) :
  forall (f2 : nat) z acc,
  0 <= z < 10 ^ Z.of_nat (S f1) -> z < 10 ^ Z.of_nat (S f2) ->
  digits_of (S f1) z acc = digits_of (S f2) z acc.
Proof.
  induction f1 as [|f1 IH]; intros f2 z acc Hz1 Hz2.
  - cbn [digits_of]. replace (z <? 10) with true by (symmetry; apply Z.ltb_lt; simpl in Hz1; lia).
    reflexivity.
  - change (digits_of (S (S f1)) z acc)
      with (let acc' := Z.to_N (48 + z mod 10) :: acc in
            if z <? 10 then acc' else digits_of (S f1) (z / 10) acc').
    change (digits_of (S f2) z acc)
      with (let acc' := Z.to_N (48 + z mod 10) :: acc in
            if z <? 10 then acc' else digits_of f2 (z / 10) acc').
    cbv zeta. destruct (Z.ltb_spec z 10) as [Hlt|Hge]; [reflexivity|].
    destruct f2 as [|f2].
    { simpl in Hz2. lia. }
    apply IH.
    + split; [apply Z.div_pos; lia|]. apply Z.div_lt_upper_bound; [lia|].
      rewrite <- Z.pow_succ_r by lia. rewrite <- Nat2Z.inj_succ. lia.
    + apply Z.div_lt_upper_bound; [lia|].
      rewrite <- Z.pow_succ_r by lia. rewrite <- Nat2Z.inj_succ. lia.
Qed.

Lemma Z_digits_fuel (z : Z) : 0 <= z -> z < 10 ^ Z.of_nat (S (Z.to_nat (Z.log2 z))).
Proof.
  intros Hz. pose proof (Z.log2_nonneg z) as Hlog.
  rewrite Nat2Z.inj_succ, Z2Nat.id by exact Hlog.
  destruct (Z.eq_dec z 0) as [->|Hne].
  - simpl. lia.
  - pose proof (Z.log2_spec z ltac:(lia)) as [_ Hhi].
    assert (2 ^ Z.succ (Z.log2 z) <= 10 ^ Z.succ (Z.log2 z))
      by (apply Z.pow_le_mono_l; lia).
    lia.
Qed.

Lemma Z_digits_small (z : Z) : 0 <= z < 10 -> Z_digits z = [Z.to_N (48 + z)].
Proof.
  intros Hz. unfold Z_digits. cbn [digits_of].
  replace (z <? 10) with true by (symmetry; apply Z.ltb_lt; lia).
  rewrite Z.mod_small by lia. reflexivity.
Qed.

Lemma Z_digits_step (z : Z) :
  10 <= z -> Z_digits z = Z_digits (z / 10) ++ [Z.to_N (48 + z mod 10)].
Proof.
  intros Hz. unfold Z_digits at 1.
  change (digits_of (S (Z.to_nat (Z.log2 z))) z [])
    with (let acc' := [Z.to_N (48 + z mod 10)] in
          if z <? 10 then acc' else digits_of (Z.to_nat (Z.log2 z)) (z / 10) acc').
  cbv zeta. replace (z <? 10) with false by (symmetry; apply Z.ltb_ge; lia).
  rewrite digits_of_acc. f_equal.
  assert (Hlog : 3 <= Z.log2 z) by (apply Z.log2_le_pow2; simpl; lia).
  destruct (Z.to_nat (Z.log2 z)) as [|L] eqn:HL; [lia|].
  unfold Z_digits. apply digits_of_fuel.
  - split; [apply Z.div_pos; lia|]. apply Z.div_lt_upper_bound; [lia|].
    rewrite <- Z.pow_succ_r by lia. rewrite <- Nat2Z.inj_succ, <- HL.
    apply Z_digits_fuel. lia.
  - apply Z_digits_fuel. apply Z.div_pos; lia.
Qed.

(** Induction along the decimal digits of a natural number. *)
Lemma decimal_ind (P : Z -> Prop) :
  (forall z, 0 <= z < 10 -> P z) ->
  (forall z, 10 <= z -> P (z / 10) -> P z) ->
  forall z, 0 <= z -> P z.
Proof.
  intros Hsmall Hstep z Hz.
  apply (Z_lt_induction (fun z => 0 <= z -> P z)); [|exact Hz|exact Hz].
  clear z Hz. intros z IH Hz.
  destruct (Z_lt_le_dec z 10) as [Hlt|Hge]; [apply Hsmall; lia|].
  assert (Hdiv : 0 <= z / 10 < z) by (split; [apply Z.div_pos; lia|apply Z.div_lt; lia]).
  apply Hstep; [exact Hge|]. apply IH; lia.
Qed.

Lemma digit_char (d : Z) : 0 <= d < 10 -> is_digit (Z.to_N (48 + d)) = true.
Proof.
  intros Hd. unfold is_digit. apply andb_true_iff. split; apply N.leb_le; lia.
Qed.

Lemma digit_char_value (d : Z) : 0 <= d < 10 -> Z.of_N (Z.to_N (48 + d)) - 48 = d.
Proof. intros Hd. rewrite Z2N.id; lia. Qed.

Lemma Z_digits_are_digits (z : Z) :
  0 <= z -> Z_digits z <> [] /\ Forall (fun x => is_digit x = true) (Z_digits z).
Proof.
  revert z. apply decimal_ind.
  - intros z Hz. rewrite Z_digits_small by exact Hz. split; [discriminate|].
    constructor; [apply digit_char; exact Hz|constructor].
  - intros z Hz [Hne Hall]. rewrite Z_digits_step by exact Hz. split.
    + destruct (Z_digits (z / 10)); [contradiction|discriminate].
    + apply Forall_app. split; [exact Hall|].
      constructor; [apply digit_char; apply Z.mod_pos_bound; lia|constructor].
Qed.

Lemma take_digits_app (s : str) (d : Z) :
  Forall (fun x => is_digit x = true) s -> 0 <= d < 10 ->
  forall acc n,
  fst (fst (take_digits 10 acc n (s ++ [Z.to_N (48 + d)])))
  = fst (fst (take_digits 10 acc n s)) * 10 + d.
Proof.
  intros Hall Hd. induction Hall as [|c s Hc Hs IH]; intros acc n.
  - cbn [app take_digits].
    destruct (digit_in_digit _ (digit_char d Hd)) as [Hdigit _].
    rewrite Hdigit, digit_char_value by exact Hd. reflexivity.
  - cbn [app take_digits]. destruct (digit_in_digit c Hc) as [Hdigit _].
    rewrite Hdigit. apply IH.
Qed.

(** The decimal digits of a natural number read back as the number. *)
Lemma digits_value_Z_digits (z : Z) : 0 <= z -> digits_value (Z_digits z) = z.
Proof.
  revert z. apply decimal_ind.
  - intros z Hz. rewrite Z_digits_small by exact Hz. unfold digits_value. cbn [take_digits].
    destruct (digit_in_digit _ (digit_char z Hz)) as [Hdigit _].
    rewrite Hdigit, digit_char_value by exact Hz. reflexivity.
  - intros z Hz IH. rewrite Z_digits_step by exact Hz. unfold digits_value in *.
    rewrite take_digits_app.
    + rewrite IH. pose proof (Z.div_mod z 10 ltac:(lia)). lia.
    + apply Z_digits_are_digits. apply Z.div_pos; lia.
    + apply Z.mod_pos_bound. lia.
Qed.

Lemma zeros_succ (j : Z) : 0 <= j -> zeros (j + 1) = zeros j ++ [48%N].
Proof.
  intros Hj. unfold zeros. rewrite Z2Nat.inj_add by lia.
  change (Z.to_nat 1) with 1%nat. rewrite Nat.add_comm. cbn [repeat Nat.add].
  apply repeat_cons.
Qed.

Lemma Z_digits_mul_pow10 (s j : Z) :
  0 < s -> 0 <= j -> Z_digits (s * 10 ^ j) = Z_digits s ++ zeros j.
Proof.
  intros Hs Hj. revert j Hj. apply natlike_ind.
  - rewrite Z.mul_1_r. symmetry. apply app_nil_r.
  - intros j Hj IH. unfold Z.succ. rewrite zeros_succ, Z.pow_add_r by lia.
    assert (Hpow : 0 < 10 ^ j) by (apply Z.pow_pos_nonneg; lia).
    rewrite Z_digits_step by nia.
    replace (s * (10 ^ j * 10 ^ 1)) with (s * 10 ^ j * 10) by ring.
    rewrite Z.div_mul, Z.mod_mul by lia. rewrite IH, <- app_assoc. reflexivity.
Qed.

(** The number of decimal digits of a positive number. *)
Lemma Z_digits_length (z : Z) :
  0 < z ->
  10 ^ (Z.of_nat (length (Z_digits z)) - 1) <= z < 10 ^ Z.of_nat (length (Z_digits z)).
Proof.
  intros Hz. assert (H0 : 0 <= z) by lia. revert z H0 Hz. apply (decimal_ind (fun z => 0 < z -> _)).
  - intros z Hz Hpos. rewrite Z_digits_small by exact Hz. cbn [length]. simpl. lia.
  - intros z Hz IH _. rewrite Z_digits_step by exact Hz.
    rewrite length_app. cbn [length]. rewrite Nat2Z.inj_add. change (Z.of_nat 1) with 1.
    assert (Hdiv : 0 < z / 10) by (apply Z.div_str_pos; lia).
    specialize (IH Hdiv). set (n := Z.of_nat (length (Z_digits (z / 10)))) in *.
    assert (Hn : 1 <= n).
    { destruct (Z_lt_le_dec n 1) as [Hlt|Hge]; [|exact Hge]. exfalso.
      assert (n = 0) by lia. replace n with 0 in IH by lia. simpl in IH. lia. }
    replace (n + 1 - 1) with (n - 1 + 1) by lia.
    rewrite !Z.pow_add_r by lia. change (10 ^ 1) with 10.
    pose proof (Z.div_mod z 10 ltac:(lia)) as Hdm.
    pose proof (Z.mod_pos_bound z 10 ltac:(lia)) as Hmod.
    destruct IH as [Hlo Hhi]. split; nia.
Qed.

Lemma number_same_eq (x y : number) : number_same x y = true <-> x = y.
Proof.
  split.
  - destruct x as [a|a| |a m e]; destruct y as [b|b| |b m' e']; try discriminate; cbn [number_same].
    + intros H. apply eqb_prop in H. congruence.
    + intros H. apply eqb_prop in H. congruence.
    + reflexivity.
    + rewrite !andb_true_iff. intros [[Hs Hm] He].
      apply eqb_prop in Hs. apply Pos.eqb_eq in Hm. apply Z.eqb_eq in He. congruence.
  - intros <-. destruct x as [a|a| |a m e]; cbn [number_same]; rewrite ?eqb_reflx;
      try reflexivity.
    rewrite Pos.eqb_refl, Z.eqb_refl. reflexivity.
Qed.

(** A natural below 2^53 is the only natural its number stands for. *)
Lemma number_of_Z_injective (v n : Z) :
  0 <= v -> 0 <= n < 2 ^ 53 -> number_of_Z v = number_of_Z n -> v = n.
Proof.
  intros Hv Hn Heq. apply (strict_eq_integers v n Hv Hn).
  rewrite Heq. unfold number_strict_eq. rewrite (number_of_Z_integer n) by lia.
  destruct n as [|b|b]; try lia; [reflexivity|apply SFeqb_finite_refl].
Qed.

Section Shortest.

Variable c : positive.
Hypothesis Hc : Zpos c < 2 ^ 53.

Local Abbreviation m := (mantissa_of c).
Local Abbreviation e := (exponent_of c).
Local Abbreviation D := (decimal_length c).

Lemma mantissa_scaled : Zpos m = Zpos c * 2 ^ (- e) /\ e <= 0.
Proof.
  pose proof (exponent_of_nonpos c Hc) as He. split; [|exact He].
  rewrite mantissa_of_value by exact Hc. unfold exponent_of. f_equal. f_equal. lia.
Qed.

Lemma decimal_length_bounds : 1 <= D <= 16 /\ 10 ^ (D - 1) <= Zpos c < 10 ^ D.
Proof.
  pose proof (Z_digits_length (Zpos c) ltac:(lia)) as Hlen. fold D in Hlen.
  split; [|exact Hlen].
  assert (H1 : 1 <= D).
  { destruct (Z_lt_le_dec D 1) as [Hlt|Hge]; [|exact Hge]. exfalso.
    assert (D = 0) by (unfold decimal_length in *; lia). replace D with 0 in Hlen by lia. simpl in Hlen. lia. }
  split; [exact H1|].
  destruct (Z_lt_le_dec 16 D) as [Hgt|Hle]; [|exact Hle]. exfalso.
  assert (10 ^ 16 <= 10 ^ (D - 1)) by (apply Z.pow_le_mono_r; lia).
  assert (2 ^ 53 < 10 ^ 16) by reflexivity. lia.
Qed.

Lemma lt_pow10_integer (n : Z) :
  lt_pow10 m e n = (0 <? n) && (Zpos c <? 10 ^ n).
Proof.
  destruct mantissa_scaled as [Hm He]. unfold lt_pow10. rewrite Hm.
  rewrite (Z.max_r e 0), (Z.max_l (- e) 0) by lia. rewrite Z.pow_0_r, Z.mul_1_r.
  assert (Hp : 0 < 2 ^ (- e)) by (apply Z.pow_pos_nonneg; lia).
  destruct (Z.ltb_spec 0 n) as [Hn|Hn]; cbn [andb].
  - rewrite (Z.max_r (- n) 0), (Z.max_l n 0) by lia. rewrite Z.pow_0_r, Z.mul_1_r.
    destruct (Z.ltb_spec (Zpos c) (10 ^ n)); [apply Z.ltb_lt|apply Z.ltb_ge]; nia.
  - rewrite (Z.max_l (- n) 0), (Z.max_r n 0) by lia. rewrite Z.pow_0_r, Z.mul_1_l.
    assert (0 < 10 ^ (- n)) by (apply Z.pow_pos_nonneg; lia).
    apply Z.ltb_ge. nia.
Qed.

Lemma magnitude10_integer (fuel : nat) :
  forall n0, n0 <= D -> D - n0 < Z.of_nat fuel -> magnitude10 fuel m e n0 = D.
Proof.
  destruct decimal_length_bounds as [HD [Hlo Hhi]].
  induction fuel as [|f IH]; intros n0 Hn0 Hfuel; [lia|].
  cbn [magnitude10]. rewrite lt_pow10_integer.
  destruct (Z.eq_dec n0 D) as [->|Hne].
  - replace (0 <? D) with true by (symmetry; apply Z.ltb_lt; lia).
    replace (Zpos c <? 10 ^ D) with true by (symmetry; apply Z.ltb_lt; lia).
    reflexivity.
  - replace ((0 <? n0) && (Zpos c <? 10 ^ n0)) with false; [apply IH; lia|].
    symmetry. apply andb_false_iff.
    destruct (Z.ltb_spec 0 n0) as [Hpos|Hneg]; [right|left; reflexivity].
    apply Z.ltb_ge. assert (10 ^ n0 <= 10 ^ (D - 1)) by (apply Z.pow_le_mono_r; lia). lia.
Qed.

Lemma decimal_value_natural (z j : Z) :
  0 < z -> 0 <= j -> decimal_value false z j = number_of_Z (z * 10 ^ j).
Proof.
  intros Hz Hj. unfold decimal_value. destruct z as [|p|p]; try lia.
  replace (0 <=? j) with true by (symmetry; apply Z.leb_le; lia). reflexivity.
Qed.

Lemma shortest_integer (fuel : nat) :
  forall k, 1 <= k <= D -> D - k < Z.of_nat fuel ->
  exists s j, shortest fuel m e D k = (s, D) /\ 0 < s /\ 0 <= j /\ Zpos c = s * 10 ^ j.
Proof.
  destruct mantissa_scaled as [Hm He]. destruct decimal_length_bounds as [HD [Hlo Hhi]].
  assert (Hp : 0 < 2 ^ (- e)) by (apply Z.pow_pos_nonneg; lia).
  induction fuel as [|f IH]; intros k Hk Hfuel; [lia|].
  set (T := 10 ^ (D - k)).
  assert (HT : 0 < T) by (apply Z.pow_pos_nonneg; lia).
  assert (Hpow : 10 ^ D = 10 ^ k * T)
    by (unfold T; rewrite <- Z.pow_add_r by lia; f_equal; lia).
  assert (HTle : T <= 10 ^ (D - 1)) by (apply Z.pow_le_mono_r; lia).
  assert (Hlo' : 0 < Zpos c / T) by (apply Z.div_str_pos; lia).
  pose proof (Z.div_mod (Zpos c) T ltac:(lia)) as Hdm.
  pose proof (Z.mod_pos_bound (Zpos c) T HT) as Hmod.
  cbn [shortest]. cbv zeta.
  rewrite (Z.max_r e 0), (Z.max_l (- e) 0), (Z.max_r (k - D) 0), (Z.max_l (D - k) 0) by lia.
  rewrite !Z.pow_0_r, !Z.mul_1_r. fold T.
  replace (Zpos m / (2 ^ (- e) * T)) with (Zpos c / T)
    by (rewrite Hm, (Z.mul_comm (2 ^ (- e)) T), Z.div_mul_cancel_r by lia; reflexivity).
  rewrite !decimal_value_natural by lia. fold T.
  change (S754_finite false m e) with (integer_number false c).
  rewrite <- (number_of_Z_pos c Hc).
  assert (Hhi_no : number_same (number_of_Z ((Zpos c / T + 1) * T)) (number_of_Z (Zpos c)) = false).
  { apply not_true_is_false. intros Hsame.
    apply number_same_eq in Hsame. apply number_of_Z_injective in Hsame; nia. }
  rewrite Hhi_no, andb_false_r.
  destruct (Z.eq_dec (Zpos c mod T) 0) as [Hzero|Hrest].
  - replace (Zpos c / T * T) with (Zpos c) by lia.
    replace (number_same (number_of_Z (Zpos c)) (number_of_Z (Zpos c))) with true
      by (symmetry; apply number_same_eq; reflexivity).
    replace (Zpos c / T =? 10 ^ k) with false by (symmetry; apply Z.eqb_neq; nia).
    exists (Zpos c / T), (D - k). repeat split; try lia.
  - assert (Hlo_no : number_same (number_of_Z (Zpos c / T * T)) (number_of_Z (Zpos c)) = false).
    { apply not_true_is_false. intros Hsame.
      apply number_same_eq in Hsame. apply number_of_Z_injective in Hsame; nia. }
    rewrite Hlo_no.
    assert (Hk' : k < D).
    { destruct (Z.eq_dec k D) as [Heq|]; [|lia]. exfalso. apply Hrest.
      unfold T. rewrite Heq, Z.sub_diag. apply Z.mod_1_r. }
    apply IH; lia.
Qed.

Lemma Number_toString_natural :
  Number_toString (integer_number false c) = Z_digits (Zpos c) /\
  Number_toString (integer_number true c) = lit "-" ++ Z_digits (Zpos c).
Proof.
  destruct decimal_length_bounds as [HD [Hlo Hhi]].
  destruct (shortest_integer 17 1 ltac:(lia) ltac:(lia)) as (s & j & Hshort & Hs & Hj & Hsj).
  assert (Hds : Z_digits (Zpos c) = Z_digits s ++ zeros j)
    by (rewrite Hsj; apply Z_digits_mul_pow10; assumption).
  assert (Hlen : Z.of_nat (length (Z_digits s)) + j = D).
  { unfold decimal_length. rewrite Hds, length_app. unfold zeros. rewrite repeat_length. lia. }
  unfold Number_toString, integer_number.
  rewrite (magnitude10_integer 640 (-324)) by lia.
  rewrite Hshort.
  replace ((Z.of_nat (length (Z_digits s)) <=? D) && (D <=? 21)) with true
    by (symmetry; apply andb_true_iff; split; apply Z.leb_le; lia).
  replace (D - Z.of_nat (length (Z_digits s))) with j by lia.
  rewrite <- Hds. split; reflexivity.
Qed.

End Shortest.

(** [toString] of an integer below 2^53 in magnitude is its decimal
    numeral. *)
Lemma Number_toString_integer (z : Z) :
  Z.abs z < 2 ^ 53 -> Number_toString (number_of_Z z) = Z_string z.
Proof.
  intros Hz. rewrite number_of_Z_integer by exact Hz. destruct z as [|c|c].
  - reflexivity.
  - apply (Number_toString_natural c). lia.
  - apply (Number_toString_natural c). lia.
Qed.

End Numerals.

Section ReadingNumerals.
Local Open Scope Z_scope.

(** A greedy repetition before a continuation that succeeds where the run
    ends stops there. *)
Lemma star_greedy (R : Type) (cm : char -> bool) (k : str -> option R) (res : R)
  (w rest : str) :
  Forall (fun x => cm x = true) w ->
  match rest with x :: _ => cm x = false | [] => True end ->
  k rest = Some res ->
  star cm (w ++ rest) k = Some res.
Proof.
  intros Hw Hrest Hk. induction Hw as [|x w Hx Hw IH].
  - cbn [app]. destruct rest as [|y rest]; [exact Hk|].
    cbn [star]. rewrite Hrest. exact Hk.
  - cbn [app star]. rewrite Hx, IH. reflexivity.
Qed.

Lemma starts_with_digit_head (s : str) :
  starts_with_digit s = false -> match s with x :: _ => is_digit x = false | [] => True end.
Proof. destruct s; [trivial|intros H; exact H]. Qed.

(** [/\d+/] finds the first run of digits of a text. *)
Lemma String_match_digits_first (before ds after : str) :
  has_digit before = false -> ds <> [] -> Forall (fun x => is_digit x = true) ds ->
  starts_with_digit after = false ->
  String_match digitsRegex (before ++ ds ++ after) = Some [ds].
Proof.
  intros Hbefore Hne Hds Hafter. induction before as [|x before IH].
  - cbn [app]. destruct ds as [|d ds]; [contradiction|].
    cbn [app String_match]. unfold match_here.
    cbn [run digitsRegex source flag_i class_matches xorb ngroups repeat].
    rewrite (Forall_inv Hds).
    rewrite (star_greedy _ _ _ [d :: ds] ds after); [reflexivity| | |].
    + exact (Forall_inv_tail Hds).
    + apply starts_with_digit_head. exact Hafter.
    + change (d :: ds ++ after) with ((d :: ds) ++ after).
      rewrite (consumed_app (d :: ds) after). reflexivity.
  - cbn [has_digit existsb] in Hbefore. apply orb_false_iff in Hbefore.
    destruct Hbefore as [Hx Hbefore]. cbn [app String_match].
    destruct (match_here digitsRegex (x :: before ++ ds ++ after)) as [res|] eqn:Hhere.
    + assert (Hsome : match_here digitsRegex (x :: before ++ ds ++ after) <> None)
        by (rewrite Hhere; discriminate).
      apply match_here_digits in Hsome. congruence.
    + apply IH. exact Hbefore.
Qed.

Lemma match_here_number_none (x : char) (s : str) :
  is_digit x = false -> (x = ch "-" -> starts_with_digit s = false) ->
  match_here numberRegex (x :: s) = None.
Proof.
  intros Hx Hminus. unfold match_here.
  change (source numberRegex)
    with (Seq (Opt (Char (ch "-")))
            (Concat [Plus false is_digit; Opt (Char (ch ".")); Star false is_digit])).
  cbn [run flag_i numberRegex char_matches ngroups repeat Concat fold_right class_matches xorb].
  rewrite Hx. destruct (N.eqb_spec x (ch "-")) as [Heq|Hneq]; [|reflexivity].
  specialize (Hminus Heq). destruct s as [|y s]; [reflexivity|].
  cbn [starts_with_digit] in Hminus. rewrite Hminus. reflexivity.
Qed.

(** The pattern from the digits on, at a run of digits that the text after
    does not continue. *)
Lemma run_number_digits (whole ds after : str) :
  ds <> [] -> Forall (fun x => is_digit x = true) ds ->
  continues_number after = false ->
  run false (Concat [Plus false is_digit; Opt (Char (ch ".")); Star false is_digit])
    (ds ++ after) [] (fun s' caps => Some (consumed whole s' :: caps))
  = Some [consumed whole (skipn (length (dot_of after)) after)].
Proof.
  intros Hne Hds Hafter. destruct ds as [|d ds]; [contradiction|].
  cbn [Concat fold_right run class_matches xorb app]. rewrite (Forall_inv Hds).
  apply star_greedy; [exact (Forall_inv_tail Hds)| |].
  - destruct after as [|x after]; [exact I|].
    cbn [continues_number] in Hafter. apply orb_false_iff in Hafter. apply Hafter.
  - destruct after as [|x after]; [reflexivity|].
    cbn [continues_number] in Hafter. apply orb_false_iff in Hafter.
    destruct Hafter as [Hx Hdot]. cbn [dot_of char_matches].
    destruct (N.eqb x (ch ".")); [|cbn [length skipn star class_matches xorb]; rewrite Hx; reflexivity].
    cbn [andb] in Hdot. cbn [length skipn].
    destruct after as [|y after]; [reflexivity|].
    cbn [starts_with_digit] in Hdot. cbn [star class_matches xorb]. rewrite Hdot. reflexivity.
Qed.

Lemma consumed_skipn (w after : str) (n : nat) :
  (n <= length after)%nat -> consumed (w ++ after) (skipn n after) = w ++ firstn n after.
Proof.
  intros Hn. rewrite <- (firstn_skipn n after) at 1. rewrite app_assoc.
  apply consumed_app.
Qed.

Lemma dot_of_prefix (after : str) :
  firstn (length (dot_of after)) after = dot_of after /\
  (length (dot_of after) <= length after)%nat /\
  (dot_of after = [] \/ dot_of after = lit ".").
Proof.
  destruct after as [|x after]; [repeat split; [apply le_n|left; reflexivity]|].
  cbn [dot_of]. destruct (N.eqb_spec x (ch ".")) as [->|_].
  - repeat split; [cbn [length]; lia|right; reflexivity].
  - repeat split; [cbn [length]; lia|left; reflexivity].
Qed.

(** [/-?\d+\.?\d*/] finds the first numeral of a text, with the dot
    after it when there is one. *)
Lemma String_match_number_first (neg : bool) (before ds after : str) :
  has_digit before = false -> (neg = false -> ends_with_minus before = false) ->
  ds <> [] -> Forall (fun x => is_digit x = true) ds ->
  continues_number after = false ->
  String_match numberRegex (before ++ ((if neg then lit "-" else []) ++ ds) ++ after)
  = Some [(if neg then lit "-" else []) ++ ds ++ dot_of after].
Proof.
  intros Hbefore Hminus Hne Hds Hafter.
  destruct (dot_of_prefix after) as (Hprefix & Hlength & _).
  induction before as [|x before IH].
  - cbn [app]. destruct ds as [|d ds]; [contradiction|].
    pose proof (Forall_inv Hds) as Hd. cbn beta in Hd.
    destruct neg; cbn [app lit].
    + cbn [String_match]. unfold match_here.
      change (source numberRegex)
        with (Seq (Opt (Char (ch "-")))
                (Concat [Plus false is_digit; Opt (Char (ch ".")); Star false is_digit])).
      cbn [run flag_i numberRegex char_matches ngroups repeat].
      change (ch "-" =? ch "-")%N with true. cbv iota.
      change (d :: ds ++ after) with ((d :: ds) ++ after).
      rewrite run_number_digits by assumption.
      change (ch "-" :: (d :: ds) ++ after) with ((ch "-" :: d :: ds) ++ after).
      rewrite consumed_skipn, Hprefix by exact Hlength. reflexivity.
    + cbn [String_match]. unfold match_here.
      change (source numberRegex)
        with (Seq (Opt (Char (ch "-")))
                (Concat [Plus false is_digit; Opt (Char (ch ".")); Star false is_digit])).
      cbn [run flag_i numberRegex char_matches ngroups repeat].
      replace (d =? ch "-")%N with false
        by (symmetry; apply N.eqb_neq; intros ->; discriminate Hd).
      change (d :: ds ++ after) with ((d :: ds) ++ after).
      rewrite run_number_digits by assumption.
      rewrite consumed_skipn, Hprefix by exact Hlength. reflexivity.
  - cbn [has_digit existsb] in Hbefore. apply orb_false_iff in Hbefore.
    destruct Hbefore as [Hx Hbefore]. cbn [app String_match].
    rewrite match_here_number_none.
    + apply IH; [exact Hbefore|].
      intros Hneg. specialize (Hminus Hneg). destruct before; [reflexivity|exact Hminus].
    + exact Hx.
    + intros ->. destruct before as [|y before].
      * cbn [app]. destruct neg; [reflexivity|].
        specialize (Hminus eq_refl). discriminate Hminus.
      * cbn [has_digit existsb] in Hbefore. apply orb_false_iff in Hbefore.
        cbn [app starts_with_digit]. apply Hbefore.
Qed.

Lemma starts_with_other (p s : str) (x y : char) :
  x <> y -> starts_with (x :: p) (y :: s) = false.
Proof.
  intros Hxy. unfold starts_with. apply not_true_is_false. intros H.
  apply str_eqb_eq in H. cbn [length firstn] in H. injection H as Hy _. congruence.
Qed.

Lemma digits_value_all (s : str) :
  Forall (fun x => is_digit x = true) s ->
  take_digits 10 0 0 s = (digits_value s, Z.of_nat (length s), []) /\ 0 <= digits_value s.
Proof.
  intros Hall. destruct (take_digits_all s Hall 0 0 ltac:(lia)) as (v & Hv & Hpos).
  unfold digits_value. rewrite Hv. cbn [fst]. split; [reflexivity|exact Hpos].
Qed.

Lemma parseFloat_signed_digits (neg : bool) (s : str) :
  s <> [] -> Forall (fun x => is_digit x = true) s ->
  parseFloat ((if neg then lit "-" else []) ++ s) = decimal_value neg (digits_value s) 0.
Proof.
  intros Hne Hall. destruct s as [|x s]; [contradiction|].
  pose proof (Forall_inv Hall) as Hx. cbn beta in Hx.
  destruct (digits_value_all _ Hall) as [Htake Hpos].
  assert (Hdecimal : take_decimal (x :: s) = Some (digits_value (x :: s), 0, [])).
  { unfold take_decimal. rewrite Htake.
    replace (Z.of_nat (length (x :: s)) =? 0) with false
      by (symmetry; apply Z.eqb_neq; cbn [length]; lia).
    reflexivity. }
  assert (Hinf : starts_with (lit "Infinity") (x :: s) = false)
    by (apply starts_with_other; intros <-; discriminate Hx).
  assert (Hsign : take_sign (trimStart ((if neg then lit "-" else []) ++ x :: s))
                  = (neg, x :: s)).
  { destruct neg; cbn [app lit trimStart].
    - reflexivity.
    - rewrite (digit_not_space x Hx). cbn [take_sign]. rewrite (digit_not_sign x Hx).
      reflexivity. }
  unfold parseFloat. rewrite Hsign, Hinf, Hdecimal. reflexivity.
Qed.

(** [parseFloat] reads the decimal numeral of an integer as the number
    nearest to the integer. *)
Lemma parseFloat_Z_string (z : Z) : parseFloat (Z_string z) = number_of_Z z.
Proof.
  unfold Z_string.
  destruct (Z_digits_are_digits (Z.abs z) (Z.abs_nonneg z)) as [Hne Hall].
  rewrite (parseFloat_signed_digits (z <? 0)) by assumption.
  rewrite digits_value_Z_digits by apply Z.abs_nonneg.
  unfold decimal_value, number_of_Z. destruct z as [|p|p]; cbn [Z.abs Z.ltb Z.compare].
  - reflexivity.
  - cbn [Z.leb Z.compare]. rewrite Z.pow_0_r, Z.mul_1_r. reflexivity.
  - cbn [Z.leb Z.compare]. rewrite Z.pow_0_r, Z.mul_1_r. reflexivity.
Qed.

Lemma digit_in_other (c : char) : is_digit c = false -> digit_in 10 c = None.
Proof.
  intros Hc. unfold digit_in. rewrite Hc.
  destruct (is_lower c) eqn:Hlower.
  - unfold is_lower in Hlower. apply andb_true_iff in Hlower. destruct Hlower as [Hlo _].
    apply N.leb_le in Hlo. replace (Z.of_N c - 87 <? 10) with false; [reflexivity|].
    symmetry. apply Z.ltb_ge. lia.
  - destruct (is_upper c) eqn:Hupper; [|reflexivity].
    unfold is_upper in Hupper. apply andb_true_iff in Hupper. destruct Hupper as [Hlo _].
    apply N.leb_le in Hlo. replace (Z.of_N c - 55 <? 10) with false; [reflexivity|].
    symmetry. apply Z.ltb_ge. lia.
Qed.

Lemma take_digits_run (s rest : str) :
  Forall (fun x => is_digit x = true) s ->
  starts_with_digit rest = false ->
  forall acc n,
  take_digits 10 acc n (s ++ rest)
  = (fst (fst (take_digits 10 acc n s)), n + Z.of_nat (length s), rest).
Proof.
  intros Hall Hrest. induction Hall as [|c s Hc Hs IH]; intros acc n.
  - cbn [app length take_digits fst]. rewrite Z.add_0_r.
    destruct rest as [|y rest]; [reflexivity|].
    cbn [starts_with_digit] in Hrest. cbn [take_digits].
    rewrite (digit_in_other y Hrest). reflexivity.
  - cbn [app take_digits]. destruct (digit_in_digit c Hc) as [Hdigit _].
    rewrite Hdigit, IH. f_equal. f_equal. cbn [length]. lia.
Qed.

(** [parseFloat] on the digits of a numeral, signed or not, and a dot. *)
Lemma parseFloat_signed_digits_dot (neg : bool) (s : str) :
  s <> [] -> Forall (fun x => is_digit x = true) s ->
  parseFloat ((if neg then lit "-" else []) ++ s ++ lit ".")
  = decimal_value neg (digits_value s) 0.
Proof.
  intros Hne Hall. destruct s as [|x s]; [contradiction|].
  pose proof (Forall_inv Hall) as Hx. cbn beta in Hx.
  assert (Hdecimal : take_decimal ((x :: s) ++ lit ".") = Some (digits_value (x :: s), 0, [])).
  { unfold take_decimal. rewrite (take_digits_run _ (lit ".") Hall) by reflexivity.
    cbn [lit]. change (N.eqb (ch ".") 46) with true. cbv iota. cbn [take_digits].
    replace (0 + Z.of_nat (length (x :: s)) =? 0) with false
      by (symmetry; apply Z.eqb_neq; cbn [length]; lia).
    reflexivity. }
  assert (Hinf : starts_with (lit "Infinity") ((x :: s) ++ lit ".") = false)
    by (apply starts_with_other; intros <-; discriminate Hx).
  assert (Hsign : take_sign (trimStart ((if neg then lit "-" else []) ++ (x :: s) ++ lit "."))
                  = (neg, (x :: s) ++ lit ".")).
  { destruct neg; cbn [app lit trimStart].
    - reflexivity.
    - rewrite (digit_not_space x Hx). cbn [take_sign]. rewrite (digit_not_sign x Hx).
      reflexivity. }
  unfold parseFloat. rewrite Hsign, Hinf, Hdecimal. reflexivity.
Qed.

(** An integer from 2^53 on in magnitude, scaled to an exponent, rounds to
    a number with a positive exponent or to an infinity. *)
Lemma binary_normalize_large (z E : Z) :
  2 ^ 53 <= Z.abs z -> -1074 <= E <= 0 ->
  (exists s m e, binary_normalize 53 1024 (z * 2 ^ (- E)) E false = S754_finite s m e /\ 1 <= e) \/
  (exists s, binary_normalize 53 1024 (z * 2 ^ (- E)) E false = S754_infinity s).
Proof.
  intros Hz HE.
  assert (Hpow : 0 < 2 ^ (- E)) by (apply Z.pow_pos_nonneg; lia).
  assert (Hround : forall (s : bool) (M : positive),
            2 ^ 53 * 2 ^ (- E) <= Zpos M ->
            (exists m e, binary_round 53 1024 s M E = S754_finite s m e /\ 1 <= e) \/
            binary_round 53 1024 s M E = S754_infinity s).
  { intros s M HM. pose proof (digits2_pos_bounds M) as [_ Hhi].
    assert (Hd : 54 - E <= Zpos (digits2_pos M)).
    { destruct (Z.leb_spec (54 - E) (Zpos (digits2_pos M))) as [|Hlt]; [assumption|].
      assert (2 ^ Zpos (digits2_pos M) <= 2 ^ (53 - E)) by (apply Z.pow_le_mono_r; lia).
      rewrite <- Z.pow_add_r in HM by lia. replace (53 + - E) with (53 - E) in HM by lia. lia. }
    unfold binary_round, shl_align. rewrite fexp_binary64.
    destruct (Z.max (Zpos (digits2_pos M) + E - 53) (-1074) - E) as [|k|k] eqn:Hk; try lia.
    destruct (binary_round_aux_positive s M E) as [(m & e & Hr & _ & He)|Hr]; [lia| |].
    - left. exists m, e. split; [exact Hr|]. rewrite fexp_binary64 in He. lia.
    - right. exact Hr. }
  unfold binary_normalize. destruct z as [|c|c]; [simpl in Hz; lia| |].
  - destruct (Zpos c * 2 ^ (- E)) as [|M|M] eqn:HM; try lia.
    destruct (Hround false M) as [(m & e & Hr)|Hr]; [simpl in Hz; nia| |].
    + left. exists false, m, e. exact Hr.
    + right. exists false. exact Hr.
  - destruct (Zneg c * 2 ^ (- E)) as [|M|M] eqn:HM; try lia.
    destruct (Hround true M) as [(m & e & Hr)|Hr]; [simpl in Hz; nia| |].
    + left. exists true, m, e. exact Hr.
    + right. exists true. exact Hr.
Qed.

(** A finite number with an exponent from -52 on, and an infinity, are not
    within the tolerance of 0. *)
Lemma not_within_tolerance (x : number) :
  (exists s m e, x = S754_finite s m e /\ -52 <= e) \/ (exists s, x = S754_infinity s) ->
  number_lt (Math_abs x) tolerance = false.
Proof.
  intros [(s & m & e & -> & He)|(s & ->)]; [|reflexivity].
  unfold number_lt, SFltb, Math_abs, SFabs, SFcompare, tolerance.
  replace (e ?= -59) with Gt by (symmetry; apply Z.compare_gt_iff; lia). reflexivity.
Qed.

Lemma exponent_of_lower (c : positive) : -52 <= exponent_of c.
Proof. unfold exponent_of. lia. Qed.

(** The difference of two integers below 2^53 in magnitude is within the
    tolerance of the arithmetic template exactly when they are equal. *)
Lemma integers_within_tolerance (a r : Z) :
  Z.abs a < 2 ^ 53 -> Z.abs r < 2 ^ 53 ->
  number_lt (Math_abs (number_sub (number_of_Z a) (number_of_Z r))) tolerance = true <-> a = r.
Proof.
  intros Ha Hr.
  assert (Hcases : (Z.abs (a - r) < 2 ^ 53 /\
                    number_sub (number_of_Z a) (number_of_Z r) = number_of_Z (a - r)) \/
                   number_lt (Math_abs (number_sub (number_of_Z a) (number_of_Z r))) tolerance
                     = false /\ a <> r).
  { rewrite (number_of_Z_integer a), (number_of_Z_integer r) by assumption.
    destruct a as [|ca|ca]; destruct r as [|cr|cr]; unfold number_sub.
    - left. split; [lia|reflexivity].
    - left. split; [lia|]. cbn [Z.sub Z.add Z.opp].
      rewrite number_of_Z_neg by lia. reflexivity.
    - left. split; [lia|]. cbn [Z.sub Z.add Z.opp].
      rewrite number_of_Z_pos by lia. reflexivity.
    - left. split; [lia|]. rewrite Z.sub_0_r.
      rewrite number_of_Z_pos by lia. reflexivity.
    - left. split; [lia|].
      apply (SFsub_integers false false); cbn [cond_Zopp]; lia.
    - destruct (Z_lt_le_dec (Z.abs (Zpos ca - Zneg cr)) (2 ^ 53)) as [Hsmall|Hlarge].
      + left. split; [exact Hsmall|].
        apply (SFsub_integers false true); cbn [cond_Zopp]; lia.
      + right. split; [|lia]. apply not_within_tolerance.
        unfold integer_number, SFsub.
        pose proof (exponent_of_nonpos ca ltac:(lia)).
        pose proof (exponent_of_nonpos cr ltac:(lia)).
        pose proof (exponent_of_lower ca). pose proof (exponent_of_lower cr).
        rewrite !aligned_integer by (lia).
        rewrite !cond_Zopp_mul, <- Z.mul_sub_distr_r.
        destruct (binary_normalize_large (cond_Zopp false (Zpos ca) - cond_Zopp true (Zpos cr))
                    (Z.min (exponent_of ca) (exponent_of cr)))
          as [(s & m & e & Hn & He)|(s & Hn)]; [cbn [cond_Zopp]; lia|lia| |].
        * left. exists s, m, e. split; [exact Hn|lia].
        * right. exists s. exact Hn.
    - left. split; [lia|]. rewrite Z.sub_0_r.
      rewrite number_of_Z_neg by lia. reflexivity.
    - destruct (Z_lt_le_dec (Z.abs (Zneg ca - Zpos cr)) (2 ^ 53)) as [Hsmall|Hlarge].
      + left. split; [exact Hsmall|].
        apply (SFsub_integers true false); cbn [cond_Zopp]; lia.
      + right. split; [|lia]. apply not_within_tolerance.
        unfold integer_number, SFsub.
        pose proof (exponent_of_nonpos ca ltac:(lia)).
        pose proof (exponent_of_nonpos cr ltac:(lia)).
        pose proof (exponent_of_lower ca). pose proof (exponent_of_lower cr).
        rewrite !aligned_integer by (lia).
        rewrite !cond_Zopp_mul, <- Z.mul_sub_distr_r.
        destruct (binary_normalize_large (cond_Zopp true (Zpos ca) - cond_Zopp false (Zpos cr))
                    (Z.min (exponent_of ca) (exponent_of cr)))
          as [(s & m & e & Hn & He)|(s & Hn)]; [cbn [cond_Zopp]; lia|lia| |].
        * left. exists s, m, e. split; [exact Hn|lia].
        * right. exists s. exact Hn.
    - left. split; [lia|].
      apply (SFsub_integers true true); cbn [cond_Zopp]; lia. }
  destruct Hcases as [[Hsmall ->]|[Hfalse Hne]].
  - rewrite (number_of_Z_integer (a - r)) by exact Hsmall.
    destruct (a - r) as [|d|d] eqn:Hd.
    + split; [intros _; lia|reflexivity].
    + rewrite not_within_tolerance; [split; [discriminate|lia]|].
      left. exists false, (mantissa_of d), (exponent_of d). split; [reflexivity|].
      apply exponent_of_lower.
    + rewrite not_within_tolerance; [split; [discriminate|lia]|].
      left. exists true, (mantissa_of d), (exponent_of d). split; [reflexivity|].
      apply exponent_of_lower.
  - rewrite Hfalse. split; [discriminate|contradiction].
Qed.

End ReadingNumerals.

Section Lengths.

Variable N : nat.

Lemma set_capture_Forall (P : str -> Prop) (w : str) (caps : captures) :
  P w -> Forall P caps -> forall i, Forall P (set_capture i w caps).
Proof.
  intros Hw Hcaps. induction Hcaps as [|c caps Hc Hcaps IH]; intros i.
  - destruct i; constructor.
  - destruct i as [|[|j]]; [constructor; assumption|constructor; assumption|].
    change (Forall P (c :: set_capture (S j) w caps)). constructor; [exact Hc|apply IH].
Qed.

(** A capture is no longer than the text that the pattern consumed. *)
Lemma matches_bounded (ignoreCase : bool) (r : regex) :
  forall caps w caps',
  matches ignoreCase r caps w caps' ->
  length w <= N -> Forall (fun c => length c <= N) caps ->
  Forall (fun c => length c <= N) caps'.
Proof.
  induction r as [|c|invert A|r1 IH1 r2 IH2|r1 IH1 r2 IH2|r1 IH1|invert A|invert A|i r1 IH1];
    cbn [matches]; intros caps w caps' Hm Hw Hcaps.
  - destruct Hm as [_ ->]. exact Hcaps.
  - destruct Hm as (x & _ & _ & ->). exact Hcaps.
  - destruct Hm as (x & _ & _ & ->). exact Hcaps.
  - destruct Hm as (w1 & w2 & caps1 & -> & Hm1 & Hm2). rewrite length_app in Hw.
    apply (IH2 _ _ _ Hm2); [lia|]. apply (IH1 _ _ _ Hm1); [lia|exact Hcaps].
  - destruct Hm as [Hm|Hm]; [exact (IH1 _ _ _ Hm Hw Hcaps)|exact (IH2 _ _ _ Hm Hw Hcaps)].
  - destruct Hm as [Hm|[_ ->]]; [exact (IH1 _ _ _ Hm Hw Hcaps)|exact Hcaps].
  - destruct Hm as [_ ->]. exact Hcaps.
  - destruct Hm as (_ & _ & ->). exact Hcaps.
  - destruct Hm as (caps1 & Hm & ->). apply set_capture_Forall; [exact Hw|].
    exact (IH1 _ _ _ Hm Hw Hcaps).
Qed.

End Lengths.

(** What [match] returns is made of pieces of the text. *)
Lemma String_match_lengths (re : RegExp) (s : str) (res : list str) :
  String_match re s = Some res -> Forall (fun c => length c <= length s) res.
Proof.
  intros H. apply String_match_sound in H.
  destruct H as (before & w & after & caps & -> & Hm & ->).
  assert (Hw : length w <= length (before ++ w ++ after)) by (rewrite !length_app; lia).
  constructor; [exact Hw|].
  apply (matches_bounded _ _ _ _ _ _ Hm Hw).
  clear. induction (ngroups (source re)) as [|n IH]; cbn [repeat]; constructor;
    [cbn [length]; lia|exact IH].
Qed.

Lemma count_letter_length (letter : char) (word : str) : count_letter letter word <= length word.
Proof. unfold count_letter. apply filter_length_le. Qed.

Lemma count_words_length (s : str) : forall b, count_words_from b s <= length s.
Proof.
  induction s as [|x s IH]; intros b; [apply le_n|].
  cbn [count_words_from length]. destruct (is_space x).
  - specialize (IH false). lia.
  - specialize (IH true). destruct b; lia.
Qed.

Section ScoringNumerals.
Local Open Scope Z_scope.

(** The scoring closure of the counting templates reads the first run of
    digits of a response. *)
Lemma count_evaluation_first (n : nat) (a : Z) (before after : str) :
  Z.of_nat n < 2 ^ 53 -> 0 <= a ->
  has_digit before = false -> starts_with_digit after = false ->
  count_evaluation (number_of_nat n) (before ++ Z_digits a ++ after) = one <-> a = Z.of_nat n.
Proof.
  intros Hn Ha Hbefore Hafter. destruct (Z_digits_are_digits a Ha) as [Hne Hall].
  destruct (count_evaluation_cases n (before ++ Z_digits a ++ after) Hn) as [Hone _].
  rewrite Hone, String_match_digits_first by assumption. split.
  - intros (numbers & Hsome & Hvalue). injection Hsome as <-. cbn [nth] in Hvalue.
    rewrite digits_value_Z_digits in Hvalue by exact Ha. exact Hvalue.
  - intros ->. exists [Z_digits (Z.of_nat n)]. split; [reflexivity|].
    cbn [nth]. apply digits_value_Z_digits. exact Ha.
Qed.

Lemma expects_count_of (prompt : str) (n : nat) :
  Z.of_nat n < 2 ^ 53 ->
  analyzePrompt prompt =
    {| type := objective;
       expectedAnswer := Some (Number_toString (number_of_nat n));
       evaluationFunction := Some (count_evaluation (number_of_nat n)) |} ->
  expects_count prompt n.
Proof.
  intros Hn Hanalysis. unfold expects_count. rewrite Hanalysis.
  cbn [expectedAnswer evaluationFunction]. split.
  - unfold number_of_nat. rewrite Number_toString_integer by lia.
    unfold Z_string. replace (Z.of_nat n <? 0) with false by (symmetry; apply Z.ltb_ge; lia).
    rewrite Z.abs_eq by lia. reflexivity.
  - eexists. split; [reflexivity|]. intros before a after Ha Hbefore Hafter. apply count_evaluation_first; assumption.
Qed.

(** X14: for a prompt of a counting template, of a length below 2^53, the
    expected answer is the decimal numeral of the count (the occurrences of
    the letter, or the words of the phrase with 1 for a blank phrase), and a
    response whose first run of digits is the decimal numeral of a natural
    number (no digit before it, none straight after it) scores 1 exactly
    when that number is the count; so the expected answer itself, alone or
    in a sentence without other digits before it, scores 1. *)
Theorem counting_prompt_numerals (prompt : str) :
  Z.of_nat (length prompt) < 2 ^ 53 ->
  (forall letterMatch,
     String_match letterCountRegex prompt = Some letterMatch ->
     exists whole letter word,
       letterMatch = [whole; [letter]; word] /\
       expects_count prompt (count_letter letter word)) /\
  (forall wordMatch,
     String_match letterCountRegex prompt = None ->
     String_match wordCountRegex prompt = Some wordMatch ->
     exists whole phrase,
       wordMatch = [whole; phrase] /\
       expects_count prompt (Nat.max 1 (count_words phrase))).
Proof.
  intros Hlength. split.
  - intros letterMatch Hletter.
    destruct (analyzePrompt_letter_count _ _ Hletter) as (whole & letter & word & -> & Hanalysis).
    exists whole, letter, word. split; [reflexivity|].
    apply expects_count_of; [|exact Hanalysis].
    pose proof (String_match_lengths _ _ _ Hletter) as Hpieces.
    apply Forall_inv_tail, Forall_inv_tail, Forall_inv in Hpieces. cbn beta in Hpieces.
    pose proof (count_letter_length letter word). lia.
  - intros wordMatch Hletter Hword.
    destruct (wordCountRegex_captures _ _ Hword) as (whole & phrase & -> & Hne & _).
    exists whole, phrase. split; [reflexivity|].
    apply expects_count_of.
    + pose proof (String_match_lengths _ _ _ Hword) as Hpieces.
      apply Forall_inv_tail, Forall_inv in Hpieces. cbn beta in Hpieces.
      pose proof (count_words_length phrase false). unfold count_words.
      destruct phrase as [|x phrase]; [contradiction|]. cbn [length] in *. lia.
    + unfold analyzePrompt. rewrite Hletter, Hword. cbn [nth].
      rewrite split_trim_length. reflexivity.
Qed.

(** The arithmetic of the template on operands and results below 2^53. *)
Lemma exact_result_number (a b result : Z) (operator : str) :
  0 <= a < 2 ^ 53 -> 0 <= b < 2 ^ 53 ->
  exact_result a operator b = Some result -> Z.abs result < 2 ^ 53 ->
  (if str_eqb operator (lit "+") then number_add (number_of_Z a) (number_of_Z b)
   else if str_eqb operator (lit "-") then number_sub (number_of_Z a) (number_of_Z b)
   else if str_eqb operator (lit "*") then number_mul (number_of_Z a) (number_of_Z b)
   else if str_eqb operator (lit "/") then number_div (number_of_Z a) (number_of_Z b)
   else zero) = number_of_Z result.
Proof.
  intros Ha Hb Hexact Hresult. unfold exact_result in Hexact.
  destruct (str_eqb operator (lit "+")).
  { injection Hexact as <-. apply number_add_exact; lia. }
  destruct (str_eqb operator (lit "-")).
  { injection Hexact as <-. apply number_sub_exact; lia. }
  destruct (str_eqb operator (lit "*")).
  { injection Hexact as <-. apply number_mul_exact; lia. }
  destruct (str_eqb operator (lit "/")); [|discriminate Hexact].
  destruct (b =? 0) eqn:Hzero; [discriminate Hexact|].
  destruct (a mod b =? 0) eqn:Hmod; [|discriminate Hexact].
  cbn [orb negb] in Hexact. injection Hexact as <-.
  apply Z.eqb_neq in Hzero. apply Z.eqb_eq in Hmod.
  apply number_div_exact; [lia|lia|exact Hmod].
Qed.

(** The scoring closure of the arithmetic template reads the first numeral
    of a response. *)
Lemma math_evaluation_first (result a : Z) (before after : str) :
  Z.abs result < 2 ^ 53 -> Z.abs a < 2 ^ 53 ->
  has_digit before = false -> (0 <= a -> ends_with_minus before = false) ->
  continues_number after = false ->
  math_evaluation (number_of_Z result) (before ++ Z_string a ++ after) = one <-> a = result.
Proof.
  intros Hresult Ha Hbefore Hminus Hafter. unfold math_evaluation, Z_string.
  destruct (Z_digits_are_digits (Z.abs a) (Z.abs_nonneg a)) as [Hne Hall].
  rewrite String_match_number_first; try assumption.
  2:{ intros Hneg. apply Hminus. apply Z.ltb_ge. exact Hneg. }
  cbn [nth].
  assert (Hparse : parseFloat ((if a <? 0 then lit "-" else []) ++ Z_digits (Z.abs a)
                               ++ dot_of after) = number_of_Z a).
  { destruct (dot_of_prefix after) as (_ & _ & [->| ->]).
    - rewrite app_nil_r. exact (parseFloat_Z_string a).
    - rewrite parseFloat_signed_digits_dot by assumption.
      rewrite <- (parseFloat_Z_string a). unfold Z_string.
      symmetry. apply parseFloat_signed_digits; assumption. }
  rewrite Hparse.
  pose proof (integers_within_tolerance a result Ha Hresult) as Hiff.
  destruct (number_lt (Math_abs (number_sub (number_of_Z a) (number_of_Z result))) tolerance).
  - split; [intros _; apply Hiff; reflexivity|reflexivity].
  - split; [discriminate|]. intros Heq. apply Hiff in Heq. discriminate Heq.
Qed.

(** X15: for a prompt that the arithmetic branch takes, with operands
    below 2^53 and an exact integer result below 2^53 in magnitude, the
    expected answer is the decimal numeral of the result (with a minus sign
    when it is negative), and a response whose first numeral is that of an
    integer below 2^53 in magnitude scores 1 exactly when that integer is
    the result: the numeral may stand in a text with no digit before it, no
    minus sign straight before an unsigned numeral, and after it neither a
    digit nor a dot and a digit; a dot that ends the sentence is read with
    the numeral and changes nothing. *)
Theorem arithmetic_prompt_numerals (prompt : str) (mathMatch : list str) (result : Z) :
  String_match letterCountRegex prompt = None ->
  String_match wordCountRegex prompt = None ->
  String_match mathRegex prompt = Some mathMatch ->
  digits_value (nth 1 mathMatch []) < 2 ^ 53 ->
  digits_value (nth 3 mathMatch []) < 2 ^ 53 ->
  exact_result (digits_value (nth 1 mathMatch [])) (nth 2 mathMatch [])
    (digits_value (nth 3 mathMatch [])) = Some result ->
  Z.abs result < 2 ^ 53 ->
  expects_integer prompt result.
Proof.
  intros Hletter Hword Hmath H1 H3 Hexact Hresult.
  destruct (mathRegex_captures _ _ Hmath)
    as (whole & num1 & op & num2 & -> & Hne1 & Hd1 & Hop & Hne2 & Hd2).
  cbn [nth] in *.
  destruct (parseInt_digits _ Hne1 Hd1) as [Hp1 Hv1].
  destruct (parseInt_digits _ Hne2 Hd2) as [Hp2 Hv2].
  unfold expects_integer, analyzePrompt. rewrite Hletter, Hword, Hmath. cbn [nth].
  rewrite Hp1, Hp2.
  rewrite (exact_result_number _ _ result) by (assumption || lia).
  cbn [expectedAnswer evaluationFunction]. split.
  - rewrite Number_toString_integer by exact Hresult. reflexivity.
  - eexists. split; [reflexivity|]. intros before a after Ha Hbefore Hminus Hafter. apply math_evaluation_first; assumption.
Qed.

End ScoringNumerals.

(** ** The radar chart *)

Section Clamp.
Local Open Scope Z_scope.

Lemma shr_nonneg (r : shr_record) (e n : Z) : 0 <= shr_m r -> 0 <= shr_m (fst (shr r e n)).
Proof.
  intros Hr. unfold shr. destruct n as [|p|p]; cbn [fst]; try exact Hr.
  rewrite iter_pos_nat, shr_m_iter by exact Hr. apply Z.div_pos; [exact Hr|].
  apply Z.pow_pos_nonneg; lia.
Qed.

Lemma shr_fexp_nonneg (m e : Z) (l : location) :
  0 <= m -> 0 <= shr_m (fst (shr_fexp 53 1024 m e l)).
Proof. intros Hm. unfold shr_fexp. apply shr_nonneg. rewrite shr_m_of_loc. exact Hm. Qed.

(** Rounding a natural mantissa never gives [NaN]. *)
Lemma binary_round_aux_number (s : bool) (m e : Z) (l : location) :
  0 <= m -> is_NaN (binary_round_aux 53 1024 s m e l) = false.
Proof.
  intros Hm. unfold binary_round_aux.
  pose proof (shr_fexp_nonneg m e l Hm) as H1.
  destruct (shr_fexp 53 1024 m e l) as [r1 e1]. cbn [fst] in H1.
  pose proof (round_nearest_even_ge (shr_m r1) (loc_of_shr_record r1)) as Hround.
  pose proof (shr_fexp_nonneg (round_nearest_even (shr_m r1) (loc_of_shr_record r1)) e1
                loc_Exact ltac:(lia)) as H2.
  destruct (shr_fexp 53 1024 (round_nearest_even (shr_m r1) (loc_of_shr_record r1)) e1 loc_Exact)
    as [r2 e2]. cbn [fst] in H2.
  destruct (shr_m r2) as [|p|p]; [reflexivity| |lia].
  destruct (e2 <=? 1024 - 53); reflexivity.
Qed.

Lemma number_mul_number (x : number) (s : bool) (m : positive) (e : Z) :
  is_NaN (number_mul x (S754_finite s m e)) = is_NaN x.
Proof.
  destruct x as [sx|sx| |sx mx ex]; try reflexivity.
  unfold number_mul, SFmul. apply binary_round_aux_number. lia.
Qed.

Lemma number_sub_number (s : bool) (m : positive) (e : Z) (y : number) :
  is_NaN (number_sub (S754_finite s m e) y) = is_NaN y.
Proof.
  destruct y as [sy|sy| |sy my ey]; try reflexivity.
  unfold number_sub, SFsub, binary_normalize.
  destruct (cond_Zopp s (Zpos (fst (shl_align m e (Z.min e ey))))
            - cond_Zopp sy (Zpos (fst (shl_align my ey (Z.min e ey))))) as [|p|p];
    [reflexivity| |]; unfold binary_round;
    destruct (shl_align p (Z.min e ey) (fexp 53 1024 (Zpos (digits2_pos p) + Z.min e ey)))
      as [mz ez]; apply binary_round_aux_number; lia.
Qed.

(** [Math.max(0, x)] is [NaN] when [x] is, and is not negative otherwise. *)
Lemma Math_max_zero (x : number) :
  is_NaN (Math_max (literal "0") x) = is_NaN x /\
  (is_NaN x = false -> number_le (literal "0") (Math_max (literal "0") x) = true).
Proof.
  destruct x as [s|s| |s m e]; try destruct s; split; try reflexivity; discriminate.
Qed.

(** X16: [getRadarData] returns the four axes Accuracy, Relevancy, Speed
    and Efficiency, in this order, each with the full mark 100; the values
    of Speed and of Efficiency are [NaN] exactly when the response time,
    respectively the cost, is [NaN], and are never negative otherwise. *)
Theorem getRadarData_clamps (response : LLMResponse) :
  exists a r s f,
    getRadarData response =
      [ {| subject := lit "Accuracy"; value := a; fullMark := literal "100" |};
        {| subject := lit "Relevancy"; value := r; fullMark := literal "100" |};
        {| subject := lit "Speed"; value := s; fullMark := literal "100" |};
        {| subject := lit "Efficiency"; value := f; fullMark := literal "100" |} ] /\
    is_NaN s = is_NaN (responseTime (metrics response)) /\
    is_NaN f = is_NaN (cost (metrics response)) /\
    (is_NaN s = false -> number_le (literal "0") s = true) /\
    (is_NaN f = false -> number_le (literal "0") f = true).
Proof.
  eexists; eexists; eexists; eexists. split; [reflexivity|].
  set (speed := number_sub (literal "100")
                  (number_mul (responseTime (metrics response)) (literal "20"))).
  set (efficiency := number_sub (literal "100")
                       (number_mul (cost (metrics response)) (literal "1000"))).
  assert (Hspeed : is_NaN speed = is_NaN (responseTime (metrics response))).
  { unfold speed. change (literal "100") with hundred. unfold hundred.
    rewrite number_sub_number. apply number_mul_number. }
  assert (Hefficiency : is_NaN efficiency = is_NaN (cost (metrics response))).
  { unfold efficiency. change (literal "100") with hundred. unfold hundred.
    rewrite number_sub_number. change (literal "1000") with thousand. unfold thousand.
    apply number_mul_number. }
  destruct (Math_max_zero speed) as [Hs1 Hs2]. destruct (Math_max_zero efficiency) as [Hf1 Hf2].
  split; [rewrite Hs1; exact Hspeed|]. split; [rewrite Hf1; exact Hefficiency|].
  split; intros H.
  - apply Hs2. rewrite <- Hs1. exact H.
  - apply Hf2. rewrite <- Hf1. exact H.
Qed.

End Clamp.

(** ** Runs of the further properties *)

Lemma evaluateWithRubric_objective_run :
  exists answer evaluate,
    (evaluate = count_evaluation answer \/ evaluate = math_evaluation answer) /\
    evaluationFunction (analyzePrompt (lit "what is 12 + 30")) = Some evaluate /\
    evaluateWithRubric (service silent) (lit "It is 42.") (lit "what is 12 + 30") 0%Z =
      (inr {| rubric_accuracy := evaluate (lit "It is 42.");
              rubric_relevancy := if has_digit (lit "It is 42.") then one else zero;
              rubric_details :=
                details_objective (Some (Number_toString answer)) (lit "It is 42.") |}, 0%Z).
Proof.
  apply (evaluateWithRubric_objective Z (service silent) (lit "It is 42.")
           (lit "what is 12 + 30") 0%Z).
  vm_compute. reflexivity.
Defined.

Lemma objective_scores_are_binary_run :
  exists result,
    evaluateWithRubric (service silent) (lit "no idea") (lit "what is 12 + 30") 0%Z
      = (inr result, 0%Z) /\
    (rubric_accuracy result = one \/ rubric_accuracy result = zero) /\
    (rubric_relevancy result = one \/ rubric_relevancy result = zero) /\
    (rubric_accuracy result = one -> rubric_relevancy result = one) /\
    (has_digit (lit "no idea") = false ->
     rubric_accuracy result = zero /\ rubric_relevancy result = zero).
Proof.
  apply (objective_scores_are_binary Z (service silent) (lit "no idea")
           (lit "what is 12 + 30") 0%Z).
  vm_compute. reflexivity.
Defined.

Lemma getGroqResponse_responseTime_run :
  exists r w',
    getGroqResponse (service (answering (lit "42") verdict_85_90)) clock
      (lit "what is 12 + 30") (lit "gemma2-9b-it") 0%Z = (inr r, w') /\
    responseTime (metrics r) = number_div (number_of_Z (1200 - 0)) (literal "1000").
Proof.
  apply (getGroqResponse_responseTime Z (service (answering (lit "42") verdict_85_90)) clock
           (lit "what is 12 + 30") (lit "gemma2-9b-it") 0%Z 0%Z 1200%Z 1200%Z 0%Z 1200%Z
           (inr (text_completion (lit "42") 120)));
    try (vm_compute; reflexivity); lia.
Defined.

Lemma getGroqResponse_no_token_count_run :
  exists r w',
    getGroqResponse (service silent) clock (lit "Tell me a story")
      (lit "mixtral-8x7b-32768") 0%Z = (inr r, w') /\
    error r = None /\
    tokenCount (metrics r) = S754_zero false /\
    cost (metrics r) = S754_zero false.
Proof.
  apply (getGroqResponse_no_token_count Z (service silent) clock (lit "Tell me a story")
           (lit "mixtral-8x7b-32768") 0%Z 0%Z 1200%Z 0%Z empty_completion).
  - reflexivity.
  - reflexivity.
  - exact I.
Defined.

Lemma getGroqResponse_requests_run :
  exists r w',
    getGroqResponse (service (answering (lit "Once upon a time") verdict_85_90)) clock
      (lit "Tell me a story") (lit "gemma2-9b-it") 0%Z = (inr r, w') /\
    getGroqResponse (recording (service (answering (lit "Once upon a time") verdict_85_90)))
      (beside clock) (lit "Tell me a story") (lit "gemma2-9b-it") (0%Z, []) =
      (inr r,
       (w', [] ++ completion_request (lit "Tell me a story") (lit "gemma2-9b-it")
                  :: judged (lit "Tell me a story")
                       (inr (text_completion (lit "Once upon a time") 120)))) /\
    judged (lit "Tell me a story") (inr (text_completion (lit "Once upon a time") 120))
      = judged_result (lit "Tell me a story") r.
Proof.
  apply (getGroqResponse_requests Z (service (answering (lit "Once upon a time") verdict_85_90))
           clock (lit "Tell me a story") (lit "gemma2-9b-it") 0%Z 0%Z 1200%Z 0%Z
           (inr (text_completion (lit "Once upon a time") 120)) []);
    vm_compute; reflexivity.
Defined.

Lemma evaluatePrompt_objective_scores_run :
  exists rs w',
    evaluatePrompt (service (answering (lit "42") verdict_85_90)) clock
      (lit "what is 12 + 30") 0%Z = (inr rs, w') /\
    Forall (fun r => binary_scores (accuracy (metrics r)) (relevancy (metrics r))) rs.
Proof.
  apply (evaluatePrompt_objective_scores Z (service (answering (lit "42") verdict_85_90)) clock
           (lit "what is 12 + 30") 0%Z).
  vm_compute. reflexivity.
Defined.

Lemma evaluateWithRubric_missing_score_run :
  evaluateWithRubric (service (answering (lit "Once upon a time") verdict_relevancy_90))
    (lit "Once upon a time") (lit "Tell me a story") 0%Z =
    (inr {| rubric_accuracy := NaN;
            rubric_relevancy := number_div (number_of_Z 90) (literal "100");
            rubric_details :=
              details_subjective (JObject [ (lit "relevancy", JNumber (number_of_Z 90)) ]) |},
     1200%Z).
Proof.
  apply (proj1 (evaluateWithRubric_missing_score Z
                  (service (answering (lit "Once upon a time") verdict_relevancy_90))
                  (lit "Once upon a time") (lit "Tell me a story") 0%Z 1200%Z
                  (text_completion verdict_relevancy_90 40) [verdict_relevancy_90]
                  [ (lit "relevancy", JNumber (number_of_Z 90)) ]
                  ltac:(vm_compute; reflexivity) ltac:(vm_compute; reflexivity)
                  ltac:(vm_compute; reflexivity) ltac:(vm_compute; reflexivity)));
    reflexivity.
Defined.

Lemma objective_prompt_mentions_template_run :
  mentions "how many " (lit "How Many words are in 'to be or not to be'") \/
  mentions "what is " (lit "How Many words are in 'to be or not to be'").
Proof.
  apply (objective_prompt_mentions_template (lit "How Many words are in 'to be or not to be'")).
  vm_compute. reflexivity.
Defined.

Lemma analyzePrompt_ignores_case_run :
  analyzePrompt (lit "HOW MANY LETTERS 'R' ARE IN THE WORD 'STRAWBERRY'")
  = analyzePrompt (lit "how many letters 'r' are in the word 'strawberry'").
Proof.
  apply (analyzePrompt_ignores_case (lit "HOW MANY LETTERS 'R' ARE IN THE WORD 'STRAWBERRY'")
           (lit "how many letters 'r' are in the word 'strawberry'")).
  vm_compute. reflexivity.
Defined.

Lemma analyzePrompt_word_count_run :
  exists whole phrase,
    [ lit "how many words are in 'to be or not to be'"; lit "to be or not to be" ]
      = [whole; phrase] /\
    phrase <> [] /\
    Forall (fun x => is_quote x = false) phrase /\
    analyzePrompt (lit "how many words are in 'to be or not to be'") =
      {| type := objective;
         expectedAnswer :=
           Some (Number_toString (number_of_nat (Nat.max 1 (count_words phrase))));
         evaluationFunction :=
           Some (count_evaluation (number_of_nat (Nat.max 1 (count_words phrase)))) |}.
Proof.
  apply (analyzePrompt_word_count (lit "how many words are in 'to be or not to be'")
           [ lit "how many words are in 'to be or not to be'"; lit "to be or not to be" ]);
    vm_compute; reflexivity.
Defined.

Lemma counting_prompt_numerals_run :
  (forall letterMatch,
     String_match letterCountRegex (lit "How many letters 'r' are in the word 'Strawberry'")
       = Some letterMatch ->
     exists whole letter word,
       letterMatch = [whole; [letter]; word] /\
       expects_count (lit "How many letters 'r' are in the word 'Strawberry'")
         (count_letter letter word)) /\
  (forall wordMatch,
     String_match letterCountRegex (lit "How many letters 'r' are in the word 'Strawberry'")
       = None ->
     String_match wordCountRegex (lit "How many letters 'r' are in the word 'Strawberry'")
       = Some wordMatch ->
     exists whole phrase,
       wordMatch = [whole; phrase] /\
       expects_count (lit "How many letters 'r' are in the word 'Strawberry'")
         (Nat.max 1 (count_words phrase))).
Proof.
  apply (counting_prompt_numerals (lit "How many letters 'r' are in the word 'Strawberry'")).
  vm_compute. reflexivity.
Defined.

Lemma arithmetic_prompt_numerals_run : expects_integer (lit "what is 3 - 5") (-2).
Proof.
  apply (arithmetic_prompt_numerals (lit "what is 3 - 5")
           [ lit "what is 3 - 5"; lit "3"; lit "-"; lit "5" ] (-2)%Z);
    vm_compute; reflexivity.
Defined.

Lemma getGroqResponse_judge_failure_run :
  exists r,
    getGroqResponse
      (service (fun request => if is_judge_request request then failing request
                               else inr (text_completion (lit "Once upon a time") 120)))
      clock (lit "Tell me a story") (lit "gemma2-9b-it") 0%Z = (inr r, 2400%Z) /\
    error r = None /\
    response r = response_text (text_completion (lit "Once upon a time") 120) /\
    accuracy (metrics r) = literal "0.5" /\
    relevancy (metrics r) = literal "0.5".
Proof.
  apply (getGroqResponse_judge_failure Z
           (service (fun request => if is_judge_request request then failing request
                                    else inr (text_completion (lit "Once upon a time") 120)))
           clock (lit "Tell me a story") (lit "gemma2-9b-it") 0%Z 0%Z 1200%Z 1200%Z 2400%Z
           0%Z 1200%Z (text_completion (lit "Once upon a time") 120)
           (ErrorObject (lit "429 rate limit reached")));
    vm_compute; reflexivity.
Defined.
